(** * IntrusionJS certificate authority ([src/ca.js]): model and properties

    The module under study is the [CA] class of an intercepting proxy.  It
    owns a self-signed root certificate, persists it below a base directory
    and issues leaf certificates for the host names the proxy meets.

    The class is written against Node's [fs] and [path] modules, the [async]
    control-flow helpers and node-forge's [pki].  Those are libraries, not
    code of the repository.  The file system is a finite map from paths to
    file contents plus a set of directories; the clock, the random source,
    the key generator and the failures of the file system are streams and
    oracles of an environment; forge's signing and PEM codec are an
    interface on which nothing is assumed unless a statement says so.

    A method that reports through a callback is modelled by a computation
    that returns what the callback receives.  Such a computation ends in
    [Threw] when an exception leaves the method or one of the callbacks it
    registered: the callback of the caller is then never called.  Where a
    statement is about the call of the callback itself, the callback is a
    parameter of the computation.  What a method has started and left
    running, a write to a file, is run to its end in the world the
    computation leaves.

    A file is known by the spelling of its path: two spellings of one file
    are two keys of the map.

    The first part of the file holds the model, the second its properties. *)

From Stdlib Require Import ZArith NArith Lia List Ascii String.
From stdpp Require Import base option gmap strings.

Local Open Scope string_scope.

(** ** JavaScript strings *)

Module JsString.

Fixpoint all_chars (p : ascii -> bool) (s : string) : bool :=
  match s with
  | EmptyString => true
  | String c r => p c && all_chars p r
  end.

Fixpoint map_chars (f : ascii -> ascii) (s : string) : string :=
  match s with
  | EmptyString => EmptyString
  | String c r => String (f c) (map_chars f r)
  end.

Fixpoint drop (n : nat) (s : string) : string :=
  match n, s with
  | O, _ => s
  | S n', String _ r => drop n' r
  | S _, EmptyString => EmptyString
  end.

(** [s.slice(-k)]: the last [k] characters, the whole string when it is
    shorter than [k]. *)
Definition slice_last (k : nat) (s : string) : string :=
  drop (String.length s - k) s.

(** [parts.join('')] *)
Definition join (parts : list string) : string :=
  fold_right String.append EmptyString parts.

End JsString.

(** ** Serial numbers: [Number.prototype.toString(16)] and the 8-digit blocks *)

Module Hex.

Local Open Scope N_scope.

Definition hex_digit (d : N) : ascii :=
  match d with
  | 0 => "0" | 1 => "1" | 2 => "2" | 3 => "3" | 4 => "4" | 5 => "5"
  | 6 => "6" | 7 => "7" | 8 => "8" | 9 => "9" | 10 => "a" | 11 => "b"
  | 12 => "c" | 13 => "d" | 14 => "e" | _ => "f"
  end%char.


Definition digit_value (c : ascii) : N :=
  let n := N_of_ascii c in
  if (48 <=? n) && (n <=? 57) then n - 48 else n - 87.

(** Digits are produced from the least significant one; the recursion is
    on a bound for the number of digits. *)
Fixpoint to_hex_aux (fuel : nat) (n : N) (acc : string) : string :=
  match fuel with
  | O => acc
  | S fuel' =>
      let acc' := String (hex_digit (n mod 16)) acc in
      if n / 16 =? 0 then acc' else to_hex_aux fuel' (n / 16) acc'
  end.

(** [n.toString(16)] for a non-negative integer [n]. *)
Definition toString16 (n : N) : string :=
  to_hex_aux (S (N.to_nat (N.log2 n))) n EmptyString.

(** The number a string of hexadecimal digits denotes. *)
Fixpoint hex_value_from (v : N) (s : string) : N :=
  match s with
  | EmptyString => v
  | String c r => hex_value_from (v * 16 + digit_value c) r
  end.

Definition hex_value (s : string) : N := hex_value_from 0 s.

(** [`00000000${n.toString(16)}`.slice(-8)] *)
Definition hex_block (n : N) : string :=
  JsString.slice_last 8 ("00000000" +:+ toString16 n).

End Hex.

(** ** The value of [Math.random()]

    A double in the interval [0, 1) is a dyadic rational [num / 2 ^ expo]
    with [num < 2 ^ expo].  Scaling by [256 ** 4], a power of two, is exact,
    so [Math.floor(Math.random() * 256 ** 4)] is an exact integer quotient. *)

Record dyadic : Type := { num : N; expo : N }.

Definition in_unit_interval (r : dyadic) : Prop := (num r < 2 ^ expo r)%N.

(** [Math.floor(r * 256 ** 4)] *)
Definition floor_scaled (r : dyadic) : N := ((num r * 256 ^ 4) / 2 ^ expo r)%N.

(** The double whose scaled floor is [v], for [v] below [256 ** 4]. *)
Definition dyadic_of_block (v : N) : dyadic := {| num := v; expo := 32 |}.

(** ** Dates: the time arithmetic of ECMAScript's [Date]

    A [Date] is its time value, the milliseconds since the epoch.  Local
    time is UTC plus the offset of the zone, which depends on the moment:
    [tza t true] is the offset in force at the instant [t], [tza t false]
    the offset the zone assigns to the local time value [t], as
    ECMAScript's [LocalTZA(t, isUTC)].  The two differ around a change of
    the clocks.  [TimeClip] and the invalid date are left out. *)

Module JsDate.

Local Open Scope Z_scope.

Definition msPerDay : Z := 86400000.
Definition msPerHour : Z := 3600000.

Definition Day (t : Z) : Z := t / msPerDay.
Definition TimeWithinDay (t : Z) : Z := t mod msPerDay.

Definition DaysInYear (y : Z) : Z :=
  if negb (y mod 4 =? 0) then 365
  else if negb (y mod 100 =? 0) then 366
  else if negb (y mod 400 =? 0) then 365
  else 366.

Definition DayFromYear (y : Z) : Z :=
  365 * (y - 1970) + (y - 1969) / 4 - (y - 1901) / 100 + (y - 1601) / 400.

Definition TimeFromYear (y : Z) : Z := msPerDay * DayFromYear y.

(** The largest [y] with [TimeFromYear y <= t], computed through the
    400-, 100-, 4- and 1-year cycles counted from 1 January 1601. *)
Definition YearFromTime (t : Z) : Z :=
  let n := Day t + 134774 in
  let n400 := n / 146097 in
  let r400 := n mod 146097 in
  let n100 := Z.min (r400 / 36524) 3 in
  let r100 := r400 - n100 * 36524 in
  let n4 := r100 / 1461 in
  let r4 := r100 mod 1461 in
  let n1 := Z.min (r4 / 365) 3 in
  1601 + 400 * n400 + 100 * n100 + 4 * n4 + n1.

Definition leap_of_year (y : Z) : Z := if DaysInYear y =? 366 then 1 else 0.

Definition InLeapYear (t : Z) : Z := leap_of_year (YearFromTime t).

Definition DayWithinYear (t : Z) : Z := Day t - DayFromYear (YearFromTime t).

(** Day within the year on which month [m] (0 to 11) starts. *)
Definition month_start (m leap : Z) : Z :=
  match m with
  | 0 => 0
  | 1 => 31
  | 2 => 59 + leap
  | 3 => 90 + leap
  | 4 => 120 + leap
  | 5 => 151 + leap
  | 6 => 181 + leap
  | 7 => 212 + leap
  | 8 => 243 + leap
  | 9 => 273 + leap
  | 10 => 304 + leap
  | _ => 334 + leap
  end.

Definition MonthFromTime (t : Z) : Z :=
  let d := DayWithinYear t in
  let l := InLeapYear t in
  if d <? 31 then 0
  else if d <? 59 + l then 1
  else if d <? 90 + l then 2
  else if d <? 120 + l then 3
  else if d <? 151 + l then 4
  else if d <? 181 + l then 5
  else if d <? 212 + l then 6
  else if d <? 243 + l then 7
  else if d <? 273 + l then 8
  else if d <? 304 + l then 9
  else if d <? 334 + l then 10
  else 11.

(** Day of the month, 1 to 31. *)
Definition DateFromTime (t : Z) : Z :=
  DayWithinYear t - month_start (MonthFromTime t) (InLeapYear t) + 1.

(** [MakeDay(year, month, date)]: months outside 0 to 11 and dates outside
    the month carry over. *)
Definition MakeDay (year month date : Z) : Z :=
  let ym := year + month / 12 in
  let mn := month mod 12 in
  DayFromYear ym + month_start mn (leap_of_year ym) + date - 1.

Definition MakeDate (day time : Z) : Z := day * msPerDay + time.

(** The offsets of a zone. *)
Definition Zone : Type := Z -> bool -> Z.

Definition LocalTime (tza : Zone) (t : Z) : Z := t + tza t true.
Definition UTC (tza : Zone) (t : Z) : Z := t - tza t false.

(** [d.getDate()] *)
Definition getDate (tza : Zone) (t : Z) : Z := DateFromTime (LocalTime tza t).

(** [d.getFullYear()] *)
Definition getFullYear (tza : Zone) (t : Z) : Z := YearFromTime (LocalTime tza t).

(** [d.getMonth()] *)
Definition getMonth (tza : Zone) (t : Z) : Z := MonthFromTime (LocalTime tza t).

(** [d.setDate(date)]: the new time value of [d]. *)
Definition setDate (tza : Zone) (t date : Z) : Z :=
  let lt := LocalTime tza t in
  UTC tza (MakeDate (MakeDay (YearFromTime lt) (MonthFromTime lt) date)
                    (TimeWithinDay lt)).

(** [d.setFullYear(year)]: the new time value of [d]. *)
Definition setFullYear (tza : Zone) (t year : Z) : Z :=
  let lt := LocalTime tza t in
  UTC tza (MakeDate (MakeDay year (MonthFromTime lt) (DateFromTime lt))
                    (TimeWithinDay lt)).

(** From [from] until [until] the offsets of the zone stay within a day of
    UTC and differ by [delta] at most. *)
Definition offsets_within (tza : Zone) (from until delta : Z) : Prop :=
  forall t b,
    from <= t <= until ->
    - msPerDay <= tza t b <= msPerDay
    /\ forall t' b', from <= t' <= until -> tza t b - tza t' b' <= delta.

(** The same from three days before the readings [now1] and [now2] of the
    clock until a year and two days after them. *)
Definition steady_zone (tza : Zone) (delta now1 now2 : Z) : Prop :=
  offsets_within tza (Z.min now1 now2 - 3 * msPerDay)
    (Z.max now1 now2 + 367 * msPerDay) delta.

(** A zone without changes of the clocks. *)
Definition fixed_zone (offset : Z) : Zone := fun _ _ => offset.

(** A zone whose clocks stand at [before] until the instant [change] and at
    [after] from then on.  A local time value that the change repeats or
    skips is read with the offset before the change. *)
Definition zone_with_change (change before after : Z) : Zone :=
  fun t isUTC =>
    if isUTC then (if t <? change then before else after)
    else (if (t - before <? change) || (t - after <? change) then before
          else after).

End JsDate.


(** ** Errors

    A rejected operation hands an error value to a callback or throws it. *)

Inductive exn : Type :=
| TypeError (msg : string)
| ForgeError (msg : string)
| SystemError (code path : string).

(** ** Certificates as node-forge sees them *)

Inductive AttrKey : Type :=
| Name (n : string)
| ShortName (n : string).

(** One attribute of a distinguished name; [undefined] is a possible value
    of the common name, see [generateServerCertificateKeys]. *)
Record Attribute : Type := { attr_key : AttrKey; attr_value : option string }.

(** An entry of the subjectAltName extension: [{ type: 7, ip }] or
    [{ type: 2, value }]. *)
Inductive AltName : Type :=
| IPAddress (ip : string)
| DNSName (value : string).

Definition altname_type (a : AltName) : Z :=
  match a with IPAddress _ => 7%Z | DNSName _ => 2%Z end.

Inductive Extension : Type :=
| basicConstraints (cA : bool)
| keyUsage (keyCertSign digitalSignature nonRepudiation keyEncipherment
            dataEncipherment : bool)
| extKeyUsage (serverAuth clientAuth codeSigning emailProtection
               timeStamping : bool)
| nsCertType (client server email objsign sslCA emailCA objCA : bool)
| subjectKeyIdentifier
| subjectAltName (altNames : list AltName).

Inductive MessageDigest : Type := sha1 | sha256 | sha512.

Definition CA_ATTRIBUTES : list Attribute :=
  [ {| attr_key := Name "commonName"; attr_value := Some "IntrusionJSCA" |};
    {| attr_key := Name "countryName"; attr_value := Some "Internet" |};
    {| attr_key := ShortName "ST"; attr_value := Some "Internet" |};
    {| attr_key := Name "localityName"; attr_value := Some "Internet" |};
    {| attr_key := Name "organizationName";
       attr_value := Some "IntrusionJS Interception Proxy" |};
    {| attr_key := ShortName "OU"; attr_value := Some "CA" |} ].

Definition CA_EXTENSIONS : list Extension :=
  [ basicConstraints true;
    keyUsage true true true true true;
    extKeyUsage true true true true true;
    nsCertType true true true true true true true;
    subjectKeyIdentifier ].

Definition SERVER_ATTRIBUTES : list Attribute :=
  [ {| attr_key := Name "countryName"; attr_value := Some "Internet" |};
    {| attr_key := ShortName "ST"; attr_value := Some "Internet" |};
    {| attr_key := Name "localityName"; attr_value := Some "Internet" |};
    {| attr_key := Name "organizationName";
       attr_value := Some "IntrusionJS Interception Proxy" |};
    {| attr_key := ShortName "OU";
       attr_value := Some "IntrusionJS Interception Proxy Server Certificate" |} ].

Definition SERVER_EXTENSIONS : list Extension :=
  [ basicConstraints false;
    keyUsage false true false true true;
    extKeyUsage true true false false false;
    nsCertType true true false false false false false;
    subjectKeyIdentifier ].

(** [cert.setSubject(attrs)] and [cert.setIssuer(attrs)] throw for an
    attribute without a value. *)
Fixpoint attributes_error (attrs : list Attribute) : option exn :=
  match attrs with
  | [] => None
  | attr :: rest =>
      match attr_value attr with
      | None => Some (ForgeError "Attribute value not specified.")
      | Some _ => attributes_error rest
      end
  end.

(** ** Host names *)

Definition is_digit (c : ascii) : bool :=
  let n := N_of_ascii c in ((48 <=? n) && (n <=? 57))%N.

(** [host.match(/^[\d.]+$/)] as a truth value: one or more characters, each
    a decimal digit or a dot. *)
Definition matches_digits_dots (host : string) : bool :=
  match host with
  | EmptyString => false
  | String _ _ =>
      JsString.all_chars (fun c => is_digit c || Ascii.eqb c ".") host
  end.

(** The callback of [hosts.map] in [generateServerCertificateKeys]. *)
Definition altName_of_host (host : string) : AltName :=
  if matches_digits_dots host then IPAddress host else DNSName host.

(** [mainHost.replace(/\*/g, "_")] *)
Definition replace_stars (mainHost : string) : string :=
  JsString.map_chars (fun c => if Ascii.eqb c "*" then "_"%char else c) mainHost.

(** The first argument of [generateServerCertificateKeys]: callers pass an
    array of host names, the code also tests for a plain string. *)
Inductive Hosts : Type :=
| HostString (s : string)
| HostArray (l : list string).

(** ** [async]: which error reaches the final callback

    [async.parallel] and [async.auto] call the final callback with the
    error of the task that fails first.  [order] lists task indices in the
    order of completion; tasks it omits complete afterwards, in source
    order. *)

Fixpoint first_error (outcomes : list (option exn)) : option exn :=
  match outcomes with
  | [] => None
  | Some e :: _ => Some e
  | None :: rest => first_error rest
  end.

Definition async_first_error (order : list nat) (outcomes : list (option exn))
  : option exn :=
  match first_error (map (fun i => mjoin (outcomes !! i)) order) with
  | Some e => Some e
  | None => first_error outcomes
  end.

(** The order in which [n] tasks started together come to their end:
    [order] without repetitions and without indices that name no task, then
    the tasks it omits. *)
Fixpoint distinct_below (n : nat) (order : list nat) : list nat :=
  match order with
  | [] => []
  | i :: rest =>
      let later := List.filter (fun j => negb (Nat.eqb j i)) (distinct_below n rest) in
      if Nat.ltb i n then i :: later else later
  end.

Definition completion_order (order : list nat) (n : nat) : list nat :=
  let named := distinct_below n order in
  (named ++ List.filter (fun i => negb (existsb (Nat.eqb i) named)) (seq 0 n))%list.

Definition in_completion_order {A : Type} (order : list nat) (tasks : list A)
  : list A :=
  omap (fun i => tasks !! i) (completion_order order (length tasks)).

(** ** The world the class runs in *)

Record World : Type := {
  files : gmap string string;      (* regular files by path *)
  dirs : gset string;              (* directories made so far *)
  clock_reads : nat;               (* readings of the clock taken *)
  random_draws : nat;              (* values of Math.random() consumed *)
  keygens : nat;                   (* key pairs generated *)
  console : list (string * exn)    (* lines of console.error, oldest first *)
}.

Inductive result (A : Type) : Type :=
| Done (a : A)
| Threw (e : exn).

Arguments Done {A} a.
Arguments Threw {A} e.

(** Computations that read and change the world and may throw. *)
Definition M (A : Type) : Type := World -> result A * World.

#[global] Instance M_ret : MRet M := fun A a w => (Done a, w).

#[global] Instance M_bind : MBind M := fun A B k m w =>
  match m w with
  | (Done a, w') => k a w'
  | (Threw e, w') => (Threw e, w')
  end.

Definition throw {A : Type} (e : exn) : M A := fun w => (Threw e, w).

(** Reading a property of [null] or [undefined] is a [TypeError]. *)
Definition deref {A : Type} (what : string) (o : option A) : M A :=
  match o with
  | Some a => mret a
  | None => throw (TypeError ("Cannot read properties of " +:+ what))
  end.

(** An operation that throws when it has an objection. *)
Definition rejected (objection : option exn) : M unit :=
  match objection with
  | Some e => throw e
  | None => mret tt
  end.

(** An error thrown by forge while decoding. *)
Definition decoded {A : Type} (r : exn + A) : M A :=
  match r with
  | inr a => mret a
  | inl e => throw e
  end.

(** [m], and after it what was started before and ends later: [later] runs
    to its end whether [m] returns or throws. *)
Definition afterwards {A : Type} (m : M A) (later : M unit) : M A := fun w =>
  match m w with
  | (r, w') => (r, snd (later w'))
  end.

(** [f] on every element, first to last. *)
Fixpoint each {A : Type} (f : A -> M unit) (xs : list A) : M unit :=
  match xs with
  | [] => mret tt
  | x :: rest => f x;; each f rest
  end.

(** The value passed for a callback parameter. *)
Inductive Callback : Type :=
| NotAFunction
| Function (f : string -> string -> M unit).

(** [cb(a, b)] *)
Definition call (cb : Callback) (a b : string) : M unit :=
  match cb with
  | Function f => f a b
  | NotAFunction => throw (TypeError "cb is not a function")
  end.

Definition error_of {A : Type} (r : exn + A) : option exn :=
  match r with
  | inl e => Some e
  | inr _ => None
  end.

Definition with_files (f : gmap string string -> gmap string string) (w : World)
  : World :=
  {| files := f (files w); dirs := dirs w; clock_reads := clock_reads w;
     random_draws := random_draws w; keygens := keygens w;
     console := console w |}.

Definition with_dirs (f : gset string -> gset string) (w : World) : World :=
  {| files := files w; dirs := f (dirs w); clock_reads := clock_reads w;
     random_draws := random_draws w; keygens := keygens w;
     console := console w |}.

Definition with_console (f : list (string * exn) -> list (string * exn))
    (w : World) : World :=
  {| files := files w; dirs := dirs w; clock_reads := clock_reads w;
     random_draws := random_draws w; keygens := keygens w;
     console := f (console w) |}.

(** The world after [kg] more key generations, [rd] more random values and
    [cr] more readings of the clock. *)
Definition advanced (kg rd cr : nat) (w : World) : World :=
  {| files := files w; dirs := dirs w; clock_reads := cr + clock_reads w;
     random_draws := rd + random_draws w; keygens := kg + keygens w;
     console := console w |}.

(** [fs.existsSync(path)] *)
Definition existsSync (path : string) : M bool := fun w =>
  (Done (bool_decide (is_Some (files w !! path)) || bool_decide (path ∈ dirs w)), w).

(** [console.error(msg, err)] *)
Definition console_error (msg : string) (err : exn) : M unit := fun w =>
  (Done tt, with_console (fun lines => (lines ++ [(msg, err)])%list) w).

(** ** node-forge and Node's [path] as interfaces *)

(** The representation of keys and signatures is forge's business. *)
Class KeyMaterial : Type := {
  PublicKey : Type;
  PrivateKey : Type;
  Signature : Type
}.

Section Model.

Context `{KM : KeyMaterial}.

(** [{ privateKey, publicKey }] *)
Record KeyPair : Type := {
  privateKey : PrivateKey;
  publicKey : PublicKey
}.

(** The fields of a forge certificate object the class touches. *)
Record Certificate : Type := {
  cert_publicKey : PublicKey;
  serialNumber : string;
  notBefore : Z;
  notAfter : Z;
  subject : list Attribute;
  issuer : list Attribute;
  extensions : list Extension;
  md : option MessageDigest;
  signature : option Signature
}.

Class Forge : Type := {
  (* key.sign(md) over the encoded to-be-signed certificate *)
  rsa_sign : PrivateKey -> MessageDigest -> Certificate -> Signature;
  (* key.verify(digest, signature) over the same encoding *)
  rsa_verify : PublicKey -> MessageDigest -> Certificate -> Signature -> bool;
  certificateToPem : Certificate -> string;
  certificateFromPem : string -> exn + Certificate;
  privateKeyToPem : PrivateKey -> string;
  privateKeyFromPem : string -> exn + PrivateKey;
  publicKeyToPem : PublicKey -> string;
  publicKeyFromPem : string -> exn + PublicKey;
  (* what cert.setExtensions throws for alternative names it cannot encode:
     an entry of type 7 whose ip is not an address *)
  altNames_error : list AltName -> option exn;
  (* path.join(a, b) *)
  path_join : string -> string -> string
}.

Context `{FG : Forge}.

(** What the surroundings supply during a run. *)
Record Env : Type := {
  clock : nat -> Z;                  (* the k-th reading of the clock, in ms *)
  LocalTZA : JsDate.Zone;            (* offsets of local time from UTC, in ms *)
  random : nat -> dyadic;            (* the k-th value of Math.random() *)
  keygen : nat -> exn + KeyPair;     (* outcome of the k-th key generation *)
  mkdir_error : string -> option exn;  (* whether making a directory fails *)
  read_error : string -> option exn;   (* whether reading a file there fails *)
  write_error : string -> option exn;  (* whether writing a path fails *)
  cut_at : string -> option nat;     (* how far a failing write gets, see writeFile *)
  completion : list nat              (* completion order of parallel tasks *)
}.

(** The same surroundings with other outcomes of the writes. *)
Definition with_write_error (f : string -> option exn) (e : Env) : Env :=
  {| clock := clock e; LocalTZA := LocalTZA e; random := random e;
     keygen := keygen e; mkdir_error := mkdir_error e;
     read_error := read_error e; write_error := f; cut_at := cut_at e;
     completion := completion e |}.

(** The same surroundings with failing writes that get as far as [f] tells. *)
Definition with_cut_at (f : string -> option nat) (e : Env) : Env :=
  {| clock := clock e; LocalTZA := LocalTZA e; random := random e;
     keygen := keygen e; mkdir_error := mkdir_error e;
     read_error := read_error e; write_error := write_error e; cut_at := f;
     completion := completion e |}.

Variable env : Env.

(** [new Date()] *)
Definition new_Date : M Z := fun w =>
  (Done (clock env (clock_reads w)), advanced 0 0 1 w).

(** [Math.random()] *)
Definition Math_random : M dyadic := fun w =>
  (Done (random env (random_draws w)), advanced 0 1 0 w).

(** The outcome of one RSA key generation. *)
Definition rsa_generateKeyPair : M (exn + KeyPair) := fun w =>
  (Done (keygen env (keygens w)), advanced 1 0 0 w).

(** [mkdirp.sync(dir)]: throws when the directory cannot be made. *)
Definition mkdirp_sync (dir : string) : M unit := fun w =>
  match mkdir_error env dir with
  | Some e => (Threw e, w)
  | None => (Done tt, with_dirs (union {[dir]}) w)
  end.

(** [fs.readFile(path, "utf-8", cb)]: what [cb] receives. *)
Definition readFile (path : string) : M (exn + string) := fun w =>
  (Done match files w !! path with
        | Some data =>
            match read_error env path with
            | Some e => inl e
            | None => inr data
            end
        | None =>
            if bool_decide (path ∈ dirs w)
            then inl (SystemError "EISDIR" path)
            else inl (SystemError "ENOENT" path)
        end, w).

(** [fs.writeFile(path, data, cb)]: the error [cb] receives, if any.  The
    file is opened for writing, which creates it or empties it, and the data
    is written from its start.  A write that fails on opening leaves the
    path as it was ([cut_at] is [None]); one that fails later leaves the
    file with the first [n] characters of the data ([cut_at] is [Some n]).
    The paths written are taken to be acceptable arguments; a path that Node
    refuses as an argument, one with a NUL character, is not modelled. *)
Definition writeFile (path data : string) : M (option exn) := fun w =>
  match write_error env path with
  | Some e =>
      match cut_at env path with
      | Some n => (Done (Some e), with_files (insert path (substring 0 n data)) w)
      | None => (Done (Some e), w)
      end
  | None => (Done None, with_files (insert path data) w)
  end.

(** [Array.from({ length: n }, f)] *)
Fixpoint Array_from {A : Type} (n : nat) (f : M A) : M (list A) :=
  match n with
  | O => mret []
  | S n' => x ← f; xs ← Array_from n' f; mret (x :: xs)
  end.

(** [cert.sign(key, md)]: the digest is recorded and the signature is taken
    over the certificate as it stands. *)
Definition to_be_signed (digest : MessageDigest) (c : Certificate) : Certificate :=
  {| cert_publicKey := cert_publicKey c; serialNumber := serialNumber c;
     notBefore := notBefore c; notAfter := notAfter c;
     subject := subject c; issuer := issuer c; extensions := extensions c;
     md := Some digest; signature := None |}.

Definition Certificate_sign (c : Certificate) (key : PrivateKey)
    (digest : MessageDigest) : Certificate :=
  {| cert_publicKey := cert_publicKey c; serialNumber := serialNumber c;
     notBefore := notBefore c; notAfter := notAfter c;
     subject := subject c; issuer := issuer c; extensions := extensions c;
     md := Some digest;
     signature := Some (rsa_sign key digest (to_be_signed digest c)) |}.

(** Whether the signature of [child] is one of [key] over the rest of
    [child]. *)
Definition signature_verifies (key : PublicKey) (child : Certificate) : bool :=
  match md child, signature child with
  | Some digest, Some sig => rsa_verify key digest (to_be_signed digest child) sig
  | _, _ => false
  end.

(** ** The class *)

Record CA : Type := {
  baseCAFolder : string;
  certsFolder : string;
  keysFolder : string;
  CAcert : option Certificate;
  CAkeys : option KeyPair
}.

Definition with_root (this : CA) (cert : Certificate) (keys : KeyPair) : CA :=
  {| baseCAFolder := baseCAFolder this; certsFolder := certsFolder this;
     keysFolder := keysFolder this; CAcert := Some cert; CAkeys := Some keys |}.

(** [randomSerialNumber()] *)
Definition randomSerialNumber : M string :=
  blocks ← Array_from 4
    (r ← Math_random; mret (Hex.hex_block (floor_scaled r)));
  mret (JsString.join blocks).

(** [getPem()] *)
Definition getPem (this : CA) : M string :=
  cert ← deref "null" (CAcert this);
  mret (certificateToPem cert).

(** [getCACertPath()] *)
Definition getCACertPath (this : CA) : string :=
  path_join (certsFolder this) "ca.pem".

(** [generateCA(callback)]: the error [callback] receives and the object
    afterwards. *)
Definition generateCA (this : CA) : M (option exn * CA) :=
  generated ← rsa_generateKeyPair;
  match generated with
  | inl err => mret (Some err, this)
  | inr keys =>
      serial ← randomSerialNumber;
      now1 ← new_Date;
      let notBefore_ :=
        JsDate.setDate (LocalTZA env) now1 (JsDate.getDate (LocalTZA env) now1 - 1) in
      now2 ← new_Date;
      let notAfter_ :=
        JsDate.setFullYear (LocalTZA env) now2
          (JsDate.getFullYear (LocalTZA env) notBefore_ + 1) in
      let cert :=
        Certificate_sign
          {| cert_publicKey := publicKey keys; serialNumber := serial;
             notBefore := notBefore_; notAfter := notAfter_;
             subject := CA_ATTRIBUTES; issuer := CA_ATTRIBUTES;
             extensions := CA_EXTENSIONS; md := None; signature := None |}
          (privateKey keys) sha256 in
      let this' := with_root this cert keys in
      e1 ← writeFile (path_join (certsFolder this') "ca.pem")
             (certificateToPem cert);
      e2 ← writeFile (path_join (keysFolder this') "ca.private.key")
             (privateKeyToPem (privateKey keys));
      e3 ← writeFile (path_join (keysFolder this') "ca.public.key")
             (publicKeyToPem (publicKey keys));
      mret (async_first_error (completion env) [e1; e2; e3], this')
  end.

(** [loadCA(callback)]: the error [callback] receives and the object
    afterwards.  The decoders run inside the callback of [async.auto]; what
    they throw is caught by nobody, [callback] is then never called and the
    computation ends in [Threw]. *)
Definition loadCA (this : CA) : M (option exn * CA) :=
  certPEM ← readFile (path_join (certsFolder this) "ca.pem");
  keyPrivatePEM ← readFile (path_join (keysFolder this) "ca.private.key");
  keyPublicPEM ← readFile (path_join (keysFolder this) "ca.public.key");
  match certPEM, keyPrivatePEM, keyPublicPEM with
  | inr certText, inr privateText, inr publicText =>
      cert ← decoded (certificateFromPem certText);
      priv ← decoded (privateKeyFromPem privateText);
      pub ← decoded (publicKeyFromPem publicText);
      mret (None, with_root this cert {| privateKey := priv; publicKey := pub |})
  | _, _, _ =>
      mret (async_first_error (completion env)
              [error_of certPEM; error_of keyPrivatePEM; error_of keyPublicPEM],
            this)
  end.

(** [create(caFolder, callback)]: the pair [callback] receives. *)
Definition create (caFolder : string) : M (option exn * CA) :=
  let ca :=
    {| baseCAFolder := caFolder;
       certsFolder := path_join caFolder "certs";
       keysFolder := path_join caFolder "keys";
       CAcert := None; CAkeys := None |} in
  mkdirp_sync (baseCAFolder ca);;
  mkdirp_sync (certsFolder ca);;
  mkdirp_sync (keysFolder ca);;
  present ← existsSync (path_join (certsFolder ca) "ca.pem");
  match present with
  | true => loadCA ca
  | false => generateCA ca
  end.

(** [Array.isArray(hosts) ? hosts[0] : hosts] *)
Definition mainHost_of (hosts : Hosts) : option string :=
  match hosts with
  | HostArray l => head l
  | HostString s => Some s
  end.

(** The first half of [generateServerCertificateKeys], up to
    [certServer.sign]: the signed certificate object and the key pair made
    for it.  [setSubject] throws when the common name is [undefined], the
    first element of an empty array.  [setIssuer] is handed the attributes
    of a certificate object, which all have a value. *)
Definition signServerCertificate (this : CA) (hosts : Hosts)
  : M (Certificate * KeyPair) :=
  let mainHost := mainHost_of hosts in
  generated ← rsa_generateKeyPair;
  keysServer ← decoded generated;
  serial ← randomSerialNumber;
  now1 ← new_Date;
  let notBefore_ :=
    JsDate.setDate (LocalTZA env) now1 (JsDate.getDate (LocalTZA env) now1 - 1) in
  now2 ← new_Date;
  let notAfter_ :=
    JsDate.setFullYear (LocalTZA env) now2
      (JsDate.getFullYear (LocalTZA env) notBefore_ + 1) in
  let attrsServer :=
    {| attr_key := Name "commonName"; attr_value := mainHost |}
      :: SERVER_ATTRIBUTES in
  rejected (attributes_error attrsServer);;
  root ← deref "null (reading 'issuer')" (CAcert this);
  altNames_ ←
    match hosts with
    | HostArray l => mret (map altName_of_host l)
    | HostString _ => throw (TypeError "hosts.map is not a function")
    end;
  rejected (altNames_error altNames_);;
  rootKeys ← deref "null (reading 'privateKey')" (CAkeys this);
  mret
    (Certificate_sign
       {| cert_publicKey := publicKey keysServer; serialNumber := serial;
          notBefore := notBefore_; notAfter := notAfter_;
          subject := attrsServer; issuer := issuer root;
          extensions := SERVER_EXTENSIONS ++ [subjectAltName altNames_];
          md := None; signature := None |}
       (privateKey rootKeys) sha256,
     keysServer).

(** The callback of a leaf write: [if (err) console.error(msg, err)]. *)
Definition report (msg : string) (err : option exn) : M unit :=
  match err with
  | Some e => console_error msg e
  | None => mret tt
  end.

(** The three calls of [fs.writeFile] in [generateServerCertificateKeys]:
    the message of the callback, the path and the data of each. *)
Definition leaf_writes (this : CA) (certFileName certPem keyPrivatePem
    keyPublicPem : string) : list (string * string * string) :=
  [ ("Failed to save certificate to disk in " +:+ certsFolder this,
     certsFolder this +:+ "/" +:+ certFileName +:+ ".pem", certPem);
    ("Failed to save private key to disk in " +:+ keysFolder this,
     keysFolder this +:+ "/" +:+ certFileName +:+ ".key", keyPrivatePem);
    ("Failed to save public key to disk in " +:+ keysFolder this,
     keysFolder this +:+ "/" +:+ certFileName +:+ ".public.key", keyPublicPem) ].

(** One of these writes comes to its end and its callback runs. *)
Definition finish_write (job : string * string * string) : M unit :=
  e ← writeFile (snd (fst job)) (snd job);
  report (fst (fst job)) e.

(** [generateServerCertificateKeys(hosts, cb)] with the body of [cb] for
    [cb].  The three writes are started in the order of the source, then
    [cb] runs, and what it returns or throws is what the method returns or
    throws.  The writes come to their end after that, in the order of their
    completion; their effect on the files and the console is part of the
    final world. *)
Definition generateServerCertificateKeys_cb {B : Type} (this : CA) (hosts : Hosts)
    (cb : string -> string -> M B) : M B :=
  signed ← signServerCertificate this hosts;
  let certServer := fst signed in
  let keysServer := snd signed in
  let certPem := certificateToPem certServer in
  let keyPrivatePem := privateKeyToPem (privateKey keysServer) in
  let keyPublicPem := publicKeyToPem (publicKey keysServer) in
  host ← deref "undefined (reading 'replace')" (mainHost_of hosts);
  let certFileName := replace_stars host in
  afterwards (cb certPem keyPrivatePem)
    (each finish_write
       (in_completion_order (completion env)
          (leaf_writes this certFileName certPem keyPrivatePem keyPublicPem))).

(** [generateServerCertificateKeys(hosts, cb)]: the pair [cb] receives, for
    a [cb] that returns. *)
Definition generateServerCertificateKeys (this : CA) (hosts : Hosts)
  : M (string * string) :=
  generateServerCertificateKeys_cb this hosts
    (fun certPem keyPrivatePem => mret (certPem, keyPrivatePem)).

(** ** Notions used in the statements *)

(** The authority holds a root certificate and its keys. *)
Definition opened (this : CA) (root : Certificate) (rootKeys : KeyPair) : Prop :=
  CAcert this = Some root /\ CAkeys this = Some rootKeys.

(** The block made from the [k]-th random value and the serial number made
    from the four values from the [k]-th on. *)
Definition block_at (k : nat) : string :=
  Hex.hex_block (floor_scaled (random env k)).

Definition serial_at (k : nat) : string :=
  JsString.join
    [block_at k; block_at (S k); block_at (S (S k)); block_at (S (S (S k)))].

(** The files after an attempt to write [data] to [path]. *)
Definition stored (path data : string) (fs : gmap string string)
  : gmap string string :=
  match write_error env path with
  | Some _ =>
      match cut_at env path with
      | Some n => <[path := substring 0 n data]> fs
      | None => fs
      end
  | None => <[path := data]> fs
  end.

(** The line a failed write to [path] leaves on the console. *)
Definition complaint (msg path : string) : list (string * exn) :=
  match write_error env path with
  | Some e => [(msg, e)]
  | None => []
  end.

(** The world with a console line added for a failed write to [path]. *)
Definition logged (msg path : string) (w : World) : World :=
  with_console (fun lines => (lines ++ complaint msg path)%list) w.

(** The world after the write [job] has come to its end. *)
Definition after_write (w : World) (job : string * string * string) : World :=
  logged (fst (fst job)) (snd (fst job))
    (with_files (stored (snd (fst job)) (snd job)) w).

(** The lines the writes [jobs] leave on the console, first to last. *)
Definition complaints (jobs : list (string * string * string))
  : list (string * exn) :=
  flat_map (fun job => complaint (fst (fst job)) (snd (fst job))) jobs.

(** The world after the three writes of a leaf have come to their end. *)
Definition leaf_written (this : CA) (certFileName certPem keyPrivatePem
    keyPublicPem : string) (w : World) : World :=
  snd (each finish_write
         (in_completion_order (completion env)
            (leaf_writes this certFileName certPem keyPrivatePem keyPublicPem))
         w).

(** The object [create] starts from and the world after its three calls of
    [mkdirp.sync]. *)
Definition started (caFolder : string) : CA :=
  {| baseCAFolder := caFolder;
     certsFolder := path_join caFolder "certs";
     keysFolder := path_join caFolder "keys";
     CAcert := None; CAkeys := None |}.

Definition with_folders (caFolder : string) (w : World) : World :=
  with_dirs (union {[path_join caFolder "keys"]})
    (with_dirs (union {[path_join caFolder "certs"]})
       (with_dirs (union {[caFolder]}) w)).

(** The three files of the root store. *)
Definition ca_pem (caFolder : string) : string :=
  path_join (path_join caFolder "certs") "ca.pem".

Definition ca_private_key (caFolder : string) : string :=
  path_join (path_join caFolder "keys") "ca.private.key".

Definition ca_public_key (caFolder : string) : string :=
  path_join (path_join caFolder "keys") "ca.public.key".

(** The three calls of [mkdirp.sync] in [create] succeed. *)
Definition folders_made (caFolder : string) : Prop :=
  mkdir_error env caFolder = None
  /\ mkdir_error env (path_join caFolder "certs") = None
  /\ mkdir_error env (path_join caFolder "keys") = None.

(** The three files of the root store can be read when they are there. *)
Definition root_readable (caFolder : string) : Prop :=
  read_error env (ca_pem caFolder) = None
  /\ read_error env (ca_private_key caFolder) = None
  /\ read_error env (ca_public_key caFolder) = None.

(** What [fs.existsSync] answers in [create]. *)
Definition root_present (caFolder : string) (w : World) : bool :=
  bool_decide (is_Some (files w !! ca_pem caFolder))
  || bool_decide (ca_pem caFolder ∈ dirs (with_folders caFolder w)).

(** The three files of the cache entry named [fileName]. *)
Definition leaf_pem (this : CA) (fileName : string) : string :=
  certsFolder this +:+ "/" +:+ fileName +:+ ".pem".

Definition leaf_key (this : CA) (fileName : string) : string :=
  keysFolder this +:+ "/" +:+ fileName +:+ ".key".

Definition leaf_public_key (this : CA) (fileName : string) : string :=
  keysFolder this +:+ "/" +:+ fileName +:+ ".public.key".

(** [x] is [y] give or take [delta]. *)
Definition near (delta x y : Z) : Prop := (y - delta <= x <= y + delta)%Z.

(** The validity window as the code builds it from the two readings of the
    clock: back-dated by one day, and ending one calendar year after the
    second reading, each give or take what the offset of the zone has
    changed by. *)
Definition window_as_built (delta now1 now2 : Z) (c : Certificate) : Prop :=
  near delta (notBefore c) (now1 - JsDate.msPerDay)
  /\ (near delta (notAfter c) (now2 + 365 * JsDate.msPerDay)
      \/ near delta (notAfter c) (now2 + 366 * JsDate.msPerDay)).

(** The same on any day of the year: the window can also end at the second
    reading itself. *)
Definition window_on_any_day (delta now1 now2 : Z) (c : Certificate) : Prop :=
  near delta (notBefore c) (now1 - JsDate.msPerDay)
  /\ (near delta (notAfter c) now2
      \/ near delta (notAfter c) (now2 + 365 * JsDate.msPerDay)
      \/ near delta (notAfter c) (now2 + 366 * JsDate.msPerDay)).

(** The validity window as the specification words it, for a certificate
    issued at time [now]: back-dated by 23 to 25 hours and valid for 364 to
    366 days. *)
Definition window_as_specified (now : Z) (c : Certificate) : Prop :=
  (now - 25 * JsDate.msPerHour <= notBefore c <= now - 23 * JsDate.msPerHour)%Z
  /\ (notBefore c + 364 * JsDate.msPerDay <= notAfter c
      <= notBefore c + 366 * JsDate.msPerDay)%Z.

End Model.

(** ** A small instance on which the model runs

    Keys are strings, a signature pairs the signing key with the serial
    number signed, and the text of a certificate carries its serial number
    behind a tag: [CERT:] for a certificate named like the root of this
    class, [SUBCA:] for one issued to a branch by another authority. *)

Module Toy.

Definition keys : KeyMaterial :=
  {| PublicKey := string; PrivateKey := string; Signature := string * string |}.

Definition pem_error : exn := ForgeError "Invalid PEM formatted message.".

(** The rest of [s] behind [tag], when [s] starts with it. *)
Fixpoint behind (tag s : string) : option string :=
  match tag, s with
  | EmptyString, _ => Some s
  | String a tag', String b s' => if Ascii.eqb a b then behind tag' s' else None
  | String _ _, EmptyString => None
  end.

Definition branch_subject : list Attribute :=
  [ {| attr_key := Name "commonName"; attr_value := Some "Branch CA" |} ].

Definition head_office : list Attribute :=
  [ {| attr_key := Name "commonName"; attr_value := Some "Head Office CA" |} ].

Definition self_issued (serial : string) : @Certificate keys :=
  {| cert_publicKey := "n0" : @PublicKey keys; serialNumber := serial;
     notBefore := 0; notAfter := 0;
     subject := CA_ATTRIBUTES; issuer := CA_ATTRIBUTES;
     extensions := CA_EXTENSIONS; md := Some sha256;
     signature := Some ("d0", serial) |}.

Definition issued_to_branch (serial : string) : @Certificate keys :=
  {| cert_publicKey := "n0" : @PublicKey keys; serialNumber := serial;
     notBefore := 0; notAfter := 0;
     subject := branch_subject; issuer := head_office;
     extensions := CA_EXTENSIONS; md := Some sha256;
     signature := Some ("d9", serial) |}.

Definition cert_of_text (s : string) : exn + @Certificate keys :=
  match behind "CERT:" s, behind "SUBCA:" s with
  | Some serial, _ => inr (self_issued serial)
  | None, Some serial => inr (issued_to_branch serial)
  | None, None => inl pem_error
  end.

Definition key_of_text (tag s : string) : exn + string :=
  match behind tag s with
  | Some k => inr k
  | None => inl pem_error
  end.

(** Four numbers with three dots between them. *)
Fixpoint dots (s : string) : nat :=
  match s with
  | EmptyString => 0
  | String c r => (if Ascii.eqb c "." then 1 else 0) + dots r
  end.

Definition is_address (name : AltName) : bool :=
  match name with
  | IPAddress ip => Nat.eqb (dots ip) 3
  | DNSName _ => true
  end.

Definition forge : @Forge keys :=
  {| rsa_sign := fun (key : @PrivateKey keys) _ c => (key, serialNumber c);
     rsa_verify := fun (key : @PublicKey keys) _ c (sig : @Signature keys) =>
       String.eqb (fst sig) ("d" +:+ JsString.drop 1 key)
       && String.eqb (snd sig) (serialNumber c);
     certificateToPem := fun c => "CERT:" +:+ serialNumber c;
     certificateFromPem := cert_of_text;
     privateKeyToPem := fun (k : @PrivateKey keys) => "PRIVATE:" +:+ k;
     privateKeyFromPem := key_of_text "PRIVATE:";
     publicKeyToPem := fun (k : @PublicKey keys) => "PUBLIC:" +:+ k;
     publicKeyFromPem := key_of_text "PUBLIC:";
     altNames_error := fun names =>
       if forallb is_address names then None
       else Some (ForgeError "Extension ip value is not a valid IPv4 or IPv6 address.");
     path_join := fun a b => a +:+ "/" +:+ b |}.

(** Surroundings whose clock stands at [now]: the random values stay within
    [0, 1), every key generation yields the same pair, and [failures] tells
    which writes fail. *)
Definition surroundings (now : Z) (failures : string -> option exn) : @Env keys :=
  {| clock := fun _ => now;
     LocalTZA := JsDate.fixed_zone 0;
     random := fun k => dyadic_of_block ((N.of_nat k * 65536 + 255) mod 2 ^ 32);
     keygen := fun k =>
       inr {| privateKey := "d1" : @PrivateKey keys;
              publicKey := "n1" : @PublicKey keys |};
     mkdir_error := fun _ => None;
     read_error := fun _ => None;
     write_error := failures;
     cut_at := fun _ => None;
     completion := [0; 1; 2] |}.

(** Noon UTC on 1 June 2023; every write succeeds. *)
Definition env : @Env keys := surroundings 1685620800000 (fun _ => None).

(** Noon UTC on 1 January 2024. *)
Definition env_new_year : @Env keys := surroundings 1704110400000 (fun _ => None).

(** Every write is refused. *)
Definition env_read_only : @Env keys :=
  surroundings 1685620800000 (fun path => Some (SystemError "EACCES" path)).

Definition leaf_keys : @KeyPair keys :=
  {| privateKey := "d1" : @PrivateKey keys; publicKey := "n1" : @PublicKey keys |}.

Definition root_keys : @KeyPair keys :=
  {| privateKey := "d0" : @PrivateKey keys; publicKey := "n0" : @PublicKey keys |}.

Definition empty_world : World :=
  {| files := ∅; dirs := ∅; clock_reads := 0; random_draws := 0; keygens := 0;
     console := [] |}.

(** A root store below [/ca] whose certificate file holds [certText]. *)
Definition store (certText : string) : World :=
  {| files :=
       <["/ca/certs/ca.pem" := certText]>
         (<["/ca/keys/ca.private.key" := "PRIVATE:d0"]>
            {["/ca/keys/ca.public.key" := "PUBLIC:n0"]});
     dirs := ∅; clock_reads := 0; random_draws := 0; keygens := 0;
     console := [] |}.

(** A store as [generateCA] leaves it, one whose certificate was issued to a
    branch by another authority, and one whose certificate file was cut. *)
Definition sound_store : World := store "CERT:01".
Definition branch_store : World := store "SUBCA:07".
Definition corrupt_store : World := store "-----BEGIN CERTIFICATE-----".

(** The authority [create] returns on [sound_store]. *)
Definition authority : @CA keys :=
  {| baseCAFolder := "/ca"; certsFolder := "/ca/certs"; keysFolder := "/ca/keys";
     CAcert := Some (self_issued "01"); CAkeys := Some root_keys |}.

End Toy.

(** ** The constructor, and further scenes for the small instance *)

(** [new CA()] *)
Definition new_CA {KM : KeyMaterial} : CA :=
  {| baseCAFolder := EmptyString; certsFolder := EmptyString;
     keysFolder := EmptyString; CAcert := None; CAkeys := None |}.

(** No character of the name is a star. *)
Definition star_free (host : string) : Prop :=
  forall i, String.get i host <> Some "*"%char.

(** No character of the name is a path separator: the name spells one entry
    of a directory. *)
Definition separator_free (name : string) : Prop :=
  forall i, String.get i name <> Some "/"%char.

Module Scenes.

(** [Toy.env] with other failures of the key generator and the file
    system. *)
Definition scene (generated : exn + @KeyPair Toy.keys)
    (mkdirs writes : string -> option exn) (cuts : string -> option nat)
  : @Env Toy.keys :=
  {| clock := clock Toy.env;
     LocalTZA := LocalTZA Toy.env;
     random := random Toy.env;
     keygen := fun _ => generated;
     mkdir_error := mkdirs;
     read_error := fun _ => None;
     write_error := writes;
     cut_at := cuts;
     completion := completion Toy.env |}.

(** The key generator fails. *)
Definition without_entropy : @Env Toy.keys :=
  scene (inl (ForgeError "PRNG not seeded")) (fun _ => None) (fun _ => None)
    (fun _ => None).

(** No directory can be made. *)
Definition without_folders : @Env Toy.keys :=
  scene (inr Toy.leaf_keys) (fun dir => Some (SystemError "EACCES" dir))
    (fun _ => None) (fun _ => None).

(** [writes] fails every write but that of the root certificate; the disk
    is full, and the files it opens stay empty. *)
Definition disk_full (path : string) : option exn :=
  if String.eqb path "/ca/certs/ca.pem" then None
  else Some (SystemError "ENOSPC" path).

Definition certificate_only : @Env Toy.keys :=
  scene (inr Toy.leaf_keys) (fun _ => None) disk_full (fun _ => Some 0).

(** The same where the other files cannot even be opened. *)
Definition certificate_only_opens : @Env Toy.keys :=
  scene (inr Toy.leaf_keys) (fun _ => None) disk_full (fun _ => None).

(** Every write of a leaf fails, the last one first. *)
Definition last_first : @Env Toy.keys :=
  {| clock := clock Toy.env;
     LocalTZA := LocalTZA Toy.env;
     random := random Toy.env;
     keygen := keygen Toy.env;
     mkdir_error := fun _ => None;
     read_error := fun _ => None;
     write_error := fun path => Some (SystemError "EACCES" path);
     cut_at := fun _ => None;
     completion := [2; 0] |}.

(** Noon UTC on 26 March 2023 in a zone that went from one hour ahead of
    UTC to two at one o'clock UTC that morning. *)
Definition clocks_gone_forward : @Env Toy.keys :=
  {| clock := fun _ => 1679832000000%Z;
     LocalTZA := JsDate.zone_with_change 1679792400000 3600000 7200000;
     random := random Toy.env;
     keygen := keygen Toy.env;
     mkdir_error := fun _ => None;
     read_error := fun _ => None;
     write_error := fun _ => None;
     cut_at := fun _ => None;
     completion := completion Toy.env |}.

(** A store whose private key file is missing. *)
Definition store_without_key : World :=
  {| files :=
       <["/ca/certs/ca.pem" := "CERT:01"]>
         {["/ca/keys/ca.public.key" := "PUBLIC:n0"]};
     dirs := ∅; clock_reads := 0; random_draws := 0; keygens := 0;
     console := [] |}.

End Scenes.

(** * Properties *)

(** ** Strings *)

Module JsStringFacts.

Import JsString.

Lemma length_append (a b : string) :
  String.length (a +:+ b) = String.length a + String.length b.
Proof. induction a as [|c a IH]; simpl; [reflexivity | now rewrite IH]. Qed.

Lemma length_drop (n : nat) (s : string) :
  String.length (drop n s) = String.length s - n.
Proof.
  revert s; induction n as [|n IH]; intros s; simpl.
  - lia.
  - destruct s as [|c r]; simpl; [reflexivity | apply IH].
Qed.

Lemma length_slice_last (k : nat) (s : string) :
  k <= String.length s -> String.length (slice_last k s) = k.
Proof. intros Hk. unfold slice_last. rewrite length_drop. lia. Qed.

Lemma length_map_chars (f : ascii -> ascii) (s : string) :
  String.length (map_chars f s) = String.length s.
Proof. induction s as [|c r IH]; simpl; congruence. Qed.



Lemma drop_append_exact (a b : string) :
  drop (String.length a) (a +:+ b) = b.
Proof. induction a as [|c a IH]; simpl; [reflexivity | exact IH]. Qed.

Lemma all_chars_forall (p : ascii -> bool) (s : string) :
  all_chars p s = true <->
  (forall i c, String.get i s = Some c -> p c = true).
Proof.
  induction s as [|a r IH]; simpl.
  - split; [intros _ i c H; destruct i; discriminate | reflexivity].
  - rewrite andb_true_iff, IH. split.
    + intros [Ha Hr] [|i] c H; simpl in H.
      * now inversion H; subst.
      * eauto.
    + intros H. split.
      * apply (H 0 a). reflexivity.
      * intros i c Hi. apply (H (S i) c). exact Hi.
Qed.

Lemma get_map_chars (f : ascii -> ascii) (s : string) (i : nat) :
  String.get i (map_chars f s) = option_map f (String.get i s).
Proof.
  revert i; induction s as [|a r IH]; intros [|i]; simpl; auto.
Qed.




End JsStringFacts.

Module JsStringMore.

Import JsString.

Lemma append_assoc (a b c : string) : (a +:+ b) +:+ c = a +:+ (b +:+ c).
Proof.
  induction a as [|x a IH]; [reflexivity |].
  change (String x ((a +:+ b) +:+ c) = String x (a +:+ (b +:+ c))).
  now rewrite IH.
Qed.

(** The last characters of a string that ends in [s] are [s]. *)
Lemma slice_last_append (a s : string) :
  slice_last (String.length s) (a +:+ s) = s.
Proof.
  unfold slice_last. rewrite JsStringFacts.length_append.
  replace (String.length a + String.length s - String.length s)
    with (String.length a) by lia.
  apply JsStringFacts.drop_append_exact.
Qed.

Lemma append_inj_prefix (a b c : string) : a +:+ b = a +:+ c -> b = c.
Proof.
  induction a as [|x a IH]; [tauto |].
  change (String x (a +:+ b) = String x (a +:+ c) -> b = c).
  intros [= H]. now apply IH.
Qed.

(** Strings made of two parts are equal part by part when the first parts
    have the same length. *)
Lemma append_inj_length (a a' b b' : string) :
  String.length a = String.length a' ->
  a +:+ b = a' +:+ b' -> a = a' /\ b = b'.
Proof.
  revert a'; induction a as [|x a IH]; intros [|x' a'] Hlen; try discriminate.
  - simpl. tauto.
  - change (String x (a +:+ b) = String x' (a' +:+ b') ->
            String x a = String x' a' /\ b = b').
    intros [= -> H]. simpl in Hlen.
    destruct (IH a' ltac:(lia) H) as [-> ->]. tauto.
Qed.

Lemma append_inj_suffix (a b s : string) : a +:+ s = b +:+ s -> a = b.
Proof.
  intros E. apply (append_inj_length a b s s); [| exact E].
  apply (f_equal String.length) in E.
  rewrite !JsStringFacts.length_append in E. lia.
Qed.

End JsStringMore.

(** ** Hexadecimal blocks *)

Module HexFacts.

Import Hex.
Local Open Scope N_scope.

Lemma below_16_cases (d : N) :
  d < 16 ->
  d = 0 \/ d = 1 \/ d = 2 \/ d = 3 \/ d = 4 \/ d = 5 \/ d = 6 \/ d = 7 \/
  d = 8 \/ d = 9 \/ d = 10 \/ d = 11 \/ d = 12 \/ d = 13 \/ d = 14 \/ d = 15.
Proof. lia. Qed.


Lemma digit_value_hex_digit (d : N) : d < 16 -> digit_value (hex_digit d) = d.
Proof.
  intros H. apply below_16_cases in H.
  repeat (destruct H as [-> | H]; [reflexivity |]). now subst.
Qed.


Lemma to_hex_aux_length (fuel : nat) (n : N) (acc : string) (k : nat) :
  n < 16 ^ N.of_nat k -> (1 <= k)%nat ->
  (String.length (to_hex_aux fuel n acc) <= k + String.length acc)%nat.
Proof.
  revert n acc k; induction fuel as [|fuel IH]; intros n acc k Hn Hk; simpl; [lia |].
  destruct (N.eqb_spec (n / 16) 0) as [Hq | Hq]; simpl; [lia |].
  destruct k as [|[|k]]; [lia | |].
  - exfalso. apply Hq. apply N.div_small. exact Hn.
  - specialize (IH (n / 16) (String (hex_digit (n mod 16)) acc) (S k)).
    simpl in IH. assert (n / 16 < 16 ^ N.of_nat (S k)); [| lia].
    apply N.Div0.div_lt_upper_bound.
    replace (N.of_nat (S (S k))) with (N.succ (N.of_nat (S k))) in Hn by lia.
    rewrite N.pow_succ_r' in Hn. exact Hn.
Qed.

Lemma to_hex_aux_value (fuel : nat) (n : N) (acc : string) :
  n < 16 ^ N.of_nat fuel ->
  hex_value_from 0 (to_hex_aux fuel n acc) = hex_value_from n acc.
Proof.
  revert n acc; induction fuel as [|fuel IH]; intros n acc Hn.
  - simpl in *. now replace n with 0 by lia.
  - cbn [to_hex_aux].
    assert (Hm : n mod 16 < 16) by (apply N.mod_lt; discriminate).
    pose proof (N.div_mod n 16 ltac:(discriminate)) as Hdm.
    destruct (N.eqb_spec (n / 16) 0) as [Hq | Hq].
    + cbn [hex_value_from]. rewrite digit_value_hex_digit by exact Hm.
      f_equal. lia.
    + rewrite IH.
      * cbn [hex_value_from]. rewrite digit_value_hex_digit by exact Hm.
        f_equal. lia.
      * apply N.Div0.div_lt_upper_bound.
        replace (N.of_nat (S fuel)) with (N.succ (N.of_nat fuel)) in Hn by lia.
        rewrite N.pow_succ_r' in Hn. exact Hn.
Qed.

Lemma enough_fuel (n : N) : n < 16 ^ N.of_nat (S (N.to_nat (N.log2 n))).
Proof.
  replace (N.of_nat (S (N.to_nat (N.log2 n)))) with (N.succ (N.log2 n)) by lia.
  destruct (N.eq_dec n 0) as [-> | Hn]; [reflexivity |].
  apply N.lt_le_trans with (2 ^ N.succ (N.log2 n)).
  - apply N.log2_spec. lia.
  - apply N.pow_le_mono_l. lia.
Qed.

(** [toString(16)] writes the number it is given. *)
Lemma toString16_value (n : N) : hex_value (toString16 n) = n.
Proof.
  unfold hex_value, toString16. rewrite to_hex_aux_value by apply enough_fuel.
  reflexivity.
Qed.


Lemma toString16_length (n : N) :
  n < 256 ^ 4 -> (String.length (toString16 n) <= 8)%nat.
Proof.
  intros Hn. unfold toString16.
  pose proof (to_hex_aux_length (S (N.to_nat (N.log2 n))) n EmptyString 8) as H.
  simpl String.length in H. rewrite Nat.add_0_r in H. apply H; [exact Hn | lia].
Qed.

(** A block has eight characters whatever number it is made from. *)
Lemma hex_block_length (n : N) : String.length (hex_block n) = 8%nat.
Proof.
  unfold hex_block. apply JsStringFacts.length_slice_last.
  rewrite JsStringFacts.length_append. simpl. lia.
Qed.


Lemma hex_value_padding (k : nat) (s : string) :
  (k <= 8)%nat ->
  hex_value (JsString.drop k ("00000000" +:+ s)) = hex_value s.
Proof.
  intros Hk. unfold hex_value.
  do 9 (destruct k as [|k]; [reflexivity |]). lia.
Qed.

(** Below [256 ** 4] a block denotes the number it is made from: the
    padding only adds leading zeros and the slice cuts none of the digits. *)
Lemma hex_block_value (n : N) : n < 256 ^ 4 -> hex_value (hex_block n) = n.
Proof.
  intros Hn. unfold hex_block, JsString.slice_last.
  rewrite JsStringFacts.length_append.
  pose proof (toString16_length n Hn) as Hlen.
  replace (String.length "00000000" + String.length (toString16 n) - 8)%nat
    with (String.length (toString16 n)) by (simpl; lia).
  rewrite hex_value_padding by exact Hlen. apply toString16_value.
Qed.

Lemma hex_block_injective (n m : N) :
  n < 256 ^ 4 -> m < 256 ^ 4 -> hex_block n = hex_block m -> n = m.
Proof.
  intros Hn Hm E. rewrite <- (hex_block_value n Hn), <- (hex_block_value m Hm).
  now rewrite E.
Qed.

End HexFacts.

Lemma floor_scaled_bound (r : dyadic) :
  in_unit_interval r -> (floor_scaled r < 256 ^ 4)%N.
Proof.
  unfold in_unit_interval, floor_scaled. intros H.
  apply N.Div0.div_lt_upper_bound.
  apply N.mul_lt_mono_pos_r; [reflexivity | exact H].
Qed.


(** ** Calendar arithmetic *)

Module JsDateFacts.

Import JsDate.
Local Open Scope Z_scope.

Lemma DayFromYear_from_1601 (y : Z) :
  DayFromYear y + 134774 =
  365 * (y - 1601) + (y - 1601) / 4 - (y - 1601) / 100 + (y - 1601) / 400.
Proof. unfold DayFromYear. Z.div_mod_to_equations; lia. Qed.

(** Days before the year that comes [a] 400-year, [b] 100-year, [c] 4-year
    cycles and [e] years after 1601. *)
Lemma days_of_cycles (a b c e : Z) :
  0 <= b <= 3 -> 0 <= c <= 24 -> 0 <= e <= 3 ->
  365 * (400 * a + 100 * b + 4 * c + e)
  + (400 * a + 100 * b + 4 * c + e) / 4
  - (400 * a + 100 * b + 4 * c + e) / 100
  + (400 * a + 100 * b + 4 * c + e) / 400
  = 146097 * a + 36524 * b + 1461 * c + 365 * e.
Proof. intros Hb Hc He. Z.div_mod_to_equations; lia. Qed.

(** [YearFromTime] is the year the day of [t] lies in. *)
Lemma YearFromTime_spec (t : Z) :
  DayFromYear (YearFromTime t) <= Day t < DayFromYear (YearFromTime t + 1).
Proof.
  unfold YearFromTime.
  set (n := Day t + 134774).
  assert (Hn : Day t = n - 134774) by (subst n; lia).
  rewrite Hn. clearbody n. clear Hn.
  set (n400 := n / 146097). set (r400 := n mod 146097).
  set (n100 := Z.min (r400 / 36524) 3).
  set (r100 := r400 - n100 * 36524).
  set (n4 := r100 / 1461). set (r4 := r100 mod 1461).
  set (n1 := Z.min (r4 / 365) 3).
  assert (H400 : n = 146097 * n400 + r400 /\ 0 <= r400 < 146097)
    by (subst n400 r400; Z.div_mod_to_equations; lia).
  assert (H100 : r400 = 36524 * n100 + r100 /\ 0 <= n100 <= 3 /\ 0 <= r100 /\
                 (r100 < 36524 \/ (n100 = 3 /\ r100 <= 36524)))
    by (subst n100 r100; Z.div_mod_to_equations; lia).
  assert (H4 : r100 = 1461 * n4 + r4 /\ 0 <= r4 < 1461 /\ 0 <= n4 <= 24)
    by (subst n4 r4; Z.div_mod_to_equations; lia).
  assert (H1 : 0 <= n1 <= 3 /\ 365 * n1 <= r4 /\
               (r4 < 365 * n1 + 365 \/ (n1 = 3 /\ r4 <= 1460)))
    by (subst n1; Z.div_mod_to_equations; lia).
  clearbody n400 r400 n100 r100 n4 r4 n1.
  assert (HD : forall y, DayFromYear y =
             365 * (y - 1601) + (y - 1601) / 4 - (y - 1601) / 100
             + (y - 1601) / 400 - 134774)
    by (intros y; pose proof (DayFromYear_from_1601 y); lia).
  rewrite !HD.
  replace (1601 + 400 * n400 + 100 * n100 + 4 * n4 + n1 - 1601)
    with (400 * n400 + 100 * n100 + 4 * n4 + n1) by lia.
  rewrite (days_of_cycles n400 n100 n4 n1) by lia.
  split; [lia |].
  destruct (Z_lt_dec n1 3) as [He | He].
  { replace (1601 + 400 * n400 + 100 * n100 + 4 * n4 + n1 + 1 - 1601)
      with (400 * n400 + 100 * n100 + 4 * n4 + (n1 + 1)) by lia.
    rewrite (days_of_cycles n400 n100 n4 (n1 + 1)) by lia. lia. }
  destruct (Z_lt_dec n4 24) as [Hc | Hc].
  { replace (1601 + 400 * n400 + 100 * n100 + 4 * n4 + n1 + 1 - 1601)
      with (400 * n400 + 100 * n100 + 4 * (n4 + 1) + 0) by lia.
    rewrite (days_of_cycles n400 n100 (n4 + 1) 0) by lia. lia. }
  destruct (Z_lt_dec n100 3) as [Hb | Hb].
  { replace (1601 + 400 * n400 + 100 * n100 + 4 * n4 + n1 + 1 - 1601)
      with (400 * n400 + 100 * (n100 + 1) + 4 * 0 + 0) by lia.
    rewrite (days_of_cycles n400 (n100 + 1) 0 0) by lia. lia. }
  replace (1601 + 400 * n400 + 100 * n100 + 4 * n4 + n1 + 1 - 1601)
    with (400 * (n400 + 1) + 100 * 0 + 4 * 0 + 0) by lia.
  rewrite (days_of_cycles (n400 + 1) 0 0 0) by lia. lia.
Qed.

Lemma DaysInYear_step (y : Z) :
  DayFromYear (y + 1) - DayFromYear y = DaysInYear y.
Proof.
  unfold DayFromYear, DaysInYear.
  destruct (Z.eqb_spec (y mod 4) 0) as [H4 | H4];
  destruct (Z.eqb_spec (y mod 100) 0) as [H100 | H100];
  destruct (Z.eqb_spec (y mod 400) 0) as [H400 | H400]; simpl;
  Z.div_mod_to_equations; lia.
Qed.

Lemma leap_of_year_cases (y : Z) :
  (leap_of_year y = 0 /\ DaysInYear y = 365) \/
  (leap_of_year y = 1 /\ DaysInYear y = 366).
Proof.
  unfold leap_of_year, DaysInYear.
  destruct (negb (y mod 4 =? 0)), (negb (y mod 100 =? 0)),
    (negb (y mod 400 =? 0)); simpl; auto.
Qed.

Lemma DayWithinYear_range (t : Z) :
  0 <= DayWithinYear t < DaysInYear (YearFromTime t).
Proof.
  unfold DayWithinYear. pose proof (YearFromTime_spec t).
  pose proof (DaysInYear_step (YearFromTime t)). lia.
Qed.

Lemma MonthFromTime_range (t : Z) : 0 <= MonthFromTime t <= 11.
Proof.
  unfold MonthFromTime.
  repeat match goal with
         | |- context [if ?b then _ else _] => destruct b
         end; lia.
Qed.

Lemma month_cases (m : Z) :
  0 <= m <= 11 ->
  m = 0 \/ m = 1 \/ m = 2 \/ m = 3 \/ m = 4 \/ m = 5 \/ m = 6 \/ m = 7 \/
  m = 8 \/ m = 9 \/ m = 10 \/ m = 11.
Proof. lia. Qed.

Lemma MakeDay_in_year (y m d : Z) :
  0 <= m <= 11 ->
  MakeDay y m d = DayFromYear y + month_start m (leap_of_year y) + d - 1.
Proof.
  intros Hm. unfold MakeDay.
  rewrite Z.div_small, Z.mod_small, Z.add_0_r by lia. reflexivity.
Qed.

(** Year, month and day of the month of [t] name the day of [t]; a day of
    the month that is off by [k] names the day [k] days later. *)
Lemma MakeDay_of_fields (t k : Z) :
  MakeDay (YearFromTime t) (MonthFromTime t) (DateFromTime t + k) = Day t + k.
Proof.
  rewrite MakeDay_in_year by apply MonthFromTime_range.
  unfold DateFromTime, DayWithinYear, InLeapYear. lia.
Qed.

Lemma MakeDate_of_day (t k : Z) :
  MakeDate (Day t + k) (TimeWithinDay t) = t + k * msPerDay.
Proof.
  unfold MakeDate, Day, TimeWithinDay.
  pose proof (Z.div_mod t msPerDay ltac:(discriminate)). lia.
Qed.

(** [d.setDate(d.getDate() - 1)] moves the local time of [d] back by
    exactly one day. *)
Lemma setDate_previous_day (tza : Zone) (t : Z) :
  setDate tza t (getDate tza t - 1) = UTC tza (LocalTime tza t - msPerDay).
Proof.
  unfold setDate, getDate.
  replace (DateFromTime (LocalTime tza t) - 1)
    with (DateFromTime (LocalTime tza t) + -1) by lia.
  rewrite MakeDay_of_fields, MakeDate_of_day. f_equal; lia.
Qed.

Lemma month_start_shift (m l l' : Z) :
  0 <= m <= 11 ->
  month_start m l' - month_start m l = if m <? 2 then 0 else l' - l.
Proof.
  intros Hm. apply month_cases in Hm.
  repeat (destruct Hm as [-> | Hm]; [simpl; lia |]). subst. simpl. lia.
Qed.

(** Setting the year of [d] to the year after its own moves the local time
    of [d] forward by one calendar year: 365 days, or 366 when a 29 February
    lies between. *)
Lemma setFullYear_next_year (tza : Zone) (t : Z) :
  let y := getFullYear tza t in
  let days :=
    365 + (if getMonth tza t <? 2 then leap_of_year y else leap_of_year (y + 1)) in
  setFullYear tza t (y + 1) = UTC tza (LocalTime tza t + days * msPerDay).
Proof.
  unfold getFullYear, getMonth, setFullYear.
  set (lt := LocalTime tza t). cbv zeta.
  pose proof (MonthFromTime_range lt) as Hm.
  rewrite MakeDay_in_year by exact Hm.
  pose proof (month_start_shift (MonthFromTime lt)
                (leap_of_year (YearFromTime lt))
                (leap_of_year (YearFromTime lt + 1)) Hm) as Hs.
  pose proof (DaysInYear_step (YearFromTime lt)) as Hy.
  pose proof (leap_of_year_cases (YearFromTime lt)) as Hl.
  set (days := 365 + (if MonthFromTime lt <? 2
                      then leap_of_year (YearFromTime lt)
                      else leap_of_year (YearFromTime lt + 1))).
  assert (E : DayFromYear (YearFromTime lt + 1)
              + month_start (MonthFromTime lt) (leap_of_year (YearFromTime lt + 1))
              + DateFromTime lt - 1 = Day lt + days).
  { unfold DateFromTime, DayWithinYear, InLeapYear. subst days.
    destruct (MonthFromTime lt <? 2); lia. }
  rewrite E, MakeDate_of_day. reflexivity.
Qed.

Lemma setFullYear_next_year_bounds (tza : Zone) (t : Z) :
  setFullYear tza t (getFullYear tza t + 1)
  = UTC tza (LocalTime tza t + 365 * msPerDay) \/
  setFullYear tza t (getFullYear tza t + 1)
  = UTC tza (LocalTime tza t + 366 * msPerDay).
Proof.
  pose proof (setFullYear_next_year tza t) as H. cbv zeta in H. rewrite H.
  destruct (leap_of_year_cases (getFullYear tza t)) as [[-> _] | [-> _]],
    (leap_of_year_cases (getFullYear tza t + 1)) as [[-> _] | [-> _]],
    (getMonth tza t <? 2); auto.
Qed.

(** Setting the year of [d] to its own year leaves the local time of [d]
    where it is. *)
Lemma setFullYear_same_year (tza : Zone) (t : Z) :
  setFullYear tza t (getFullYear tza t) = UTC tza (LocalTime tza t).
Proof.
  unfold setFullYear, getFullYear.
  replace (DateFromTime (LocalTime tza t))
    with (DateFromTime (LocalTime tza t) + 0) by lia.
  rewrite MakeDay_of_fields, MakeDate_of_day. f_equal; lia.
Qed.

(** Years do not go back as time goes on, and go on by one at most within
    365 days. *)
Lemma DayFromYear_increasing (a b : Z) : a < b -> DayFromYear a < DayFromYear b.
Proof. unfold DayFromYear. intros H. Z.div_mod_to_equations; lia. Qed.

Lemma Day_le (t t' : Z) : t <= t' -> Day t <= Day t'.
Proof. intros H. unfold Day, msPerDay. Z.div_mod_to_equations; lia. Qed.

Lemma YearFromTime_le (t t' : Z) : t <= t' -> YearFromTime t <= YearFromTime t'.
Proof.
  intros H.
  pose proof (YearFromTime_spec t) as [Hl _].
  pose proof (YearFromTime_spec t') as [_ Hu'].
  pose proof (Day_le t t' H).
  destruct (Z_le_gt_dec (YearFromTime t) (YearFromTime t')) as [Hle | Hgt];
    [exact Hle |].
  exfalso.
  destruct (Z.eq_dec (YearFromTime t' + 1) (YearFromTime t)) as [E | N].
  - rewrite E in Hu'. lia.
  - pose proof (DayFromYear_increasing (YearFromTime t' + 1) (YearFromTime t)
                  ltac:(lia)). lia.
Qed.

Lemma YearFromTime_within_a_year (t t' : Z) :
  t <= t' -> t' <= t + 365 * msPerDay ->
  YearFromTime t' = YearFromTime t \/ YearFromTime t' = YearFromTime t + 1.
Proof.
  intros Hle Hup.
  pose proof (YearFromTime_le t t' Hle) as Hmono.
  pose proof (YearFromTime_spec t) as [_ Hu].
  pose proof (YearFromTime_spec t') as [Hl' _].
  assert (Hd : Day t' <= Day t + 365).
  { unfold Day, msPerDay in *. Z.div_mod_to_equations; lia. }
  pose proof (DaysInYear_step (YearFromTime t + 1)) as Hstep.
  pose proof (leap_of_year_cases (YearFromTime t + 1)) as Hleap.
  destruct (Z_le_gt_dec (YearFromTime t') (YearFromTime t + 1)) as [H1 | H2];
    [lia |].
  exfalso.
  destruct (Z.eq_dec (YearFromTime t') (YearFromTime t + 1 + 1)) as [E | N].
  - rewrite E in Hl'. lia.
  - pose proof (DayFromYear_increasing (YearFromTime t + 1 + 1) (YearFromTime t')
                  ltac:(lia)). lia.
Qed.

(** *** The validity window, from the two readings of the clock *)

(** Back-dating: one day, give or take the change of the offset. *)
Lemma notBefore_near (tza : Zone) (from until delta now1 : Z) :
  offsets_within tza from until delta ->
  from <= now1 - 2 * msPerDay -> now1 <= until ->
  now1 - msPerDay - delta
  <= setDate tza now1 (getDate tza now1 - 1)
  <= now1 - msPerDay + delta.
Proof.
  intros Hzone Hfrom Huntil. rewrite setDate_previous_day. unfold UTC, LocalTime.
  destruct (Hzone now1 true ltac:(unfold msPerDay in *; lia)) as [Hm H1].
  assert (Hin : from <= now1 + tza now1 true - msPerDay <= until)
    by (unfold msPerDay in *; lia).
  destruct (Hzone (now1 + tza now1 true - msPerDay) false Hin) as [_ H2].
  pose proof (H1 (now1 + tza now1 true - msPerDay) false Hin).
  pose proof (H2 now1 true ltac:(unfold msPerDay in *; lia)).
  lia.
Qed.

(** It stays within three days before the reading and one day after it. *)
Lemma notBefore_in_range (tza : Zone) (from until delta now1 : Z) :
  offsets_within tza from until delta ->
  from <= now1 - 2 * msPerDay -> now1 <= until ->
  now1 - 3 * msPerDay
  <= setDate tza now1 (getDate tza now1 - 1)
  <= now1 + msPerDay.
Proof.
  intros Hzone Hfrom Huntil. rewrite setDate_previous_day. unfold UTC, LocalTime.
  destruct (Hzone now1 true ltac:(unfold msPerDay in *; lia)) as [Hm _].
  assert (Hin : from <= now1 + tza now1 true - msPerDay <= until)
    by (unfold msPerDay in *; lia).
  destruct (Hzone (now1 + tza now1 true - msPerDay) false Hin) as [Hm' _].
  unfold msPerDay in *. lia.
Qed.

(** When the back-dated moment [nb] lies in the local year of the second
    reading, the window ends one calendar year after that reading. *)
Lemma notAfter_a_year_on (tza : Zone) (from until delta nb now2 : Z) :
  offsets_within tza from until delta ->
  from <= now2 -> now2 + 367 * msPerDay <= until ->
  getFullYear tza nb = getFullYear tza now2 ->
  now2 + 365 * msPerDay - delta
  <= setFullYear tza now2 (getFullYear tza nb + 1)
  <= now2 + 365 * msPerDay + delta
  \/ now2 + 366 * msPerDay - delta
     <= setFullYear tza now2 (getFullYear tza nb + 1)
     <= now2 + 366 * msPerDay + delta.
Proof.
  intros Hzone Hfrom Huntil Hy. rewrite Hy.
  assert (Hnow : from <= now2 <= until) by (unfold msPerDay in *; lia).
  destruct (Hzone now2 true Hnow) as [Hm H1].
  assert (Hin5 : from <= LocalTime tza now2 + 365 * msPerDay <= until)
    by (unfold LocalTime, msPerDay in *; lia).
  assert (Hin6 : from <= LocalTime tza now2 + 366 * msPerDay <= until)
    by (unfold LocalTime, msPerDay in *; lia).
  destruct (Hzone _ false Hin5) as [_ H5].
  destruct (Hzone _ false Hin6) as [_ H6].
  pose proof (H1 _ false Hin5). pose proof (H1 _ false Hin6).
  pose proof (H5 now2 true Hnow). pose proof (H6 now2 true Hnow).
  destruct (setFullYear_next_year_bounds tza now2) as [-> | ->];
    [left | right]; unfold UTC, LocalTime in *; lia.
Qed.

(** When it lies in the year before, the window ends at that reading. *)
Lemma notAfter_at_once (tza : Zone) (from until delta nb now2 : Z) :
  offsets_within tza from until delta ->
  from <= now2 - msPerDay -> now2 + msPerDay <= until ->
  getFullYear tza nb + 1 = getFullYear tza now2 ->
  now2 - delta <= setFullYear tza now2 (getFullYear tza nb + 1) <= now2 + delta.
Proof.
  intros Hzone Hfrom Huntil Hy. rewrite Hy, setFullYear_same_year.
  assert (Hnow : from <= now2 <= until) by (unfold msPerDay in *; lia).
  destruct (Hzone now2 true Hnow) as [Hm H1].
  assert (Hin : from <= LocalTime tza now2 <= until)
    by (unfold LocalTime, msPerDay in *; lia).
  destruct (Hzone _ false Hin) as [_ H2].
  pose proof (H1 _ false Hin). pose proof (H2 now2 true Hnow).
  unfold UTC, LocalTime in *. lia.
Qed.

(** One of the two is the case when the readings are a day apart at most
    and the offset changes by an hour at most. *)
Lemma year_of_notBefore (tza : Zone) (from until delta now1 now2 : Z) :
  offsets_within tza from until delta ->
  from <= now1 - 3 * msPerDay -> now2 <= until ->
  delta <= msPerHour -> now1 <= now2 <= now1 + msPerDay ->
  getFullYear tza (setDate tza now1 (getDate tza now1 - 1))
  = getFullYear tza now2
  \/ getFullYear tza (setDate tza now1 (getDate tza now1 - 1)) + 1
     = getFullYear tza now2.
Proof.
  intros Hzone Hfrom Huntil Hd Hnow.
  pose proof (notBefore_near tza from until delta now1 Hzone
                ltac:(unfold msPerDay in *; lia) ltac:(lia)) as Hnb.
  pose proof (notBefore_in_range tza from until delta now1 Hzone
                ltac:(unfold msPerDay in *; lia) ltac:(lia)) as Hrg.
  set (nb := setDate tza now1 (getDate tza now1 - 1)) in *.
  assert (Hin : from <= nb <= until) by (unfold msPerDay, msPerHour in *; lia).
  assert (Hin2 : from <= now2 <= until) by (unfold msPerDay in *; lia).
  destruct (Hzone nb true Hin) as [_ H1].
  destruct (Hzone now2 true Hin2) as [_ H2].
  pose proof (H1 now2 true Hin2). pose proof (H2 nb true Hin).
  unfold getFullYear, LocalTime.
  destruct (YearFromTime_within_a_year (nb + tza nb true) (now2 + tza now2 true))
    as [E | E]; unfold msPerDay, msPerHour in *; lia.
Qed.

End JsDateFacts.

(** ** The class *)

Section Properties.

Context {KM : KeyMaterial} {FG : @Forge KM}.

Implicit Types (env : Env) (w : World) (this : CA) (l : list string).

(** The serial number is made from the next four random values; nothing
    else of the world changes. *)
Lemma randomSerialNumber_run env w :
  randomSerialNumber env w
  = (Done (serial_at env (random_draws w)), advanced 0 4 0 w).
Proof. reflexivity. Qed.

Lemma bind_done {A B : Type} (m : M A) (k : A -> M B) w a w1 :
  m w = (Done a, w1) -> (m ≫= k) w = k a w1.
Proof. intros H. unfold mbind, M_bind. now rewrite H. Qed.

Lemma bind_threw {A B : Type} (m : M A) (k : A -> M B) w e w1 :
  m w = (Threw e, w1) -> (m ≫= k) w = (Threw e, w1).
Proof. intros H. unfold mbind, M_bind. now rewrite H. Qed.

(** Evaluates the first action of a sequence by computation. *)
Ltac step := erewrite bind_done by reflexivity.

(** Signing does not change what is signed. *)
Lemma to_be_signed_sign (c : Certificate) (key : PrivateKey) (digest : MessageDigest) :
  to_be_signed digest (Certificate_sign c key digest) = to_be_signed digest c.
Proof. reflexivity. Qed.

Lemma signServerCertificate_run env this root rootKeys keysServer host rest w :
  opened this root rootKeys ->
  keygen env (keygens w) = inr keysServer ->
  altNames_error (map altName_of_host (host :: rest)) = None ->
  exists certServer,
    signServerCertificate env this (HostArray (host :: rest)) w
    = (Done (certServer, keysServer), advanced 1 4 2 w)
    /\ cert_publicKey certServer = publicKey keysServer
    /\ serialNumber certServer = serial_at env (random_draws w)
    /\ notBefore certServer
       = JsDate.setDate (LocalTZA env) (clock env (clock_reads w))
           (JsDate.getDate (LocalTZA env) (clock env (clock_reads w)) - 1)
    /\ notAfter certServer
       = JsDate.setFullYear (LocalTZA env) (clock env (S (clock_reads w)))
           (JsDate.getFullYear (LocalTZA env) (notBefore certServer) + 1)
    /\ subject certServer
       = {| attr_key := Name "commonName"; attr_value := Some host |}
           :: SERVER_ATTRIBUTES
    /\ issuer certServer = issuer root
    /\ extensions certServer
       = (SERVER_EXTENSIONS
          ++ [subjectAltName (map altName_of_host (host :: rest))])%list
    /\ md certServer = Some sha256
    /\ signature certServer
       = Some (rsa_sign (privateKey rootKeys) sha256
                 (to_be_signed sha256 certServer)).
Proof.
  intros [Hc Hk] Hg Ha. eexists. split.
  - unfold signServerCertificate.
    cbv zeta. step. rewrite Hg. step. step. step. step. step.
    rewrite Hc. step. step. rewrite Ha. step. rewrite Hk. step.
    reflexivity.
  - cbn [signature Certificate_sign to_be_signed cert_publicKey serialNumber
         notBefore notAfter subject issuer extensions md
         clock_reads random_draws keygens advanced Nat.add mainHost_of head].
    do 8 (split; [reflexivity |]).
    rewrite to_be_signed_sign. reflexivity.
Qed.

(** An empty array is refused by [setSubject], whatever the state of the
    authority: the common name would be [undefined]. *)
Lemma empty_hosts_refused env this keysServer w :
  keygen env (keygens w) = inr keysServer ->
  signServerCertificate env this (HostArray []) w
  = (Threw (ForgeError "Attribute value not specified."), advanced 1 4 2 w).
Proof.
  intros Hg. unfold signServerCertificate.
  cbv zeta. step. rewrite Hg. step. step. step. step. reflexivity.
Qed.

(** Every way the signing half can end: it throws before anything is
    written, or it signs a certificate for a non-empty array of names on an
    opened authority. *)
Lemma signServerCertificate_cases env this hosts w :
  (exists e kg rd cr,
     signServerCertificate env this hosts w = (Threw e, advanced kg rd cr w))
  \/ (exists certServer keysServer host rest root rootKeys,
        hosts = HostArray (host :: rest)
        /\ opened this root rootKeys
        /\ keygen env (keygens w) = inr keysServer
        /\ altNames_error (map altName_of_host (host :: rest)) = None
        /\ signServerCertificate env this hosts w
           = (Done (certServer, keysServer), advanced 1 4 2 w)).
Proof.
  destruct (keygen env (keygens w)) as [e | keysServer] eqn:Hg.
  { left. exists e, 1, 0, 0. unfold signServerCertificate. cbv zeta.
    step. rewrite Hg. reflexivity. }
  destruct hosts as [s | [| host rest]].
  - left. destruct (CAcert this) as [root |] eqn:Hc.
    + eexists. exists 1, 4, 2. unfold signServerCertificate. cbv zeta.
      step. rewrite Hg. step. step. step. step. step. rewrite Hc. step.
      reflexivity.
    + eexists. exists 1, 4, 2. unfold signServerCertificate. cbv zeta.
      step. rewrite Hg. step. step. step. step. step. rewrite Hc. reflexivity.
  - left. eexists. exists 1, 4, 2. now apply (empty_hosts_refused env this keysServer).
  - destruct (CAcert this) as [root |] eqn:Hc.
    2:{ left. eexists. exists 1, 4, 2. unfold signServerCertificate. cbv zeta.
        step. rewrite Hg. step. step. step. step. step. rewrite Hc. reflexivity. }
    destruct (altNames_error (map altName_of_host (host :: rest))) as [e |] eqn:Ha.
    { left. eexists. exists 1, 4, 2. unfold signServerCertificate. cbv zeta.
      step. rewrite Hg. step. step. step. step. step. rewrite Hc. step. step.
      rewrite Ha. reflexivity. }
    destruct (CAkeys this) as [rootKeys |] eqn:Hk.
    2:{ left. eexists. exists 1, 4, 2. unfold signServerCertificate. cbv zeta.
        step. rewrite Hg. step. step. step. step. step. rewrite Hc. step. step.
        rewrite Ha. step. rewrite Hk. reflexivity. }
    right.
    destruct (signServerCertificate_run env this root rootKeys keysServer host rest w
                (conj Hc Hk) Hg Ha) as (certServer & Hrun & _).
    exists certServer, keysServer, host, rest, root, rootKeys.
    repeat split; assumption.
Qed.

Lemma world_eta w :
  {| files := files w; dirs := dirs w; clock_reads := clock_reads w;
     random_draws := random_draws w; keygens := keygens w;
     console := console w |} = w.
Proof. now destruct w. Qed.

Lemma writeFile_run env path data w :
  writeFile env path data w
  = (Done (write_error env path), with_files (stored env path data) w).
Proof.
  unfold writeFile, stored, with_files.
  destruct (write_error env path); [| reflexivity].
  destruct (cut_at env path); [reflexivity | now rewrite world_eta].
Qed.

(** *** The files a write leaves *)

Lemma stored_other env path data other (fs : gmap string string) :
  other <> path -> stored env path data fs !! other = fs !! other.
Proof.
  intros H. unfold stored.
  destruct (write_error env path);
    [destruct (cut_at env path); [| reflexivity] |];
    apply lookup_insert_ne; congruence.
Qed.

Lemma stored_written env path data (fs : gmap string string) :
  write_error env path = None -> stored env path data fs !! path = Some data.
Proof. intros H. unfold stored. rewrite H. apply lookup_insert_eq. Qed.

(** What a failed write leaves: nothing new, or the start of the data. *)
Lemma stored_failed env path data e (fs : gmap string string) :
  write_error env path = Some e ->
  stored env path data fs !! path
  = match cut_at env path with
    | Some n => Some (substring 0 n data)
    | None => fs !! path
    end.
Proof.
  intros H. unfold stored. rewrite H.
  destruct (cut_at env path); [apply lookup_insert_eq | reflexivity].
Qed.

(** Writes to different paths can be told in any order. *)
Lemma stored_comm env p d q d' (fs : gmap string string) :
  p <> q ->
  stored env p d (stored env q d' fs) = stored env q d' (stored env p d fs).
Proof.
  intros H. unfold stored.
  destruct (write_error env p), (cut_at env p), (write_error env q), (cut_at env q);
    try reflexivity; now apply insert_insert_ne.
Qed.

(** The three files of a cache entry are three different files. *)
Lemma leaf_paths_differ this name :
  leaf_pem this name <> leaf_key this name
  /\ leaf_pem this name <> leaf_public_key this name
  /\ leaf_key this name <> leaf_public_key this name.
Proof.
  unfold leaf_pem, leaf_key, leaf_public_key.
  assert (Hend : forall a b, a +:+ ".pem" <> b +:+ ".key").
  { intros a b E.
    pose proof (JsStringMore.slice_last_append a ".pem") as H1.
    pose proof (JsStringMore.slice_last_append b ".key") as H2.
    simpl String.length in H1, H2. rewrite E in H1. congruence. }
  split; [| split].
  - rewrite <- !JsStringMore.append_assoc. apply Hend.
  - change ".public.key" with (".public" +:+ ".key").
    rewrite <- !JsStringMore.append_assoc. apply Hend.
  - intros E. do 2 apply JsStringMore.append_inj_prefix in E.
    apply (f_equal String.length) in E.
    rewrite !JsStringFacts.length_append in E. simpl in E. lia.
Qed.

(** *** The order of completion *)

Lemma distinct_below_3 (order : list nat) :
  In (distinct_below 3 order)
    [ []; [0]; [1]; [2]; [0; 1]; [1; 0]; [0; 2]; [2; 0]; [1; 2]; [2; 1];
      [0; 1; 2]; [0; 2; 1]; [1; 0; 2]; [1; 2; 0]; [2; 0; 1]; [2; 1; 0] ].
Proof.
  induction order as [| i rest IH]; [now left |].
  cbn [distinct_below].
  destruct i as [| [| [| i]]];
    repeat (destruct IH as [<- | IH];
            [cbn; repeat (first [left; reflexivity | right]) |]);
    destruct IH.
Qed.

(** Three tasks end in one of the six orders there are. *)
Lemma in_completion_order_3 {A : Type} (order : list nat) (a b c : A) :
  In (in_completion_order order [a; b; c])
    [ [a; b; c]; [a; c; b]; [b; a; c]; [b; c; a]; [c; a; b]; [c; b; a] ].
Proof.
  unfold in_completion_order, completion_order. cbn [length].
  pose proof (distinct_below_3 order) as H.
  repeat (destruct H as [<- | H];
          [cbn; repeat (first [left; reflexivity | right]) |]);
  destruct H.
Qed.

(** *** The leaf writes *)

Lemma finish_write_run env job w :
  finish_write env job w = (Done tt, after_write env w job).
Proof.
  unfold finish_write, after_write.
  rewrite (bind_done _ _ _ _ _ (writeFile_run _ _ _ _)).
  unfold report, logged, complaint.
  destruct (write_error env (snd (fst job))) as [e |].
  - reflexivity.
  - unfold mret, M_ret, with_console. now rewrite app_nil_r, world_eta.
Qed.

Lemma each_finish_write env jobs w :
  each (finish_write env) jobs w = (Done tt, fold_left (after_write env) jobs w).
Proof.
  revert w; induction jobs as [| job jobs IH]; intros w; [reflexivity |].
  cbn [each fold_left].
  rewrite (bind_done _ _ _ _ _ (finish_write_run env job w)). apply IH.
Qed.

Lemma after_writes_console env jobs w :
  console (fold_left (after_write env) jobs w)
  = (console w ++ complaints env jobs)%list.
Proof.
  revert w; induction jobs as [| job jobs IH]; intros w; cbn [fold_left].
  - unfold complaints. cbn. now rewrite app_nil_r.
  - rewrite IH. unfold complaints. cbn [flat_map after_write logged with_console
      with_files console]. now rewrite <- app_assoc.
Qed.

Lemma after_writes_rest env jobs w :
  dirs (fold_left (after_write env) jobs w) = dirs w
  /\ clock_reads (fold_left (after_write env) jobs w) = clock_reads w
  /\ random_draws (fold_left (after_write env) jobs w) = random_draws w
  /\ keygens (fold_left (after_write env) jobs w) = keygens w.
Proof.
  revert w; induction jobs as [| job jobs IH]; intros w; cbn [fold_left].
  - repeat split.
  - destruct (IH (after_write env w job)) as (-> & -> & -> & ->). repeat split.
Qed.

Lemma leaf_written_run env this name certPem keyPrivatePem keyPublicPem w :
  leaf_written env this name certPem keyPrivatePem keyPublicPem w
  = fold_left (after_write env)
      (in_completion_order (completion env)
         (leaf_writes this name certPem keyPrivatePem keyPublicPem)) w.
Proof. unfold leaf_written. now rewrite each_finish_write. Qed.

(** The files after the three writes of a leaf, in whatever order they
    ended. *)
Lemma leaf_files env this name certPem keyPrivatePem keyPublicPem w :
  files (leaf_written env this name certPem keyPrivatePem keyPublicPem w)
  = stored env (leaf_public_key this name) keyPublicPem
      (stored env (leaf_key this name) keyPrivatePem
         (stored env (leaf_pem this name) certPem (files w))).
Proof.
  rewrite leaf_written_run. unfold leaf_writes.
  destruct (leaf_paths_differ this name) as (N12 & N13 & N23).
  pose proof (in_completion_order_3 (completion env)
    ("Failed to save certificate to disk in " +:+ certsFolder this,
     certsFolder this +:+ "/" +:+ name +:+ ".pem", certPem)
    ("Failed to save private key to disk in " +:+ keysFolder this,
     keysFolder this +:+ "/" +:+ name +:+ ".key", keyPrivatePem)
    ("Failed to save public key to disk in " +:+ keysFolder this,
     keysFolder this +:+ "/" +:+ name +:+ ".public.key", keyPublicPem)) as H.
  fold (leaf_pem this name) (leaf_key this name) (leaf_public_key this name) in H |- *.
  cbn [In] in H.
  destruct H as [<- | [<- | [<- | [<- | [<- | [<- | []]]]]]];
    cbn [fold_left after_write logged with_console with_files files fst snd].
  - reflexivity.
  - apply stored_comm. exact N23.
  - f_equal. apply stored_comm. exact N12.
  - rewrite (stored_comm env (leaf_pem this name) certPem
               (leaf_public_key this name) keyPublicPem) by exact N13.
    f_equal. apply stored_comm. exact N12.
  - rewrite (stored_comm env (leaf_pem this name) certPem
               (leaf_public_key this name) keyPublicPem (files w)) by exact N13.
    apply stored_comm. exact N23.
  - rewrite (stored_comm env (leaf_key this name) keyPrivatePem
               (leaf_public_key this name) keyPublicPem (files w)) by exact N23.
    rewrite (stored_comm env (leaf_pem this name) certPem
               (leaf_public_key this name) keyPublicPem) by exact N13.
    f_equal. apply stored_comm. exact N12.
Qed.

(** The console after them: the lines of the failed writes, in the order
    in which the writes ended. *)
Lemma leaf_console env this name certPem keyPrivatePem keyPublicPem w :
  console (leaf_written env this name certPem keyPrivatePem keyPublicPem w)
  = (console w
     ++ complaints env
          (in_completion_order (completion env)
             (leaf_writes this name certPem keyPrivatePem keyPublicPem)))%list.
Proof. rewrite leaf_written_run. apply after_writes_console. Qed.

Lemma leaf_rest env this name certPem keyPrivatePem keyPublicPem w :
  dirs (leaf_written env this name certPem keyPrivatePem keyPublicPem w) = dirs w
  /\ clock_reads (leaf_written env this name certPem keyPrivatePem keyPublicPem w)
     = clock_reads w
  /\ random_draws (leaf_written env this name certPem keyPrivatePem keyPublicPem w)
     = random_draws w
  /\ keygens (leaf_written env this name certPem keyPrivatePem keyPublicPem w)
     = keygens w.
Proof. rewrite leaf_written_run. apply after_writes_rest. Qed.

(** When no write fails nothing is said, whatever the order. *)
Lemma complaints_none env jobs :
  (forall job, In job jobs -> write_error env (snd (fst job)) = None) ->
  complaints env jobs = [].
Proof.
  induction jobs as [| job jobs IH]; intros H; [reflexivity |].
  unfold complaints. cbn [flat_map]. unfold complaint at 1.
  rewrite (H job (or_introl eq_refl)). apply IH.
  intros j Hj. apply H. now right.
Qed.

Lemma in_completion_order_In {A : Type} (order : list nat) (tasks : list A) (x : A) :
  In x (in_completion_order order tasks) -> In x tasks.
Proof.
  unfold in_completion_order. intros H. apply list_elem_of_In in H.
  apply list_elem_of_omap in H. destruct H as (i & _ & Hi).
  apply list_elem_of_In. eapply list_elem_of_lookup_2. exact Hi.
Qed.

(** The second half: encoding, the three writes started, the callback, and
    the writes coming to their end. *)
Lemma generateServerCertificateKeys_cb_run {B : Type} env this hosts host
    (cb : string -> string -> M B) certServer keysServer w w1 :
  signServerCertificate env this hosts w = (Done (certServer, keysServer), w1) ->
  mainHost_of hosts = Some host ->
  generateServerCertificateKeys_cb env this hosts cb w
  = (fst (cb (certificateToPem certServer)
            (privateKeyToPem (privateKey keysServer)) w1),
     leaf_written env this (replace_stars host) (certificateToPem certServer)
       (privateKeyToPem (privateKey keysServer))
       (publicKeyToPem (publicKey keysServer))
       (snd (cb (certificateToPem certServer)
               (privateKeyToPem (privateKey keysServer)) w1))).
Proof.
  intros Hs Hh. unfold generateServerCertificateKeys_cb.
  rewrite (bind_done _ _ _ _ _ Hs). cbv zeta. rewrite Hh.
  step. cbn [fst snd]. unfold afterwards, leaf_written.
  now destruct (cb _ _ w1).
Qed.

Lemma generateServerCertificateKeys_run env this hosts host certServer keysServer w w1 :
  signServerCertificate env this hosts w = (Done (certServer, keysServer), w1) ->
  mainHost_of hosts = Some host ->
  generateServerCertificateKeys env this hosts w
  = (Done (certificateToPem certServer, privateKeyToPem (privateKey keysServer)),
     leaf_written env this (replace_stars host) (certificateToPem certServer)
       (privateKeyToPem (privateKey keysServer))
       (publicKeyToPem (publicKey keysServer)) w1).
Proof.
  intros Hs Hh. unfold generateServerCertificateKeys.
  now rewrite (generateServerCertificateKeys_cb_run env this hosts host _ _ _ _ _ Hs Hh).
Qed.

(** What the signing half throws, the whole function throws, before any
    write and before the callback. *)
Lemma generateServerCertificateKeys_cb_throws {B : Type} env this hosts
    (cb : string -> string -> M B) e w w1 :
  signServerCertificate env this hosts w = (Threw e, w1) ->
  generateServerCertificateKeys_cb env this hosts cb w = (Threw e, w1).
Proof.
  intros Hs. unfold generateServerCertificateKeys_cb.
  now rewrite (bind_threw _ _ _ _ _ Hs).
Qed.

Lemma generateServerCertificateKeys_throws env this hosts e w w1 :
  signServerCertificate env this hosts w = (Threw e, w1) ->
  generateServerCertificateKeys env this hosts w = (Threw e, w1).
Proof. apply generateServerCertificateKeys_cb_throws. Qed.

Lemma signServerCertificate_write_independent env failures this hosts w :
  signServerCertificate (with_write_error failures env) this hosts w
  = signServerCertificate env this hosts w.
Proof. reflexivity. Qed.

Lemma lookup_map {A B : Type} (f : A -> B) (xs : list A) (i : nat) :
  map f xs !! i = option_map f (xs !! i).
Proof.
  revert i; induction xs as [|x xs IH]; intros [|i]; simpl; auto.
Qed.

Lemma is_digit_spec (c : ascii) :
  is_digit c = true <-> (48 <= N_of_ascii c <= 57)%N.
Proof. unfold is_digit. rewrite andb_true_iff, !N.leb_le. tauto. Qed.

(** The host names the pattern accepts: not empty, and made of decimal
    digits and dots only. *)
Lemma matches_digits_dots_spec (host : string) :
  matches_digits_dots host = true <->
  host <> EmptyString /\
  (forall i c, String.get i host = Some c ->
     (48 <= N_of_ascii c <= 57)%N \/ c = "."%char).
Proof.
  assert (Hp : forall c, is_digit c || Ascii.eqb c "." = true <->
                 (48 <= N_of_ascii c <= 57)%N \/ c = "."%char).
  { intros c. rewrite orb_true_iff, is_digit_spec, Ascii.eqb_eq. tauto. }
  destruct host as [|a r].
  - simpl. split; [discriminate | intros [H _]; now contradiction H].
  - unfold matches_digits_dots. rewrite JsStringFacts.all_chars_forall.
    split.
    + intros H. split; [discriminate |]. intros i c Hi. apply Hp. eauto.
    + intros [_ H] i c Hi. apply Hp. eauto.
Qed.

(** C3. For a non-empty array of host names the subjectAltName extension of
    the issued certificate has one entry per host name, at the same index:
    an IP entry for a name of digits and dots, a DNS entry for any other.
    The list [example.com, 192.0.2.5, *.example.com] gives DNS, IP, DNS. *)
Theorem subjectAltName_mirrors_hosts env this root rootKeys keysServer host rest w :
  opened this root rootKeys ->
  keygen env (keygens w) = inr keysServer ->
  altNames_error (map altName_of_host (host :: rest)) = None ->
  exists certServer altNames w1 w',
    signServerCertificate env this (HostArray (host :: rest)) w
    = (Done (certServer, keysServer), w1)
    /\ generateServerCertificateKeys env this (HostArray (host :: rest)) w
       = (Done (certificateToPem certServer,
                privateKeyToPem (privateKey keysServer)), w')
    /\ extensions certServer = (SERVER_EXTENSIONS ++ [subjectAltName altNames])%list
    /\ length altNames = length (host :: rest)
    /\ (forall i h, (host :: rest) !! i = Some h ->
          altNames !! i
          = Some (if matches_digits_dots h then IPAddress h else DNSName h))
    /\ (host :: rest = ["example.com"; "192.0.2.5"; "*.example.com"] ->
        altNames = [DNSName "example.com"; IPAddress "192.0.2.5";
                    DNSName "*.example.com"]).
Proof.
  intros Hop Hg Ha.
  destruct (signServerCertificate_run env this root rootKeys keysServer
              host rest w Hop Hg Ha)
    as (certServer & Hs & _ & _ & _ & _ & _ & _ & Hext & _).
  exists certServer, (map altName_of_host (host :: rest)). do 2 eexists.
  split; [exact Hs |].
  split; [exact (generateServerCertificateKeys_run _ _ _ host _ _ _ _ Hs eq_refl) |].
  split; [exact Hext |].
  split; [apply length_map |].
  split.
  - intros i h Hi. rewrite lookup_map, Hi. reflexivity.
  - intros ->. reflexivity.
Qed.

(** The host name an entry of the subjectAltName extension carries. *)
Lemma altName_of_host_keeps_name (h : string) :
  altName_of_host h = IPAddress h \/ altName_of_host h = DNSName h.
Proof. unfold altName_of_host. destruct (matches_digits_dots h); auto. Qed.

Lemma replace_stars_get (h : string) (i : nat) :
  String.get i (replace_stars h)
  = option_map (fun c => if Ascii.eqb c "*" then "_"%char else c) (String.get i h).
Proof. apply JsStringFacts.get_map_chars. Qed.

Lemma replace_stars_length (h : string) :
  String.length (replace_stars h) = String.length h.
Proof. apply JsStringFacts.length_map_chars. Qed.

(** C9. The name of the cache files of a host is the host name with every
    star replaced by an underscore and every other character kept; the three
    writes go to paths made from that name, while the certificate carries
    the host names as they were given. *)
Theorem cache_file_name_replaces_stars env this root rootKeys keysServer host rest w :
  opened this root rootKeys ->
  keygen env (keygens w) = inr keysServer ->
  altNames_error (map altName_of_host (host :: rest)) = None ->
  exists certServer w1 w',
    signServerCertificate env this (HostArray (host :: rest)) w
    = (Done (certServer, keysServer), w1)
    /\ generateServerCertificateKeys env this (HostArray (host :: rest)) w
       = (Done (certificateToPem certServer,
                privateKeyToPem (privateKey keysServer)), w')
    /\ files w'
       = stored env (keysFolder this +:+ "/" +:+ replace_stars host +:+ ".public.key")
           (publicKeyToPem (publicKey keysServer))
           (stored env (keysFolder this +:+ "/" +:+ replace_stars host +:+ ".key")
              (privateKeyToPem (privateKey keysServer))
              (stored env (certsFolder this +:+ "/" +:+ replace_stars host +:+ ".pem")
                 (certificateToPem certServer) (files w)))
    /\ String.length (replace_stars host) = String.length host
    /\ (forall i,
          String.get i (replace_stars host)
          = option_map (fun c => if Ascii.eqb c "*" then "_"%char else c)
              (String.get i host))
    /\ replace_stars "*.example.com" = "_.example.com"
    /\ subject certServer
       = {| attr_key := Name "commonName"; attr_value := Some host |}
           :: SERVER_ATTRIBUTES
    /\ extensions certServer
       = (SERVER_EXTENSIONS
          ++ [subjectAltName (map altName_of_host (host :: rest))])%list
    /\ (forall h, altName_of_host h = IPAddress h \/ altName_of_host h = DNSName h).
Proof.
  intros Hop Hg Ha.
  destruct (signServerCertificate_run env this root rootKeys keysServer
              host rest w Hop Hg Ha)
    as (certServer & Hs & _ & _ & _ & _ & Hsub & _ & Hext & _).
  exists certServer. do 2 eexists.
  split; [exact Hs |].
  split; [exact (generateServerCertificateKeys_run _ _ _ host _ _ _ _ Hs eq_refl) |].
  split; [rewrite leaf_files; reflexivity |].
  split; [apply replace_stars_length |].
  split; [apply replace_stars_get |].
  split; [reflexivity |].
  split; [exact Hsub |].
  split; [exact Hext |].
  apply altName_of_host_keeps_name.
Qed.

(** Every failed write has its line among those said, and every line is
    that of a failed write. *)
Lemma leaf_complaints env this name certPem keyPrivatePem keyPublicPem :
  complaints env
    (in_completion_order (completion env)
       (leaf_writes this name certPem keyPrivatePem keyPublicPem))
  ≡ₚ (complaint env ("Failed to save certificate to disk in " +:+ certsFolder this)
        (leaf_pem this name)
      ++ complaint env ("Failed to save private key to disk in " +:+ keysFolder this)
           (leaf_key this name)
      ++ complaint env ("Failed to save public key to disk in " +:+ keysFolder this)
           (leaf_public_key this name))%list.
Proof.
  unfold leaf_writes.
  pose proof (in_completion_order_3 (completion env)
    ("Failed to save certificate to disk in " +:+ certsFolder this,
     certsFolder this +:+ "/" +:+ name +:+ ".pem", certPem)
    ("Failed to save private key to disk in " +:+ keysFolder this,
     keysFolder this +:+ "/" +:+ name +:+ ".key", keyPrivatePem)
    ("Failed to save public key to disk in " +:+ keysFolder this,
     keysFolder this +:+ "/" +:+ name +:+ ".public.key", keyPublicPem)) as H.
  fold (leaf_pem this name) (leaf_key this name) (leaf_public_key this name) in H |- *.
  cbn [In] in H.
  destruct H as [<- | [<- | [<- | [<- | [<- | [<- | []]]]]]];
    unfold complaints; cbn [flat_map fst snd]; rewrite app_nil_r;
    generalize (complaint env ("Failed to save certificate to disk in "
                               +:+ certsFolder this) (leaf_pem this name));
    generalize (complaint env ("Failed to save private key to disk in "
                               +:+ keysFolder this) (leaf_key this name));
    generalize (complaint env ("Failed to save public key to disk in "
                               +:+ keysFolder this) (leaf_public_key this name));
    intros c b a; solve_Permutation.
Qed.

(** C6. Whatever the outcome of the three writes, [cb] is called with the
    text of the certificate that was signed and the text of the private key
    made for it, and the method ends as [cb] ends: no failure of a write
    makes it throw.  Every failed write leaves its line on the console, in
    the order in which the writes come to their end, and every write leaves
    its file, whole or cut. *)
Theorem leaf_persistence_is_best_effort env this root rootKeys keysServer host rest w :
  opened this root rootKeys ->
  keygen env (keygens w) = inr keysServer ->
  altNames_error (map altName_of_host (host :: rest)) = None ->
  exists certServer,
    signServerCertificate env this (HostArray (host :: rest)) w
    = (Done (certServer, keysServer), advanced 1 4 2 w)
    /\ cert_publicKey certServer = publicKey keysServer
    /\ signature certServer
       = Some (rsa_sign (privateKey rootKeys) sha256 (to_be_signed sha256 certServer))
    /\ forall (failures : string -> option exn) (cuts : string -> option nat)
         (cb : Callback),
         let env' := with_cut_at cuts (with_write_error failures env) in
         let certPem := certificateToPem certServer in
         let keyPrivatePem := privateKeyToPem (privateKey keysServer) in
         let keyPublicPem := publicKeyToPem (publicKey keysServer) in
         let called := call cb certPem keyPrivatePem (advanced 1 4 2 w) in
         let said :=
           complaints env'
             (in_completion_order (completion env)
                (leaf_writes this (replace_stars host) certPem keyPrivatePem
                   keyPublicPem)) in
         exists w',
           generateServerCertificateKeys_cb env' this (HostArray (host :: rest))
             (call cb) w
           = (fst called, w')
           /\ console w' = (console (snd called) ++ said)%list
           /\ said
              ≡ₚ (complaint env'
                    ("Failed to save certificate to disk in " +:+ certsFolder this)
                    (certsFolder this +:+ "/" +:+ replace_stars host +:+ ".pem")
                  ++ complaint env'
                       ("Failed to save private key to disk in " +:+ keysFolder this)
                       (keysFolder this +:+ "/" +:+ replace_stars host +:+ ".key")
                  ++ complaint env'
                       ("Failed to save public key to disk in " +:+ keysFolder this)
                       (keysFolder this +:+ "/" +:+ replace_stars host
                        +:+ ".public.key"))%list
           /\ files w'
              = stored env'
                  (keysFolder this +:+ "/" +:+ replace_stars host +:+ ".public.key")
                  keyPublicPem
                  (stored env'
                     (keysFolder this +:+ "/" +:+ replace_stars host +:+ ".key")
                     keyPrivatePem
                     (stored env'
                        (certsFolder this +:+ "/" +:+ replace_stars host +:+ ".pem")
                        certPem (files (snd called)))).
Proof.
  intros Hop Hg Ha.
  destruct (signServerCertificate_run env this root rootKeys keysServer
              host rest w Hop Hg Ha)
    as (certServer & Hs & Hkey & _ & _ & _ & _ & _ & _ & _ & Hsig).
  exists certServer.
  split; [exact Hs |]. split; [exact Hkey |]. split; [exact Hsig |].
  intros failures cuts cb. cbv zeta.
  assert (Hs' : signServerCertificate (with_cut_at cuts (with_write_error failures env))
                  this (HostArray (host :: rest)) w
                = (Done (certServer, keysServer), advanced 1 4 2 w)) by exact Hs.
  eexists.
  split; [exact (generateServerCertificateKeys_cb_run _ this _ host
                   (call cb) _ _ _ _ Hs' eq_refl) |].
  split; [exact (leaf_console _ _ _ _ _ _ _) |].
  split; [exact (leaf_complaints _ _ _ _ _ _) | exact (leaf_files _ _ _ _ _ _ _)].
Qed.

(** A plain string is refused whatever the state of the authority: the
    function throws, no file is written and nothing is reported. *)
Lemma string_hosts_throw env this s w :
  exists e w',
    generateServerCertificateKeys env this (HostString s) w = (Threw e, w')
    /\ files w' = files w /\ console w' = console w.
Proof.
  assert (H : exists e w', signServerCertificate env this (HostString s) w = (Threw e, w')
                           /\ files w' = files w /\ console w' = console w).
  { unfold signServerCertificate. cbv zeta. step.
    destruct (keygen env (keygens w)) as [e | keys].
    - do 2 eexists. split; [reflexivity | split; reflexivity].
    - step. step. step. step. step.
      destruct (CAcert this) as [root |].
      + step. do 2 eexists. split; [reflexivity | split; reflexivity].
      + do 2 eexists. split; [reflexivity | split; reflexivity]. }
  destruct H as (e & w' & Hs & Hf & Hc). exists e, w'.
  split; [apply generateServerCertificateKeys_throws, Hs | tauto].
Qed.

Lemma string_hosts_type_error env this root rootKeys keysServer s w :
  opened this root rootKeys ->
  keygen env (keygens w) = inr keysServer ->
  generateServerCertificateKeys env this (HostString s) w
  = (Threw (TypeError "hosts.map is not a function"), advanced 1 4 2 w).
Proof.
  intros [Hc Hk] Hg. apply generateServerCertificateKeys_throws.
  unfold signServerCertificate. cbv zeta.
  step. rewrite Hg. step. step. step. step. step.
  rewrite Hc. step. reflexivity.
Qed.

(** An empty array fails as well: [hosts[0]] is [undefined], a common name
    that [setSubject] refuses. *)
Lemma empty_hosts_throw env this keysServer w :
  keygen env (keygens w) = inr keysServer ->
  generateServerCertificateKeys env this (HostArray []) w
  = (Threw (ForgeError "Attribute value not specified."), advanced 1 4 2 w).
Proof.
  intros Hg. apply generateServerCertificateKeys_throws.
  now apply (empty_hosts_refused env this keysServer).
Qed.

(** What forge objects to, the function throws. *)
Lemma rejected_names_throw env this root rootKeys keysServer host rest e w :
  opened this root rootKeys ->
  keygen env (keygens w) = inr keysServer ->
  altNames_error (map altName_of_host (host :: rest)) = Some e ->
  generateServerCertificateKeys env this (HostArray (host :: rest)) w
  = (Threw e, advanced 1 4 2 w).
Proof.
  intros [Hc Hk] Hg Ha. apply generateServerCertificateKeys_throws.
  unfold signServerCertificate.
  cbv zeta. step. rewrite Hg. step. step. step. step. step.
  rewrite Hc. step. step. rewrite Ha. reflexivity.
Qed.

(** C10. On an opened authority a plain string passes the test of the first
    line but fails at [hosts.map] with a [TypeError], before any certificate,
    file or callback; the call completes exactly for the non-empty arrays
    whose names forge can encode. *)
Theorem issuance_needs_an_array env this root rootKeys keysServer w :
  opened this root rootKeys ->
  keygen env (keygens w) = inr keysServer ->
  (forall s,
     mainHost_of (HostString s) = Some s
     /\ generateServerCertificateKeys env this (HostString s) w
        = (Threw (TypeError "hosts.map is not a function"), advanced 1 4 2 w)
     /\ files (advanced 1 4 2 w) = files w
     /\ console (advanced 1 4 2 w) = console w)
  /\ (forall hosts,
        (exists texts w',
           generateServerCertificateKeys env this hosts w = (Done texts, w'))
        <-> (exists host rest,
               hosts = HostArray (host :: rest)
               /\ altNames_error (map altName_of_host (host :: rest)) = None)).
Proof.
  intros Hop Hg. split.
  - intros s. split; [reflexivity |].
    split; [now apply (string_hosts_type_error env this root rootKeys keysServer) |].
    split; reflexivity.
  - intros hosts. split.
    + intros (texts & w' & H). destruct hosts as [s | [| host rest]].
      * rewrite (string_hosts_type_error env this root rootKeys keysServer) in H
          by assumption. discriminate.
      * rewrite (empty_hosts_throw env this keysServer w Hg) in H. discriminate.
      * destruct (altNames_error (map altName_of_host (host :: rest)))
          as [e |] eqn:Ha; [| eauto].
        rewrite (rejected_names_throw env this root rootKeys keysServer _ _ e)
          in H by assumption. discriminate.
    + intros (host & rest & -> & Ha).
      destruct (signServerCertificate_run env this root rootKeys keysServer
                  host rest w Hop Hg Ha) as (certServer & Hs & _).
      do 2 eexists.
      exact (generateServerCertificateKeys_run _ _ _ host _ _ _ _ Hs eq_refl).
Qed.

(** *** The error that reaches the final callback of [async] *)

Lemma first_error_In (outcomes : list (option exn)) (e : exn) :
  first_error outcomes = Some e -> In (Some e) outcomes.
Proof.
  induction outcomes as [|[e' |] rest IH]; simpl; intros H.
  - discriminate.
  - left. exact H.
  - right. now apply IH.
Qed.

Lemma first_error_None (outcomes : list (option exn)) :
  first_error outcomes = None -> forall e, ~ In (Some e) outcomes.
Proof.
  induction outcomes as [|[e' |] rest IH]; simpl; intros H e HIn.
  - exact HIn.
  - discriminate.
  - destruct HIn as [E | HIn]; [discriminate | exact (IH H e HIn)].
Qed.

Lemma async_first_error_In (order : list nat) (outcomes : list (option exn)) (e : exn) :
  async_first_error order outcomes = Some e -> In (Some e) outcomes.
Proof.
  unfold async_first_error.
  destruct (first_error (map _ order)) as [e' |] eqn:E.
  - intros [= <-]. apply first_error_In in E. apply in_map_iff in E.
    destruct E as (i & Hi & _).
    destruct (outcomes !! i) as [o |] eqn:Ho; simpl in Hi; [| discriminate].
    subst o. apply list_elem_of_In. eapply list_elem_of_lookup_2. exact Ho.
  - apply first_error_In.
Qed.

(** A task that fails makes the final callback receive an error. *)
Lemma async_first_error_Some (order : list nat) (outcomes : list (option exn)) (e : exn) :
  In (Some e) outcomes ->
  exists e', async_first_error order outcomes = Some e' /\ In (Some e') outcomes.
Proof.
  intros HIn.
  destruct (async_first_error order outcomes) as [e' |] eqn:E.
  - exists e'. split; [reflexivity | now apply async_first_error_In in E].
  - exfalso. unfold async_first_error in E.
    destruct (first_error (map _ order)); [discriminate |].
    exact (first_error_None _ E e HIn).
Qed.

(** *** [create] *)

Lemma mkdirp_sync_run env dir w :
  mkdir_error env dir = None ->
  mkdirp_sync env dir w = (Done tt, with_dirs (union {[dir]}) w).
Proof. intros H. unfold mkdirp_sync. now rewrite H. Qed.

Lemma create_run env caFolder w :
  folders_made env caFolder ->
  create env caFolder w
  = (if root_present caFolder w then loadCA env (started caFolder)
     else generateCA env (started caFolder)) (with_folders caFolder w).
Proof.
  intros (Hbase & Hcerts & Hkeys). unfold create. cbv zeta.
  cbn [baseCAFolder certsFolder keysFolder].
  rewrite (bind_done _ _ _ _ _ (mkdirp_sync_run env _ _ Hbase)).
  rewrite (bind_done _ _ _ _ _ (mkdirp_sync_run env _ _ Hcerts)).
  rewrite (bind_done _ _ _ _ _ (mkdirp_sync_run env _ _ Hkeys)).
  step.
  match goal with
  | |- (if ?b then _ else _) _ = _ => change b with (root_present caFolder w)
  end.
  destruct (root_present caFolder w); reflexivity.
Qed.

Lemma with_folders_idempotent caFolder w :
  with_folders (FG := FG) caFolder (with_folders caFolder w) = with_folders caFolder w.
Proof.
  unfold with_folders, with_dirs. cbn [files dirs clock_reads random_draws keygens console].
  f_equal. apply set_eq. intros x. rewrite !elem_of_union. tauto.
Qed.

Lemma root_present_with_folders caFolder w :
  root_present (FG := FG) caFolder (with_folders caFolder w) = root_present caFolder w.
Proof. unfold root_present. now rewrite with_folders_idempotent. Qed.

Lemma root_present_file caFolder data w :
  files w !! ca_pem (FG := FG) caFolder = Some data -> root_present caFolder w = true.
Proof.
  intros H. unfold root_present. rewrite H.
  rewrite bool_decide_eq_true_2 by eauto. reflexivity.
Qed.

(** *** [loadCA] *)

Lemma readFile_run env path w :
  exists r, readFile env path w = (Done r, w)
            /\ (forall data,
                  files w !! path = Some data -> read_error env path = None ->
                  r = inr data).
Proof.
  eexists. split; [reflexivity |]. intros data -> ->. reflexivity.
Qed.

Lemma readFile_agree env env' path :
  read_error env' path = read_error env path ->
  readFile env' path = readFile env path.
Proof. intros H. unfold readFile. now rewrite H. Qed.

(** [loadCA] only reads. *)
Lemma loadCA_world env this w : snd (loadCA env this w) = w.
Proof.
  unfold loadCA.
  destruct (readFile_run env (path_join (certsFolder this) "ca.pem") w) as (r1 & E1 & _).
  destruct (readFile_run env (path_join (keysFolder this) "ca.private.key") w) as (r2 & E2 & _).
  destruct (readFile_run env (path_join (keysFolder this) "ca.public.key") w) as (r3 & E3 & _).
  rewrite (bind_done _ _ _ _ _ E1), (bind_done _ _ _ _ _ E2), (bind_done _ _ _ _ _ E3).
  destruct r1 as [e1 | certText]; [reflexivity |].
  destruct r2 as [e2 | privateText]; [reflexivity |].
  destruct r3 as [e3 | publicText]; [reflexivity |].
  unfold mbind, M_bind, decoded, throw, mret, M_ret.
  destruct (certificateFromPem certText); [reflexivity |].
  destruct (privateKeyFromPem privateText); [reflexivity |].
  destruct (publicKeyFromPem publicText); reflexivity.
Qed.

(** With the three files in place [loadCA] is the three decoders in a row:
    what the first failing one throws, or the loaded authority. *)
Lemma loadCA_decodes env this certText privateText publicText w :
  files w !! path_join (certsFolder this) "ca.pem" = Some certText ->
  files w !! path_join (keysFolder this) "ca.private.key" = Some privateText ->
  files w !! path_join (keysFolder this) "ca.public.key" = Some publicText ->
  read_error env (path_join (certsFolder this) "ca.pem") = None ->
  read_error env (path_join (keysFolder this) "ca.private.key") = None ->
  read_error env (path_join (keysFolder this) "ca.public.key") = None ->
  loadCA env this w
  = match certificateFromPem certText with
    | inl e => (Threw e, w)
    | inr cert =>
        match privateKeyFromPem privateText with
        | inl e => (Threw e, w)
        | inr priv =>
            match publicKeyFromPem publicText with
            | inl e => (Threw e, w)
            | inr pub =>
                (Done (None, with_root this cert
                               {| privateKey := priv; publicKey := pub |}), w)
            end
        end
    end.
Proof.
  intros H1 H2 H3 R1 R2 R3. unfold loadCA.
  destruct (readFile_run env (path_join (certsFolder this) "ca.pem") w) as (r1 & E1 & F1).
  destruct (readFile_run env (path_join (keysFolder this) "ca.private.key") w) as (r2 & E2 & F2).
  destruct (readFile_run env (path_join (keysFolder this) "ca.public.key") w) as (r3 & E3 & F3).
  rewrite (bind_done _ _ _ _ _ E1), (bind_done _ _ _ _ _ E2), (bind_done _ _ _ _ _ E3).
  rewrite (F1 _ H1 R1), (F2 _ H2 R2), (F3 _ H3 R3).
  unfold mbind, M_bind, decoded, throw, mret, M_ret.
  destruct (certificateFromPem certText); [reflexivity |].
  destruct (privateKeyFromPem privateText); [reflexivity |].
  destruct (publicKeyFromPem publicText); reflexivity.
Qed.

Lemma readFile_inr env path text w w' :
  readFile env path w = (Done (inr text), w') -> files w !! path = Some text.
Proof.
  unfold readFile. destruct (files w !! path) as [data |].
  - destruct (read_error env path); congruence.
  - destruct (bool_decide (path ∈ dirs w)); discriminate.
Qed.

(** A load that succeeds has read the three files and decoded each. *)
Lemma loadCA_success env this ca w w' :
  loadCA env this w = (Done (None, ca), w') ->
  exists certText privateText publicText cert priv pub,
    files w !! path_join (certsFolder this) "ca.pem" = Some certText
    /\ files w !! path_join (keysFolder this) "ca.private.key" = Some privateText
    /\ files w !! path_join (keysFolder this) "ca.public.key" = Some publicText
    /\ certificateFromPem certText = inr cert
    /\ privateKeyFromPem privateText = inr priv
    /\ publicKeyFromPem publicText = inr pub
    /\ ca = with_root this cert {| privateKey := priv; publicKey := pub |}
    /\ w' = w.
Proof.
  unfold loadCA.
  destruct (readFile_run env (path_join (certsFolder this) "ca.pem") w) as (r1 & E1 & _).
  destruct (readFile_run env (path_join (keysFolder this) "ca.private.key") w) as (r2 & E2 & _).
  destruct (readFile_run env (path_join (keysFolder this) "ca.public.key") w) as (r3 & E3 & _).
  rewrite (bind_done _ _ _ _ _ E1), (bind_done _ _ _ _ _ E2), (bind_done _ _ _ _ _ E3).
  assert (Hno : forall outcomes e, In (Some e) outcomes ->
            (Done (async_first_error (completion env) outcomes, this), w)
            = (Done (None, ca), w') -> False).
  { intros outcomes e HIn [= Hn _ _].
    destruct (async_first_error_Some (completion env) outcomes e HIn) as (e' & He' & _).
    congruence. }
  destruct r1 as [e1 | certText].
  { intros H. exfalso. eapply Hno; [| exact H]. left. reflexivity. }
  destruct r2 as [e2 | privateText].
  { intros H. exfalso. eapply Hno; [| exact H]. right. left. reflexivity. }
  destruct r3 as [e3 | publicText].
  { intros H. exfalso. eapply Hno; [| exact H]. right. right. left. reflexivity. }
  apply readFile_inr in E1, E2, E3.
  unfold mbind, M_bind, decoded, throw, mret, M_ret.
  destruct (certificateFromPem certText) as [e | cert] eqn:D1; [discriminate |].
  destruct (privateKeyFromPem privateText) as [e | priv] eqn:D2; [discriminate |].
  destruct (publicKeyFromPem publicText) as [e | pub] eqn:D3; [discriminate |].
  intros [= <- <-].
  exists certText, privateText, publicText, cert, priv, pub. repeat split; assumption.
Qed.

(** A successful load depends on the surroundings only through what they
    let it read. *)
Lemma loadCA_success_any_env env env' this ca w w' :
  (forall path, read_error env' path = read_error env path) ->
  loadCA env this w = (Done (None, ca), w') ->
  loadCA env' this w = (Done (None, ca), w').
Proof.
  intros Hread. unfold loadCA. rewrite !(readFile_agree env env') by apply Hread.
  destruct (readFile_run env (path_join (certsFolder this) "ca.pem") w) as (r1 & E1 & _).
  destruct (readFile_run env (path_join (keysFolder this) "ca.private.key") w) as (r2 & E2 & _).
  destruct (readFile_run env (path_join (keysFolder this) "ca.public.key") w) as (r3 & E3 & _).
  rewrite !(bind_done _ _ _ _ _ E1), !(bind_done _ _ _ _ _ E2), !(bind_done _ _ _ _ _ E3).
  assert (Hno : forall outcomes e, In (Some e) outcomes ->
            (Done (async_first_error (completion env) outcomes, this), w)
            = (Done (None, ca), w') -> False).
  { intros outcomes e HIn [= Hn _ _].
    destruct (async_first_error_Some (completion env) outcomes e HIn) as (e' & He' & _).
    congruence. }
  destruct r1 as [e1 | certText].
  { intros H. exfalso. eapply Hno; [| exact H]. left. reflexivity. }
  destruct r2 as [e2 | privateText].
  { intros H. exfalso. eapply Hno; [| exact H]. right. left. reflexivity. }
  destruct r3 as [e3 | publicText].
  { intros H. exfalso. eapply Hno; [| exact H]. right. right. left. reflexivity. }
  tauto.
Qed.

(** *** [generateCA] *)

Lemma generateCA_keygen_failure env this err w :
  keygen env (keygens w) = inl err ->
  generateCA env this w = (Done (Some err, this), advanced 1 0 0 w).
Proof.
  intros Hg. unfold generateCA. step. rewrite Hg. reflexivity.
Qed.

(** After a successful key generation: the root certificate, field by field,
    the error the callback receives and the files left behind. *)
Lemma generateCA_run env this keys w :
  keygen env (keygens w) = inr keys ->
  exists cert w',
    generateCA env this w
    = (Done (async_first_error (completion env)
               [ write_error env (path_join (certsFolder this) "ca.pem");
                 write_error env (path_join (keysFolder this) "ca.private.key");
                 write_error env (path_join (keysFolder this) "ca.public.key") ],
             with_root this cert keys), w')
    /\ files w'
       = stored env (path_join (keysFolder this) "ca.public.key")
           (publicKeyToPem (publicKey keys))
           (stored env (path_join (keysFolder this) "ca.private.key")
              (privateKeyToPem (privateKey keys))
              (stored env (path_join (certsFolder this) "ca.pem")
                 (certificateToPem cert) (files w)))
    /\ cert_publicKey cert = publicKey keys
    /\ serialNumber cert = serial_at env (random_draws w)
    /\ notBefore cert
       = JsDate.setDate (LocalTZA env) (clock env (clock_reads w))
           (JsDate.getDate (LocalTZA env) (clock env (clock_reads w)) - 1)
    /\ notAfter cert
       = JsDate.setFullYear (LocalTZA env) (clock env (S (clock_reads w)))
           (JsDate.getFullYear (LocalTZA env) (notBefore cert) + 1)
    /\ subject cert = CA_ATTRIBUTES
    /\ issuer cert = CA_ATTRIBUTES
    /\ extensions cert = CA_EXTENSIONS
    /\ md cert = Some sha256
    /\ signature cert
       = Some (rsa_sign (privateKey keys) sha256 (to_be_signed sha256 cert)).
Proof.
  intros Hg. do 2 eexists. split.
  - unfold generateCA. step. rewrite Hg. step. step. step. cbv zeta.
    cbn [certsFolder keysFolder with_root].
    rewrite !(bind_done _ _ _ _ _ (writeFile_run _ _ _ _)).
    reflexivity.
  - cbn [signature Certificate_sign cert_publicKey serialNumber
         notBefore notAfter subject issuer extensions md
         files with_files clock_reads random_draws keygens advanced Nat.add].
    do 9 (split; [reflexivity |]).
    rewrite to_be_signed_sign. reflexivity.
Qed.

(** C1. When the root certificate file is there, [create] loads: it is
    [loadCA] on the started object, no key pair is generated, no random value
    or clock reading is taken and no file is touched.  With the three files
    of the store there, readable and decoding, it succeeds, and so does a
    second [create] on what the first left behind: both yield the
    certificate and the keys the files decode to, hence the same subject,
    issuer and public key.  In any case the second has the outcome of the
    first, and after a success it yields the same authority under any
    surroundings that let it read what the first read. *)
Theorem create_loads_existing_root env caFolder data w :
  files w !! ca_pem caFolder = Some data ->
  folders_made env caFolder ->
  create env caFolder w = loadCA env (started caFolder) (with_folders caFolder w)
  /\ snd (create env caFolder w) = with_folders caFolder w
  /\ files (snd (create env caFolder w)) = files w
  /\ keygens (snd (create env caFolder w)) = keygens w
  /\ random_draws (snd (create env caFolder w)) = random_draws w
  /\ create env caFolder (snd (create env caFolder w)) = create env caFolder w
  /\ (forall privateText publicText root priv pub,
        root_readable env caFolder ->
        files w !! ca_private_key caFolder = Some privateText ->
        files w !! ca_public_key caFolder = Some publicText ->
        certificateFromPem data = inr root ->
        privateKeyFromPem privateText = inr priv ->
        publicKeyFromPem publicText = inr pub ->
        exists ca,
          fst (create env caFolder w) = Done (None, ca)
          /\ fst (create env caFolder (snd (create env caFolder w)))
             = Done (None, ca)
          /\ CAcert ca = Some root
          /\ CAkeys ca = Some {| privateKey := priv; publicKey := pub |}
          /\ baseCAFolder ca = caFolder)
  /\ (forall ca,
        fst (create env caFolder w) = Done (None, ca) ->
        exists root rootKeys,
          CAcert ca = Some root /\ CAkeys ca = Some rootKeys
          /\ certificateFromPem data = inr root
          /\ forall env',
               folders_made env' caFolder ->
               (forall path, read_error env' path = read_error env path) ->
               fst (create env' caFolder (snd (create env caFolder w)))
               = Done (None, ca)).
Proof.
  intros Hfile Hdirs.
  pose proof (root_present_file caFolder data w Hfile) as Hp.
  assert (Hrun : forall env0,
            folders_made env0 caFolder ->
            create env0 caFolder w
            = loadCA env0 (started caFolder) (with_folders caFolder w)).
  { intros env0 H0. now rewrite create_run, Hp. }
  assert (Hsnd : snd (create env caFolder w) = with_folders caFolder w).
  { rewrite Hrun by exact Hdirs. apply loadCA_world. }
  assert (Hagain : forall env0,
            folders_made env0 caFolder ->
            create env0 caFolder (with_folders caFolder w)
            = create env0 caFolder w).
  { intros env0 H0.
    now rewrite !create_run, root_present_with_folders, with_folders_idempotent. }
  split; [now apply Hrun |].
  split; [exact Hsnd |].
  rewrite Hsnd.
  split; [reflexivity |]. split; [reflexivity |]. split; [reflexivity |].
  split; [now apply Hagain |].
  split.
  - intros privateText publicText root priv pub (R1 & R2 & R3) H2 H3 D1 D2 D3.
    exists (with_root (started caFolder) root {| privateKey := priv; publicKey := pub |}).
    rewrite Hagain, Hrun by exact Hdirs.
    rewrite (loadCA_decodes env (started caFolder) data privateText publicText
               (with_folders caFolder w) Hfile H2 H3 R1 R2 R3).
    rewrite D1, D2, D3. repeat split.
  - intros ca Hca.
    assert (Hload : loadCA env (started caFolder) (with_folders caFolder w)
                    = (Done (None, ca), with_folders caFolder w)).
    { rewrite <- Hrun by exact Hdirs. rewrite <- Hsnd, <- Hca.
      now destruct (create env caFolder w). }
    destruct (loadCA_success _ _ _ _ _ Hload)
      as (certText & privateText & publicText & root & priv & pub
          & G1 & _ & _ & D1 & _ & _ & -> & _).
    assert (Hdata : certText = data).
    { change (files (with_folders caFolder w) !! ca_pem caFolder = Some certText) in G1.
      change (files (with_folders caFolder w)) with (files w) in G1. congruence. }
    subst certText.
    exists root, {| privateKey := priv; publicKey := pub |}.
    split; [reflexivity |]. split; [reflexivity |]. split; [exact D1 |].
    intros env' Hdirs' Hread. rewrite Hagain, Hrun by exact Hdirs'.
    now rewrite (loadCA_success_any_env env env' _ _ _ _ Hread Hload).
Qed.

(** When the three files of the root store are there and one of them does
    not decode, [create] ends in what the decoder throws: the callback is
    not called, with an error or without, and the store stays as it is. *)
Lemma create_on_corrupt_store env caFolder certText privateText publicText w :
  folders_made env caFolder ->
  root_readable env caFolder ->
  files w !! ca_pem caFolder = Some certText ->
  files w !! ca_private_key caFolder = Some privateText ->
  files w !! ca_public_key caFolder = Some publicText ->
  ((exists e, certificateFromPem certText = inl e)
   \/ (exists e, privateKeyFromPem privateText = inl e)
   \/ (exists e, publicKeyFromPem publicText = inl e)) ->
  exists e,
    create env caFolder w = (Threw e, with_folders caFolder w)
    /\ files (with_folders caFolder w) = files w
    /\ keygens (with_folders caFolder w) = keygens w.
Proof.
  intros Hdirs (R1 & R2 & R3) H1 H2 H3 Hbad.
  rewrite create_run, (root_present_file caFolder certText w H1) by exact Hdirs.
  rewrite (loadCA_decodes env (started caFolder) certText privateText publicText)
    by assumption.
  destruct (certificateFromPem certText) as [e | cert];
    [exists e; repeat split |].
  destruct (privateKeyFromPem privateText) as [e | priv];
    [exists e; repeat split |].
  destruct (publicKeyFromPem publicText) as [e | pub];
    [exists e; repeat split |].
  destruct Hbad as [[e H] | [[e H] | [e H]]]; discriminate.
Qed.

(** C7. When [create] finds no root certificate and one of the three writes
    of the new root fails, the callback receives an error: that of a write,
    or that of the key generation when it failed before. *)
Theorem root_persistence_failure_is_reported env caFolder w :
  folders_made env caFolder ->
  root_present caFolder w = false ->
  (is_Some (write_error env (ca_pem caFolder))
   \/ is_Some (write_error env (ca_private_key caFolder))
   \/ is_Some (write_error env (ca_public_key caFolder))) ->
  exists e ca w',
    create env caFolder w = (Done (Some e, ca), w')
    /\ (keygen env (keygens w) = inl e
        \/ In (Some e) [ write_error env (ca_pem caFolder);
                         write_error env (ca_private_key caFolder);
                         write_error env (ca_public_key caFolder) ]).
Proof.
  intros Hdirs Hp Hfail. rewrite create_run, Hp by exact Hdirs.
  destruct (keygen env (keygens w)) as [err | keys] eqn:Hg.
  - do 3 eexists. split; [apply generateCA_keygen_failure; exact Hg | now left].
  - destruct (generateCA_run env (started caFolder) keys (with_folders caFolder w) Hg)
      as (cert & w' & Hrun & _).
    assert (Hin : exists e0,
              In (Some e0) [ write_error env (ca_pem caFolder);
                             write_error env (ca_private_key caFolder);
                             write_error env (ca_public_key caFolder) ]).
    { destruct Hfail as [[e0 H] | [[e0 H] | [e0 H]]]; exists e0; rewrite <- H; simpl; auto. }
    destruct Hin as (e0 & Hin).
    destruct (async_first_error_Some (completion env) _ e0 Hin) as (e & He & HIn).
    exists e, (with_root (started caFolder) cert keys), w'. split; [| now right].
    rewrite Hrun. unfold ca_pem, ca_private_key, ca_public_key in He.
    cbn [certsFolder keysFolder started]. now rewrite He.
Qed.

(** When a directory cannot be made, [create] throws at once. *)
Lemma create_when_mkdir_fails env caFolder e w :
  mkdir_error env caFolder = Some e ->
  create env caFolder w = (Threw e, w).
Proof.
  intros H. unfold create. cbv zeta. cbn [baseCAFolder].
  apply bind_threw. unfold mkdirp_sync. now rewrite H.
Qed.

(** *** Validity *)

(** The window in numbers, for a zone whose offset changes by an hour at
    most: back-dated by 23 to 25 hours and, from there, 366 or 367 days
    long, give or take two hours, plus the time between the two readings of
    the clock. *)
Lemma window_as_built_bounds (delta now1 now2 : Z) (c : Certificate) :
  window_as_built delta now1 now2 c ->
  (now1 <= now2)%Z ->
  (delta <= JsDate.msPerHour)%Z ->
  (now1 - 25 * JsDate.msPerHour <= notBefore c <= now1 - 23 * JsDate.msPerHour)%Z
  /\ (notBefore c + 366 * JsDate.msPerDay - 2 * delta <= notAfter c
      <= notBefore c + 367 * JsDate.msPerDay + 2 * delta + (now2 - now1))%Z.
Proof.
  unfold window_as_built, near, JsDate.msPerHour, JsDate.msPerDay.
  intros [Hb [Ha | Ha]] Hle Hd; lia.
Qed.

(** Where the offset does not change the window is exact. *)
Lemma window_as_built_exact (now1 now2 : Z) (c : Certificate) :
  window_as_built 0 now1 now2 c ->
  notBefore c = (now1 - JsDate.msPerDay)%Z
  /\ (notAfter c = (now2 + 365 * JsDate.msPerDay)%Z
      \/ notAfter c = (now2 + 366 * JsDate.msPerDay)%Z).
Proof. unfold window_as_built, near. intros [Hb [Ha | Ha]]; lia. Qed.

(** C4, as the code has it.  For the root made by [generateCA] and for every
    leaf, in a zone whose offsets differ by [delta] at most around the two
    readings of the clock: [notBefore] is the first reading less one day of
    local time, which is 24 hours give or take [delta]; when that moment
    lies in the same local year as the second reading, [notAfter] is the
    second reading plus one calendar year of local time, 365 or 366 days
    give or take [delta].  With a change of an hour at most, [notBefore] is
    23 to 25 hours back and the window from it 366 or 367 days long, give or
    take two hours; without a change it is 24 hours back and the window 366
    or 367 days long. *)
Theorem validity_window_is_a_day_and_a_year env this keys delta w :
  keygen env (keygens w) = inr keys ->
  JsDate.steady_zone (LocalTZA env) delta (clock env (clock_reads w))
    (clock env (S (clock_reads w))) ->
  JsDate.getFullYear (LocalTZA env)
    (JsDate.setDate (LocalTZA env) (clock env (clock_reads w))
       (JsDate.getDate (LocalTZA env) (clock env (clock_reads w)) - 1))
  = JsDate.getFullYear (LocalTZA env) (clock env (S (clock_reads w))) ->
  (exists err root w',
     generateCA env this w = (Done (err, with_root this root keys), w')
     /\ window_as_built delta (clock env (clock_reads w))
          (clock env (S (clock_reads w))) root)
  /\ (forall root rootKeys host rest,
        opened this root rootKeys ->
        altNames_error (map altName_of_host (host :: rest)) = None ->
        exists certServer w1,
          signServerCertificate env this (HostArray (host :: rest)) w
          = (Done (certServer, keys), w1)
          /\ window_as_built delta (clock env (clock_reads w))
               (clock env (S (clock_reads w))) certServer)
  /\ (forall c,
        window_as_built delta (clock env (clock_reads w))
          (clock env (S (clock_reads w))) c ->
        (clock env (clock_reads w) <= clock env (S (clock_reads w)))%Z ->
        (delta <= JsDate.msPerHour)%Z ->
        (clock env (clock_reads w) - 25 * JsDate.msPerHour <= notBefore c
         <= clock env (clock_reads w) - 23 * JsDate.msPerHour)%Z
        /\ (notBefore c + 366 * JsDate.msPerDay - 2 * delta <= notAfter c
            <= notBefore c + 367 * JsDate.msPerDay + 2 * delta
               + (clock env (S (clock_reads w)) - clock env (clock_reads w)))%Z)
  /\ (forall c,
        delta = 0%Z ->
        window_as_built delta (clock env (clock_reads w))
          (clock env (S (clock_reads w))) c ->
        notBefore c = (clock env (clock_reads w) - JsDate.msPerDay)%Z
        /\ (notAfter c = (clock env (S (clock_reads w)) + 365 * JsDate.msPerDay)%Z
            \/ notAfter c
               = (clock env (S (clock_reads w)) + 366 * JsDate.msPerDay)%Z)).
Proof.
  intros Hg Hz Hy.
  pose proof (JsDateFacts.notBefore_near (LocalTZA env) _ _ delta
                (clock env (clock_reads w)) Hz
                ltac:(unfold JsDate.msPerDay; lia) ltac:(unfold JsDate.msPerDay; lia))
    as Hb.
  pose proof (JsDateFacts.notAfter_a_year_on (LocalTZA env) _ _ delta _
                (clock env (S (clock_reads w))) Hz
                ltac:(unfold JsDate.msPerDay; lia) ltac:(unfold JsDate.msPerDay; lia)
                Hy)
    as Ha.
  split; [| split; [| split]].
  - destruct (generateCA_run env this keys w Hg)
      as (root & w' & Hrun & _ & _ & _ & Hnb & Hna & _).
    do 3 eexists. split; [exact Hrun |].
    unfold window_as_built, near. rewrite Hna, Hnb. split; [exact Hb | exact Ha].
  - intros root rootKeys host rest Hop Hn.
    destruct (signServerCertificate_run env this root rootKeys keys host rest w
                Hop Hg Hn)
      as (certServer & Hrun & _ & _ & Hnb & Hna & _).
    do 2 eexists. split; [exact Hrun |].
    unfold window_as_built, near. rewrite Hna, Hnb. split; [exact Hb | exact Ha].
  - intros c. apply window_as_built_bounds.
  - intros c ->. apply window_as_built_exact.
Qed.

(** *** Serial numbers *)


(** *** The chain from root to leaf *)

(** The leaf takes the issuer name of the root for its own issuer name and
    is signed with the private key held next to the root, with SHA-256.
    Where the root names itself as its issuer, the issuer of the leaf is the
    subject of the root. *)
Lemma leaf_chain env this root rootKeys keysServer host rest w :
  opened this root rootKeys ->
  keygen env (keygens w) = inr keysServer ->
  altNames_error (map altName_of_host (host :: rest)) = None ->
  exists certServer w1,
    signServerCertificate env this (HostArray (host :: rest)) w
    = (Done (certServer, keysServer), w1)
    /\ issuer certServer = issuer root
    /\ (subject root = issuer root -> issuer certServer = subject root)
    /\ md certServer = Some sha256
    /\ signature certServer
       = Some (rsa_sign (privateKey rootKeys) sha256 (to_be_signed sha256 certServer))
    /\ ((forall digest c,
           rsa_verify (publicKey rootKeys) digest c
             (rsa_sign (privateKey rootKeys) digest c) = true) ->
        signature_verifies (publicKey rootKeys) certServer = true).
Proof.
  intros Hop Hg Ha.
  destruct (signServerCertificate_run env this root rootKeys keysServer host rest w
              Hop Hg Ha)
    as (certServer & Hrun & _ & _ & _ & _ & _ & Hiss & _ & Hmd & Hsig).
  exists certServer. eexists. split; [exact Hrun |].
  split; [exact Hiss |]. split; [congruence |].
  split; [exact Hmd |]. split; [exact Hsig |].
  intros Hlaw. unfold signature_verifies. rewrite Hmd, Hsig. apply Hlaw.
Qed.

(** A root made by [generateCA] names itself as its issuer. *)
Lemma generated_root_is_self_issued env this keys w :
  keygen env (keygens w) = inr keys ->
  exists err root w',
    generateCA env this w = (Done (err, with_root this root keys), w')
    /\ subject root = issuer root.
Proof.
  intros Hg.
  destruct (generateCA_run env this keys w Hg)
    as (root & w' & Hrun & _ & _ & _ & _ & _ & Hs & Hi & _).
  do 3 eexists. split; [exact Hrun | congruence].
Qed.

End Properties.

(** ** The properties on the small instance *)

Section OnTheSmallInstance.

#[local] Existing Instance Toy.keys.
#[local] Existing Instance Toy.forge.

Lemma sound_store_opens :
  create Toy.env "/ca" Toy.sound_store
  = (Done (None, Toy.authority), with_folders "/ca" Toy.sound_store).
Proof. vm_compute. reflexivity. Qed.

Lemma authority_is_opened :
  opened Toy.authority (Toy.self_issued "01") Toy.root_keys.
Proof. split; reflexivity. Qed.

(** C2, on a store whose root certificate was issued to a branch by another
    authority: [create] loads it, and the leaf then issued names that other
    authority as its issuer, not the subject of the root that signed it. *)
Theorem leaf_issuer_is_not_root_subject :
  let opening := create Toy.env "/ca" Toy.branch_store in
  let root := Toy.issued_to_branch "07" in
  let ca :=
    {| baseCAFolder := "/ca"; certsFolder := "/ca/certs"; keysFolder := "/ca/keys";
       CAcert := Some root; CAkeys := Some Toy.root_keys |} in
  fst opening = Done (None, ca)
  /\ exists certServer w',
       signServerCertificate Toy.env ca (HostArray ["example.com"]) (snd opening)
       = (Done (certServer, Toy.leaf_keys), w')
       /\ issuer certServer = issuer root
       /\ issuer certServer <> subject root
       /\ subject root <> issuer root.
Proof.
  cbv zeta. split; [vm_compute; reflexivity |].
  destruct (leaf_chain (FG := Toy.forge) Toy.env
              {| baseCAFolder := "/ca"; certsFolder := "/ca/certs";
                 keysFolder := "/ca/keys";
                 CAcert := Some (Toy.issued_to_branch "07");
                 CAkeys := Some Toy.root_keys |}
              (Toy.issued_to_branch "07") Toy.root_keys Toy.leaf_keys
              "example.com" [] (snd (create Toy.env "/ca" Toy.branch_store))
              (conj eq_refl eq_refl) eq_refl eq_refl)
    as (certServer & w1 & Hrun & Hiss & _).
  exists certServer, w1. split; [exact Hrun |]. split; [exact Hiss |].
  split; [rewrite Hiss |]; discriminate.
Qed.

Lemma store_files certText :
  files (Toy.store certText) !! ca_pem "/ca" = Some certText
  /\ files (Toy.store certText) !! ca_private_key "/ca" = Some "PRIVATE:d0"
  /\ files (Toy.store certText) !! ca_public_key "/ca" = Some "PUBLIC:n0".
Proof.
  unfold Toy.store, ca_pem, ca_private_key, ca_public_key. cbn [files path_join Toy.forge].
  split; [apply lookup_insert_eq |].
  split.
  - rewrite lookup_insert_ne by discriminate. apply lookup_insert_eq.
  - rewrite !lookup_insert_ne by discriminate. apply lookup_singleton_eq.
Qed.

(** C5, on a store whose certificate file was cut: [create] ends in the
    error the decoder throws.  The callback is called neither with an error
    nor without one; the files stay as they were and no key is generated. *)
Theorem corrupt_root_store_throws :
  create Toy.env "/ca" Toy.corrupt_store
  = (Threw Toy.pem_error, with_folders "/ca" Toy.corrupt_store)
  /\ (forall err ca w',
        create Toy.env "/ca" Toy.corrupt_store <> (Done (err, ca), w'))
  /\ files (with_folders "/ca" Toy.corrupt_store) = files Toy.corrupt_store
  /\ keygens (with_folders "/ca" Toy.corrupt_store) = 0.
Proof.
  assert (H : create Toy.env "/ca" Toy.corrupt_store
              = (Threw Toy.pem_error, with_folders "/ca" Toy.corrupt_store)).
  { vm_compute. reflexivity. }
  split; [exact H |]. split; [| split; reflexivity].
  intros err ca w'. rewrite H. discriminate.
Qed.

(** C4 as the specification words it fails on 1 June 2023: the root made at
    noon is valid for 367 days from its back-dated start, 29 February 2024
    lying in between. *)
Lemma validity_window_can_be_367_days :
  exists root w',
    create Toy.env "/ca" Toy.empty_world
    = (Done (None, with_root (started "/ca") root Toy.leaf_keys), w')
    /\ notAfter root = (notBefore root + 367 * JsDate.msPerDay)%Z
    /\ ~ window_as_specified (clock Toy.env 0) root.
Proof.
  destruct (generateCA_run Toy.env (started "/ca") Toy.leaf_keys
              (with_folders "/ca" Toy.empty_world) eq_refl)
    as (root & w' & Hrun & _ & _ & _ & Hnb & Hna & _).
  exists root, w'.
  assert (Hb : notBefore root = 1685534400000%Z)
    by (rewrite Hnb; vm_compute; reflexivity).
  assert (Ha : notAfter root = 1717243200000%Z)
    by (rewrite Hna, Hb; vm_compute; reflexivity).
  split; [| split].
  - rewrite create_run by (repeat split).
    change (root_present "/ca" Toy.empty_world) with false.
    cbv iota. rewrite Hrun. reflexivity.
  - rewrite Ha, Hb. reflexivity.
  - unfold window_as_specified. rewrite Ha, Hb.
    unfold JsDate.msPerDay. lia.
Qed.

(** On the first of January the root made at noon expires at noon. *)
Example root_made_on_new_years_day :
  exists root w',
    create Toy.env_new_year "/ca" Toy.empty_world
    = (Done (None, with_root (started "/ca") root Toy.leaf_keys), w')
    /\ notBefore root = (clock Toy.env_new_year 0 - JsDate.msPerDay)%Z
    /\ notAfter root = clock Toy.env_new_year 1.
Proof.
  destruct (generateCA_run Toy.env_new_year (started "/ca") Toy.leaf_keys
              (with_folders "/ca" Toy.empty_world) eq_refl)
    as (root & w' & Hrun & _ & _ & _ & Hnb & Hna & _).
  exists root, w'. split; [| split].
  - rewrite create_run by (repeat split).
    change (root_present "/ca" Toy.empty_world) with false.
    cbv iota. rewrite Hrun. reflexivity.
  - rewrite Hnb. vm_compute. reflexivity.
  - rewrite Hna, Hnb. vm_compute. reflexivity.
Qed.

(** On the day the clocks have gone forward the root made at noon is
    back-dated by 23 hours: the day before had the earlier offset. *)
Example root_made_after_the_clocks_went_forward :
  exists root w',
    create Scenes.clocks_gone_forward "/ca" Toy.empty_world
    = (Done (None, with_root (started "/ca") root Toy.leaf_keys), w')
    /\ notBefore root
       = (clock Scenes.clocks_gone_forward 0 - 23 * JsDate.msPerHour)%Z
    /\ notAfter root
       = (clock Scenes.clocks_gone_forward 1 + 366 * JsDate.msPerDay)%Z.
Proof.
  destruct (generateCA_run Scenes.clocks_gone_forward (started "/ca") Toy.leaf_keys
              (with_folders "/ca" Toy.empty_world) eq_refl)
    as (root & w' & Hrun & _ & _ & _ & Hnb & Hna & _).
  exists root, w'. split; [| split].
  - rewrite create_run by (repeat split).
    change (root_present "/ca" Toy.empty_world) with false.
    cbv iota. rewrite Hrun. reflexivity.
  - rewrite Hnb. vm_compute. reflexivity.
  - rewrite Hna, Hnb. vm_compute. reflexivity.
Qed.

(** *** Instances of the statements *)

Lemma create_loads_existing_root_witness :
  files Toy.sound_store !! ca_pem "/ca" = Some "CERT:01"
  /\ folders_made Toy.env "/ca"
  /\ create Toy.env "/ca" (snd (create Toy.env "/ca" Toy.sound_store))
     = create Toy.env "/ca" Toy.sound_store
  /\ exists ca,
       fst (create Toy.env "/ca" Toy.sound_store) = Done (None, ca)
       /\ fst (create Toy.env "/ca" (snd (create Toy.env "/ca" Toy.sound_store)))
          = Done (None, ca)
       /\ CAcert ca = Some (Toy.self_issued "01")
       /\ CAkeys ca = Some Toy.root_keys.
Proof.
  assert (Hfile : files Toy.sound_store !! ca_pem "/ca" = Some "CERT:01")
    by (vm_compute; reflexivity).
  assert (Hdirs : folders_made Toy.env "/ca") by (repeat split).
  split; [exact Hfile |]. split; [exact Hdirs |].
  destruct (create_loads_existing_root Toy.env "/ca" "CERT:01" Toy.sound_store
              Hfile Hdirs)
    as (_ & _ & _ & _ & _ & Hagain & Hsucc & _).
  split; [exact Hagain |].
  destruct (Hsucc "PRIVATE:d0" "PUBLIC:n0" (Toy.self_issued "01") "d0" "n0")
    as (ca & H1 & H2 & Hc & Hk & _).
  - repeat split.
  - vm_compute; reflexivity.
  - vm_compute; reflexivity.
  - reflexivity.
  - reflexivity.
  - reflexivity.
  - exists ca. split; [exact H1 |]. split; [exact H2 |]. split; [exact Hc | exact Hk].
Defined.

Lemma subjectAltName_mirrors_hosts_witness :
  opened Toy.authority (Toy.self_issued "01") Toy.root_keys
  /\ keygen Toy.env (keygens Toy.sound_store) = inr Toy.leaf_keys
  /\ altNames_error
       (map altName_of_host ["example.com"; "192.0.2.5"; "*.example.com"]) = None
  /\ exists certServer w1,
       signServerCertificate Toy.env Toy.authority
         (HostArray ["example.com"; "192.0.2.5"; "*.example.com"]) Toy.sound_store
       = (Done (certServer, Toy.leaf_keys), w1)
       /\ extensions certServer
          = (SERVER_EXTENSIONS
             ++ [subjectAltName [DNSName "example.com"; IPAddress "192.0.2.5";
                                 DNSName "*.example.com"]])%list.
Proof.
  split; [split; reflexivity |]. split; [reflexivity |]. split; [reflexivity |].
  destruct (subjectAltName_mirrors_hosts (FG := Toy.forge) Toy.env Toy.authority
              (Toy.self_issued "01") Toy.root_keys Toy.leaf_keys
              "example.com" ["192.0.2.5"; "*.example.com"] Toy.sound_store
              (conj eq_refl eq_refl) eq_refl eq_refl)
    as (certServer & altNames & w1 & w' & Hs & _ & Hext & _ & _ & Hex).
  exists certServer, w1. split; [exact Hs |].
  rewrite Hext, (Hex eq_refl). reflexivity.
Defined.

Lemma cache_file_name_replaces_stars_witness :
  opened Toy.authority (Toy.self_issued "01") Toy.root_keys
  /\ keygen Toy.env (keygens Toy.sound_store) = inr Toy.leaf_keys
  /\ altNames_error (map altName_of_host ["*.example.com"]) = None
  /\ exists certServer w',
       generateServerCertificateKeys Toy.env Toy.authority
         (HostArray ["*.example.com"]) Toy.sound_store
       = (Done (certificateToPem certServer, "PRIVATE:d1"), w')
       /\ files w' !! "/ca/certs/_.example.com.pem" = Some (certificateToPem certServer)
       /\ files w' !! "/ca/keys/_.example.com.key" = Some "PRIVATE:d1"
       /\ files w' !! "/ca/keys/_.example.com.public.key" = Some "PUBLIC:n1"
       /\ subject certServer
          = {| attr_key := Name "commonName"; attr_value := Some "*.example.com" |}
              :: SERVER_ATTRIBUTES.
Proof.
  split; [split; reflexivity |]. split; [reflexivity |]. split; [reflexivity |].
  destruct (cache_file_name_replaces_stars (FG := Toy.forge) Toy.env Toy.authority
              (Toy.self_issued "01") Toy.root_keys Toy.leaf_keys
              "*.example.com" [] Toy.sound_store
              (conj eq_refl eq_refl) eq_refl eq_refl)
    as (certServer & w1 & w' & _ & Hrun & Hfiles & _ & _ & _ & Hsub & _).
  exists certServer, w'. split; [exact Hrun |].
  rewrite Hfiles. unfold stored. cbn [write_error Toy.env Toy.surroundings].
  split; [| split; [| split; [| exact Hsub]]].
  - rewrite !lookup_insert_ne by discriminate. apply lookup_insert_eq.
  - rewrite lookup_insert_ne by discriminate. apply lookup_insert_eq.
  - apply lookup_insert_eq.
Defined.

Lemma leaf_persistence_is_best_effort_witness :
  opened Toy.authority (Toy.self_issued "01") Toy.root_keys
  /\ keygen Toy.env (keygens Toy.sound_store) = inr Toy.leaf_keys
  /\ altNames_error (map altName_of_host ["example.com"]) = None
  /\ exists certServer w1 w2 w3,
       signServerCertificate Toy.env Toy.authority (HostArray ["example.com"])
         Toy.sound_store
       = (Done (certServer, Toy.leaf_keys), advanced 1 4 2 Toy.sound_store)
       /\ generateServerCertificateKeys_cb Toy.env Toy.authority
            (HostArray ["example.com"])
            (call (Function (fun certPem keyPrivatePem =>
                               console_error certPem (ForgeError keyPrivatePem))))
            Toy.sound_store
          = (Done tt, w1)
       /\ generateServerCertificateKeys_cb Toy.env_read_only Toy.authority
            (HostArray ["example.com"]) (call NotAFunction) Toy.sound_store
          = (Threw (TypeError "cb is not a function"), w2)
       /\ generateServerCertificateKeys_cb Scenes.last_first Toy.authority
            (HostArray ["example.com"]) (call (Function (fun _ _ => mret tt)))
            Toy.sound_store
          = (Done tt, w3)
       /\ console w1
          = [("CERT:000000ff000100ff000200ff000300ff", ForgeError "PRIVATE:d1")]
       /\ length (console w2) = 3
       /\ map fst (console w3)
          = [ "Failed to save public key to disk in /ca/keys";
              "Failed to save certificate to disk in /ca/certs";
              "Failed to save private key to disk in /ca/keys" ].
Proof.
  split; [split; reflexivity |]. split; [reflexivity |]. split; [reflexivity |].
  destruct (leaf_persistence_is_best_effort (FG := Toy.forge) Toy.env Toy.authority
              (Toy.self_issued "01") Toy.root_keys Toy.leaf_keys
              "example.com" [] Toy.sound_store
              (conj eq_refl eq_refl) eq_refl eq_refl)
    as (certServer & Hs & _ & _ & H).
  destruct (leaf_persistence_is_best_effort (FG := Toy.forge) Scenes.last_first
              Toy.authority (Toy.self_issued "01") Toy.root_keys Toy.leaf_keys
              "example.com" [] Toy.sound_store
              (conj eq_refl eq_refl) eq_refl eq_refl)
    as (certServer' & Hs' & _ & _ & H').
  cbv zeta in H, H'.
  destruct (H (fun _ => None) (fun _ => None)
              (Function (fun certPem keyPrivatePem =>
                           console_error certPem (ForgeError keyPrivatePem))))
    as (w1 & Hrun1 & Hcon1 & Hsaid1 & _).
  destruct (H (fun path => Some (SystemError "EACCES" path)) (fun _ => None)
              NotAFunction)
    as (w2 & Hrun2 & Hcon2 & Hsaid2 & _).
  destruct (H' (fun path => Some (SystemError "EACCES" path)) (fun _ => None)
               (Function (fun _ _ => mret tt)))
    as (w3 & Hrun3 & Hcon3 & _).
  assert (Hcert : certificateToPem certServer
                  = "CERT:000000ff000100ff000200ff000300ff").
  { vm_compute in Hs. injection Hs as <-. reflexivity. }
  exists certServer, w1, w2, w3.
  split; [exact Hs |]. split; [exact Hrun1 |]. split; [exact Hrun2 |].
  split; [exact Hrun3 |].
  split; [| split].
  - rewrite Hcon1.
    apply Permutation_length in Hsaid1.
    destruct (complaints _ _) as [| line lines]; [| discriminate].
    cbn [call console_error snd with_console console]. rewrite Hcert.
    vm_compute. reflexivity.
  - rewrite Hcon2, length_app, (Permutation_length Hsaid2). reflexivity.
  - rewrite Hcon3. vm_compute. reflexivity.
Defined.

Lemma issuance_needs_an_array_witness :
  opened Toy.authority (Toy.self_issued "01") Toy.root_keys
  /\ keygen Toy.env (keygens Toy.sound_store) = inr Toy.leaf_keys
  /\ generateServerCertificateKeys Toy.env Toy.authority
       (HostString "example.com") Toy.sound_store
     = (Threw (TypeError "hosts.map is not a function"),
        advanced 1 4 2 Toy.sound_store)
  /\ exists texts w',
       generateServerCertificateKeys Toy.env Toy.authority
         (HostArray ["example.com"]) Toy.sound_store
       = (Done texts, w').
Proof.
  split; [split; reflexivity |]. split; [reflexivity |].
  destruct (issuance_needs_an_array Toy.env Toy.authority
              (Toy.self_issued "01") Toy.root_keys Toy.leaf_keys Toy.sound_store
              (conj eq_refl eq_refl) eq_refl)
    as (Hstring & Harray).
  split; [apply Hstring |].
  apply Harray. exists "example.com", []. split; reflexivity.
Defined.

Lemma validity_window_is_a_day_and_a_year_witness :
  keygen Toy.env (keygens Toy.empty_world) = inr Toy.leaf_keys
  /\ JsDate.steady_zone (LocalTZA Toy.env) 0 1685620800000 1685620800000
  /\ JsDate.steady_zone (LocalTZA Scenes.clocks_gone_forward) JsDate.msPerHour
       1679832000000 1679832000000
  /\ JsDate.getFullYear (LocalTZA Toy.env)
       (JsDate.setDate (LocalTZA Toy.env) 1685620800000
          (JsDate.getDate (LocalTZA Toy.env) 1685620800000 - 1)) = 2023%Z
  /\ JsDate.getFullYear (LocalTZA Toy.env) 1685620800000 = 2023%Z
  /\ (exists err root w',
        generateCA Toy.env (started "/ca") Toy.empty_world
        = (Done (err, with_root (started "/ca") root Toy.leaf_keys), w')
        /\ window_as_built 0 1685620800000 1685620800000 root)
  /\ (exists err root w',
        generateCA Scenes.clocks_gone_forward (started "/ca") Toy.empty_world
        = (Done (err, with_root (started "/ca") root Toy.leaf_keys), w')
        /\ window_as_built JsDate.msPerHour 1679832000000 1679832000000 root).
Proof.
  assert (Hfixed : JsDate.steady_zone (LocalTZA Toy.env) 0
                      1685620800000 1685620800000).
  { intros t b _.
    cbv [LocalTZA Toy.env Toy.surroundings JsDate.fixed_zone JsDate.msPerDay].
    split; [lia | intros; lia]. }
  assert (Hchange : JsDate.steady_zone (LocalTZA Scenes.clocks_gone_forward)
                      JsDate.msPerHour 1679832000000 1679832000000).
  { intros t b _.
    cbv [LocalTZA Scenes.clocks_gone_forward JsDate.zone_with_change
         JsDate.msPerHour JsDate.msPerDay].
    split; [| intros t' b' _; destruct b'];
      destruct b;
      repeat match goal with
             | |- context [if ?c then _ else _] => destruct c
             end; lia. }
  split; [reflexivity |].
  split; [exact Hfixed |]. split; [exact Hchange |].
  split; [vm_compute; reflexivity |]. split; [vm_compute; reflexivity |].
  split.
  - apply (validity_window_is_a_day_and_a_year Toy.env (started "/ca")
             Toy.leaf_keys 0 Toy.empty_world eq_refl Hfixed).
    vm_compute; reflexivity.
  - apply (validity_window_is_a_day_and_a_year Scenes.clocks_gone_forward
             (started "/ca") Toy.leaf_keys JsDate.msPerHour Toy.empty_world
             eq_refl Hchange).
    vm_compute; reflexivity.
Defined.

Lemma root_persistence_failure_is_reported_witness :
  folders_made Toy.env_read_only "/ca"
  /\ root_present "/ca" Toy.empty_world = false
  /\ is_Some (write_error Toy.env_read_only (ca_pem "/ca"))
  /\ exists e ca w',
       create Toy.env_read_only "/ca" Toy.empty_world = (Done (Some e, ca), w').
Proof.
  split; [repeat split |].
  split; [vm_compute; reflexivity |].
  split; [eexists; reflexivity |].
  destruct (root_persistence_failure_is_reported Toy.env_read_only "/ca"
              Toy.empty_world)
    as (e & ca & w' & Hrun & _).
  - repeat split.
  - vm_compute; reflexivity.
  - left. eexists. reflexivity.
  - exists e, ca, w'. exact Hrun.
Defined.


End OnTheSmallInstance.

(** * Further properties *)

Section FurtherProperties.

Context {KM : KeyMaterial} {FG : @Forge KM}.

Implicit Types (env : Env) (w : World) (this : CA) (l : list string).

(** Evaluates the first action of a sequence by computation. *)
Ltac step := erewrite bind_done by reflexivity.

(** *** Issuing *)

(** X1. [generateServerCertificateKeys] throws for one of two reasons.
    Either a statement before the three writes throws: then no write is
    started, [cb] is not called, and files, directories and console are as
    they were.  Or the call of [cb], the last statement, throws, because
    [cb] does or because it is no function: then a certificate has been
    signed for a non-empty array of names and the three writes have been
    started; they come to their end all the same where the caller catches
    what was thrown, and that is the world given here. *)
Theorem issuance_throws_before_the_writes_or_in_the_callback
    env this hosts (cb : Callback) e w w' :
  generateServerCertificateKeys_cb env this hosts (call cb) w = (Threw e, w') ->
  (signServerCertificate env this hosts w = (Threw e, w')
   /\ files w' = files w /\ dirs w' = dirs w /\ console w' = console w)
  \/ (exists certServer keysServer host rest w2,
        hosts = HostArray (host :: rest)
        /\ signServerCertificate env this hosts w
           = (Done (certServer, keysServer), advanced 1 4 2 w)
        /\ call cb (certificateToPem certServer)
             (privateKeyToPem (privateKey keysServer)) (advanced 1 4 2 w)
           = (Threw e, w2)
        /\ (cb = NotAFunction ->
            e = TypeError "cb is not a function" /\ w2 = advanced 1 4 2 w)
        /\ w' = leaf_written env this (replace_stars host)
                  (certificateToPem certServer)
                  (privateKeyToPem (privateKey keysServer))
                  (publicKeyToPem (publicKey keysServer)) w2).
Proof.
  intros H.
  destruct (signServerCertificate_cases env this hosts w)
    as [(e0 & kg & rd & cr & Hs)
       | (certServer & keysServer & host & rest & root & rootKeys
          & -> & Hop & Hg & Ha & Hs)].
  - left. rewrite (generateServerCertificateKeys_cb_throws _ _ _ _ _ _ _ Hs) in H.
    injection H as <- <-. split; [exact Hs | repeat split].
  - right.
    rewrite (generateServerCertificateKeys_cb_run _ _ _ host _ _ _ _ _ Hs eq_refl) in H.
    destruct (call cb (certificateToPem certServer)
                (privateKeyToPem (privateKey keysServer)) (advanced 1 4 2 w))
      as [r w2] eqn:Hcall.
    cbn [fst snd] in H. injection H as -> <-.
    exists certServer, keysServer, host, rest, w2.
    split; [reflexivity |]. split; [exact Hs |]. split; [exact Hcall |].
    split; [| reflexivity].
    intros ->. cbn [call] in Hcall. unfold throw in Hcall.
    injection Hcall as <- <-. split; reflexivity.
Qed.

(** X2. Without a root certificate or without root keys nothing is issued:
    the call throws, and the files and the console stay as they were. *)
Theorem unopened_authority_issues_nothing env this hosts w :
  CAcert this = None \/ CAkeys this = None ->
  exists e w',
    generateServerCertificateKeys env this hosts w = (Threw e, w')
    /\ files w' = files w /\ console w' = console w.
Proof.
  intros Hnone.
  destruct (signServerCertificate_cases env this hosts w)
    as [(e0 & kg & rd & cr & Hs)
       | (certServer & keysServer & host & rest & root & rootKeys
          & _ & [Hc Hk] & _)].
  - exists e0, (advanced kg rd cr w).
    split; [now apply generateServerCertificateKeys_throws | split; reflexivity].
  - destruct Hnone; congruence.
Qed.

(** The files of two cache entries whose names differ, and of which neither
    is the other with [.public] behind it, are six different paths. *)
Lemma leaf_paths_apart this name other :
  other <> name ->
  other <> name +:+ ".public" ->
  name <> other +:+ ".public" ->
  (leaf_pem this other <> leaf_pem this name
   /\ leaf_pem this other <> leaf_key this name
   /\ leaf_pem this other <> leaf_public_key this name)
  /\ (leaf_key this other <> leaf_pem this name
      /\ leaf_key this other <> leaf_key this name
      /\ leaf_key this other <> leaf_public_key this name)
  /\ (leaf_public_key this other <> leaf_pem this name
      /\ leaf_public_key this other <> leaf_key this name
      /\ leaf_public_key this other <> leaf_public_key this name).
Proof.
  intros N1 N2 N3. unfold leaf_pem, leaf_key, leaf_public_key.
  assert (Hend : forall a b, a +:+ ".pem" <> b +:+ ".key").
  { intros a b E.
    pose proof (JsStringMore.slice_last_append a ".pem") as H1.
    pose proof (JsStringMore.slice_last_append b ".key") as H2.
    simpl String.length in H1, H2. rewrite E in H1. congruence. }
  repeat split; intros E.
  - do 2 apply JsStringMore.append_inj_prefix in E.
    now apply JsStringMore.append_inj_suffix in E.
  - rewrite <- !JsStringMore.append_assoc in E. exact (Hend _ _ E).
  - change ".public.key" with (".public" +:+ ".key") in E.
    rewrite <- !JsStringMore.append_assoc in E. exact (Hend _ _ E).
  - rewrite <- !JsStringMore.append_assoc in E. exact (Hend _ _ (eq_sym E)).
  - do 2 apply JsStringMore.append_inj_prefix in E.
    now apply JsStringMore.append_inj_suffix in E.
  - do 2 apply JsStringMore.append_inj_prefix in E.
    change ".public.key" with (".public" +:+ ".key") in E.
    rewrite <- JsStringMore.append_assoc in E.
    now apply JsStringMore.append_inj_suffix in E.
  - change ".public.key" with (".public" +:+ ".key") in E.
    rewrite <- !JsStringMore.append_assoc in E. exact (Hend _ _ (eq_sym E)).
  - do 2 apply JsStringMore.append_inj_prefix in E.
    change ".public.key" with (".public" +:+ ".key") in E.
    rewrite <- JsStringMore.append_assoc in E.
    apply JsStringMore.append_inj_suffix in E. now symmetry in E.
  - do 2 apply JsStringMore.append_inj_prefix in E.
    now apply JsStringMore.append_inj_suffix in E.
Qed.

(** X3. Issuing for one host leaves the cache entry of another as it is,
    whether the writes succeed, fail or the call throws, provided the two
    names spell one directory entry each, the file names made from them
    differ and neither is the other with [.public] behind it.  Without the
    last condition the private key of the one host is written over the
    public key of the other.  The root certificate is left as it is unless
    the file name is [ca].  Files are told apart by the spelling of their
    paths, as a file system does for names without a separator that it
    compares character by character. *)
Theorem issuance_keeps_the_other_cache_entries env this hosts host other w :
  mainHost_of hosts = Some host ->
  separator_free host ->
  separator_free other ->
  replace_stars other <> replace_stars host ->
  replace_stars other <> replace_stars host +:+ ".public" ->
  replace_stars host <> replace_stars other +:+ ".public" ->
  let w' := snd (generateServerCertificateKeys env this hosts w) in
  files w' !! leaf_pem this (replace_stars other)
  = files w !! leaf_pem this (replace_stars other)
  /\ files w' !! leaf_key this (replace_stars other)
     = files w !! leaf_key this (replace_stars other)
  /\ files w' !! leaf_public_key this (replace_stars other)
     = files w !! leaf_public_key this (replace_stars other)
  /\ leaf_key this (replace_stars host +:+ ".public")
     = leaf_public_key this (replace_stars host)
  /\ (getCACertPath this = certsFolder this +:+ "/ca.pem" ->
      replace_stars host <> "ca" ->
      files w' !! getCACertPath this = files w !! getCACertPath this).
Proof.
  intros Hh _ _ N1 N2 N3. cbv zeta.
  assert (Hname : leaf_key this (replace_stars host +:+ ".public")
                  = leaf_public_key this (replace_stars host)).
  { unfold leaf_key, leaf_public_key.
    change ".public.key" with (".public" +:+ ".key").
    now rewrite !JsStringMore.append_assoc. }
  destruct (signServerCertificate_cases env this hosts w)
    as [(e0 & kg & rd & cr & Hs)
       | (certServer & keysServer & host' & rest & root & rootKeys
          & -> & Hop & Hg & Ha & Hs)].
  { rewrite (generateServerCertificateKeys_throws _ _ _ _ _ _ Hs). cbn [snd].
    do 3 (split; [reflexivity |]). split; [exact Hname | reflexivity]. }
  injection Hh as ->.
  rewrite (generateServerCertificateKeys_run _ _ _ host _ _ _ _ Hs eq_refl).
  cbn [snd]. rewrite leaf_files.
  destruct (leaf_paths_apart this (replace_stars host) (replace_stars other)
              N1 N2 N3)
    as ((A1 & A2 & A3) & (B1 & B2 & B3) & (C1 & C2 & C3)).
  split; [now rewrite !stored_other by assumption |].
  split; [now rewrite !stored_other by assumption |].
  split; [now rewrite !stored_other by assumption |].
  split; [exact Hname |].
  intros -> Nca.
  assert (Hend : forall a b, a +:+ ".pem" <> b +:+ ".key").
  { intros a b E.
    pose proof (JsStringMore.slice_last_append a ".pem") as H1.
    pose proof (JsStringMore.slice_last_append b ".key") as H2.
    simpl String.length in H1, H2. rewrite E in H1. congruence. }
  change "/ca.pem" with ("/" +:+ "ca" +:+ ".pem").
  rewrite !stored_other; [reflexivity | | |]; unfold leaf_pem, leaf_key, leaf_public_key.
  - intros E. do 2 apply JsStringMore.append_inj_prefix in E.
    apply JsStringMore.append_inj_suffix in E. congruence.
  - rewrite <- !JsStringMore.append_assoc. apply Hend.
  - change ".public.key" with (".public" +:+ ".key").
    rewrite <- !JsStringMore.append_assoc. apply Hend.
Qed.

(** X4. When the three writes succeed, the cache entry holds what the
    callback received: the certificate text, the private key text, and the
    public key of the same pair, which is the key the certificate carries.
    What the three files held before does not matter. *)
Theorem leaf_cache_entry_holds_what_was_returned
    env this root rootKeys keysServer host rest w :
  opened this root rootKeys ->
  keygen env (keygens w) = inr keysServer ->
  altNames_error (map altName_of_host (host :: rest)) = None ->
  write_error env (leaf_pem this (replace_stars host)) = None ->
  write_error env (leaf_key this (replace_stars host)) = None ->
  write_error env (leaf_public_key this (replace_stars host)) = None ->
  exists certServer w1 w',
    signServerCertificate env this (HostArray (host :: rest)) w
    = (Done (certServer, keysServer), w1)
    /\ generateServerCertificateKeys env this (HostArray (host :: rest)) w
       = (Done (certificateToPem certServer,
                privateKeyToPem (privateKey keysServer)), w')
    /\ cert_publicKey certServer = publicKey keysServer
    /\ files w' !! leaf_pem this (replace_stars host)
       = Some (certificateToPem certServer)
    /\ files w' !! leaf_key this (replace_stars host)
       = Some (privateKeyToPem (privateKey keysServer))
    /\ files w' !! leaf_public_key this (replace_stars host)
       = Some (publicKeyToPem (publicKey keysServer))
    /\ console w' = console w.
Proof.
  intros Hop Hg Ha W1 W2 W3.
  destruct (signServerCertificate_run env this root rootKeys keysServer
              host rest w Hop Hg Ha) as (certServer & Hs & Hpk & _).
  destruct (leaf_paths_differ this (replace_stars host)) as (N12 & N13 & N23).
  exists certServer. do 2 eexists.
  split; [exact Hs |].
  split; [exact (generateServerCertificateKeys_run _ _ _ host _ _ _ _ Hs eq_refl) |].
  split; [exact Hpk |].
  rewrite leaf_files, leaf_console.
  split; [| split; [| split]].
  - rewrite !stored_other by assumption. now apply stored_written.
  - rewrite stored_other by assumption. now apply stored_written.
  - now apply stored_written.
  - rewrite complaints_none; [cbn [console advanced]; now rewrite app_nil_r |].
    intros job Hjob. apply in_completion_order_In in Hjob.
    destruct Hjob as [<- | [<- | [<- | []]]]; assumption.
Qed.

(** X5. Two leaves issued one after the other are made from different key
    generations and from different random values: the second takes the next
    key pair and the next four values. *)
Theorem successive_leaves_are_fresh
    env this root rootKeys keys1 keys2 host1 rest1 host2 rest2 w :
  opened this root rootKeys ->
  keygen env (keygens w) = inr keys1 ->
  keygen env (S (keygens w)) = inr keys2 ->
  altNames_error (map altName_of_host (host1 :: rest1)) = None ->
  altNames_error (map altName_of_host (host2 :: rest2)) = None ->
  exists cert1 cert2 w1 w2 v1 v2,
    generateServerCertificateKeys env this (HostArray (host1 :: rest1)) w
    = (Done (certificateToPem cert1, privateKeyToPem (privateKey keys1)), w1)
    /\ generateServerCertificateKeys env this (HostArray (host2 :: rest2)) w1
       = (Done (certificateToPem cert2, privateKeyToPem (privateKey keys2)), w2)
    /\ signServerCertificate env this (HostArray (host1 :: rest1)) w
       = (Done (cert1, keys1), v1)
    /\ signServerCertificate env this (HostArray (host2 :: rest2)) w1
       = (Done (cert2, keys2), v2)
    /\ cert_publicKey cert1 = publicKey keys1
    /\ cert_publicKey cert2 = publicKey keys2
    /\ serialNumber cert1 = serial_at env (random_draws w)
    /\ serialNumber cert2 = serial_at env (4 + random_draws w).
Proof.
  intros Hop Hg1 Hg2 Ha1 Ha2.
  destruct (signServerCertificate_run env this root rootKeys keys1
              host1 rest1 w Hop Hg1 Ha1)
    as (cert1 & Hs1 & Hpk1 & Hser1 & _).
  pose proof (generateServerCertificateKeys_run _ _ _ host1 _ _ _ _ Hs1 eq_refl)
    as Hrun1.
  match type of Hrun1 with _ = (_, ?x) => set (w1 := x) in * end.
  destruct (leaf_rest env this (replace_stars host1) (certificateToPem cert1)
              (privateKeyToPem (privateKey keys1))
              (publicKeyToPem (publicKey keys1)) (advanced 1 4 2 w))
    as (_ & _ & Hrd & Hkg).
  fold w1 in Hrd, Hkg. cbn [advanced random_draws keygens Nat.add] in Hrd, Hkg.
  rewrite <- Hkg in Hg2.
  destruct (signServerCertificate_run env this root rootKeys keys2
              host2 rest2 w1 Hop Hg2 Ha2)
    as (cert2 & Hs2 & Hpk2 & Hser2 & _).
  rewrite Hrd in Hser2.
  pose proof (generateServerCertificateKeys_run _ _ _ host2 _ _ _ _ Hs2 eq_refl)
    as Hrun2.
  exists cert1, cert2, w1. do 3 eexists.
  split; [exact Hrun1 |]. split; [exact Hrun2 |].
  split; [exact Hs1 |]. split; [exact Hs2 |].
  split; [exact Hpk1 |]. split; [exact Hpk2 |].
  split; [exact Hser1 | exact Hser2].
Qed.

(** *** File names and alternative names *)

Lemma map_chars_fixed (f : ascii -> ascii) (s : string) :
  JsString.map_chars f s = s <->
  (forall i c, String.get i s = Some c -> f c = c).
Proof.
  induction s as [|a r IH]; simpl.
  - split; [intros _ i c H; destruct i; discriminate | reflexivity].
  - split.
    + intros [= Ha Hr] [|i] c H; simpl in H.
      * now inversion H; subst.
      * now apply (proj1 IH Hr i c).
    + intros H. f_equal.
      * apply (H 0 a). reflexivity.
      * apply IH. intros i c Hi. apply (H (S i) c). exact Hi.
Qed.

Lemma map_chars_twice (f : ascii -> ascii) (s : string) :
  (forall c, f (f c) = f c) ->
  JsString.map_chars f (JsString.map_chars f s) = JsString.map_chars f s.
Proof. intros Hf. induction s as [|a r IH]; simpl; [reflexivity | now rewrite Hf, IH]. Qed.

(** X6. The file name made from a host name holds no star; a name without
    stars is its own file name, and only such a name is.  Making the file
    name of a file name changes nothing, so a host with stars in its name
    has the cache entry of the host named with underscores instead. *)
Theorem file_names_hold_no_star this (host : string) :
  star_free (replace_stars host)
  /\ (replace_stars host = host <-> star_free host)
  /\ replace_stars (replace_stars host) = replace_stars host
  /\ leaf_pem this (replace_stars (replace_stars host))
     = leaf_pem this (replace_stars host)
  /\ leaf_key this (replace_stars (replace_stars host))
     = leaf_key this (replace_stars host)
  /\ leaf_public_key this (replace_stars (replace_stars host))
     = leaf_public_key this (replace_stars host).
Proof.
  assert (Hstar : forall c : ascii,
            (if Ascii.eqb c "*" then "_"%char else c) = c <-> c <> "*"%char).
  { intros c. destruct (Ascii.eqb_spec c "*") as [-> | N]; split; congruence. }
  assert (Htwice : replace_stars (replace_stars host) = replace_stars host).
  { apply map_chars_twice. intros c.
    destruct (Ascii.eqb_spec c "*") as [-> | N]; [reflexivity |].
    destruct (Ascii.eqb_spec c "*"); congruence. }
  split; [| split; [| split; [exact Htwice | now rewrite Htwice]]].
  - intros i H. rewrite replace_stars_get in H.
    destruct (String.get i host) as [c |]; [| discriminate].
    cbn [option_map] in H. destruct (Ascii.eqb_spec c "*") as [E | N]; congruence.
  - unfold replace_stars, star_free. rewrite map_chars_fixed. split.
    + intros H i Hi. specialize (H i _ Hi). now apply Hstar in H.
    + intros H i c Hi. apply Hstar. intros ->. exact (H i Hi).
Qed.

Lemma all_chars_false (p : ascii -> bool) (s : string) :
  JsString.all_chars p s = false ->
  exists i c, String.get i s = Some c /\ p c = false.
Proof.
  induction s as [|a r IH]; simpl; [discriminate |].
  destruct (p a) eqn:Ha; simpl.
  - intros H. destruct (IH H) as (i & c & Hi & Hc). now exists (S i), c.
  - intros _. now exists 0, a.
Qed.

(** X7. Which kind of alternative name a host gets is decided character by
    character: an IP entry when the name is not empty and holds only decimal
    digits and dots, whether or not it is a dotted quad; a DNS entry when it
    is empty or holds any other character, such as the colon of an IPv6
    address. *)
Theorem altName_kind_by_characters (host : string) :
  (altName_of_host host = IPAddress host <->
   host <> EmptyString
   /\ forall i c, String.get i host = Some c ->
        (48 <= N_of_ascii c <= 57)%N \/ c = "."%char)
  /\ (altName_of_host host = DNSName host <->
      host = EmptyString
      \/ exists i c, String.get i host = Some c
           /\ ~ ((48 <= N_of_ascii c <= 57)%N \/ c = "."%char)).
Proof.
  pose proof (matches_digits_dots_spec host) as Hspec.
  unfold altName_of_host.
  destruct (matches_digits_dots host) eqn:Hm.
  - split.
    + split; [intros _; now apply Hspec | reflexivity].
    + split; [discriminate |].
      destruct (proj1 Hspec eq_refl) as [Hne Hall].
      intros [-> | (i & c & Hi & Hc)]; [now contradiction Hne |].
      contradiction (Hc (Hall i c Hi)).
  - split.
    + split; [discriminate |]. intros H. apply Hspec in H. discriminate.
    + split; [| reflexivity]. intros _.
      destruct host as [|a r]; [now left | right].
      unfold matches_digits_dots in Hm.
      destruct (all_chars_false _ _ Hm) as (i & c & Hi & Hc).
      exists i, c. split; [exact Hi |].
      apply orb_false_iff in Hc. destruct Hc as [Hd Hdot].
      intros [Hdig | ->].
      * apply is_digit_spec in Hdig. congruence.
      * discriminate.
Qed.

(** *** Serial numbers *)

Lemma serial_at_blocks env env' k k' :
  serial_at env k = serial_at env' k' ->
  block_at env k = block_at env' k'
  /\ block_at env (S k) = block_at env' (S k')
  /\ block_at env (S (S k)) = block_at env' (S (S k'))
  /\ block_at env (S (S (S k))) = block_at env' (S (S (S k'))).
Proof.
  unfold serial_at, JsString.join. cbn [fold_right]. intros H.
  assert (Hlen : forall e i j,
            String.length (block_at e i) = String.length (block_at env' j)).
  { intros e i j. unfold block_at. now rewrite !HexFacts.hex_block_length. }
  apply JsStringMore.append_inj_length in H; [| apply Hlen].
  destruct H as [H0 H].
  apply JsStringMore.append_inj_length in H; [| apply Hlen].
  destruct H as [H1 H].
  apply JsStringMore.append_inj_length in H; [| apply Hlen].
  destruct H as [H2 H].
  apply JsStringMore.append_inj_length in H; [| apply Hlen].
  tauto.
Qed.

(** X8. Two calls of [randomSerialNumber] in a row use eight random values,
    four each.  The serial number loses nothing of the 32-bit numbers it is
    made from: the two serial numbers are equal only when each of the four
    numbers of the second call repeats that of the first. *)
Theorem successive_serial_numbers env w :
  (forall i, i < 8 -> in_unit_interval (random env (i + random_draws w))) ->
  randomSerialNumber env w
  = (Done (serial_at env (random_draws w)), advanced 0 4 0 w)
  /\ randomSerialNumber env (advanced 0 4 0 w)
     = (Done (serial_at env (4 + random_draws w)), advanced 0 8 0 w)
  /\ (serial_at env (random_draws w) = serial_at env (4 + random_draws w) ->
      forall i, i < 4 ->
        floor_scaled (random env (i + random_draws w))
        = floor_scaled (random env (i + (4 + random_draws w)))).
Proof.
  intros Hunit.
  split; [apply randomSerialNumber_run |].
  split; [apply randomSerialNumber_run |].
  intros E i Hi.
  assert (Hb : forall j, j < 8 ->
            (floor_scaled (random env (j + random_draws w)) < 256 ^ 4)%N).
  { intros j Hj. apply floor_scaled_bound, Hunit, Hj. }
  apply serial_at_blocks in E. destruct E as (E0 & E1 & E2 & E3).
  unfold block_at in E0, E1, E2, E3.
  destruct i as [|[|[|[|i]]]]; [| | | | lia].
  - apply HexFacts.hex_block_injective; [apply (Hb 0) | apply (Hb 4) | exact E0]; lia.
  - apply HexFacts.hex_block_injective; [apply (Hb 1) | apply (Hb 5) | exact E1]; lia.
  - apply HexFacts.hex_block_injective; [apply (Hb 2) | apply (Hb 6) | exact E2]; lia.
  - apply HexFacts.hex_block_injective; [apply (Hb 3) | apply (Hb 7) | exact E3]; lia.
Qed.

(** *** The root: making it *)

(** X9. The root [create] makes when none is there is self-signed: it names
    itself as its issuer, carries the public key of the pair generated for
    it, is marked as an authority, and its SHA-256 signature, made with the
    private key of that pair, verifies under the key it carries. *)
Theorem made_root_is_self_signed env caFolder keys w :
  folders_made env caFolder ->
  root_present caFolder w = false ->
  keygen env (keygens w) = inr keys ->
  (forall digest c,
     rsa_verify (publicKey keys) digest c
       (rsa_sign (privateKey keys) digest c) = true) ->
  exists err root w',
    create env caFolder w
    = (Done (err, with_root (started caFolder) root keys), w')
    /\ subject root = CA_ATTRIBUTES
    /\ issuer root = subject root
    /\ cert_publicKey root = publicKey keys
    /\ In (basicConstraints true) (extensions root)
    /\ md root = Some sha256
    /\ signature root
       = Some (rsa_sign (privateKey keys) sha256 (to_be_signed sha256 root))
    /\ signature_verifies (cert_publicKey root) root = true.
Proof.
  intros Hdirs Hp Hg Hlaw.
  destruct (generateCA_run env (started caFolder) keys (with_folders caFolder w) Hg)
    as (root & w' & Hrun & _ & Hpk & _ & _ & _ & Hs & Hi & Hext & Hmd & Hsig).
  do 3 eexists.
  split; [rewrite create_run, Hp by exact Hdirs; exact Hrun |].
  split; [exact Hs |]. split; [congruence |]. split; [exact Hpk |].
  split; [rewrite Hext; left; reflexivity |].
  split; [exact Hmd |]. split; [exact Hsig |].
  unfold signature_verifies. rewrite Hmd, Hsig, Hpk. apply Hlaw.
Qed.

(** X10. A leaf issued by the authority [create] has made, for a non-empty
    array of names, chains to its root: the issuer of the leaf is the
    subject of the root, and the signature of the leaf verifies under the
    public key of the root. *)
Theorem leaf_of_a_made_root_chains env caFolder keys w :
  folders_made env caFolder ->
  root_present caFolder w = false ->
  keygen env (keygens w) = inr keys ->
  (forall digest c,
     rsa_verify (publicKey keys) digest c
       (rsa_sign (privateKey keys) digest c) = true) ->
  exists err root w1,
    create env caFolder w
    = (Done (err, with_root (started caFolder) root keys), w1)
    /\ forall host rest keysServer w2,
         keygen env (keygens w2) = inr keysServer ->
         altNames_error (map altName_of_host (host :: rest)) = None ->
         exists certServer w3,
           signServerCertificate env (with_root (started caFolder) root keys)
             (HostArray (host :: rest)) w2
           = (Done (certServer, keysServer), w3)
           /\ issuer certServer = subject root
           /\ md certServer = Some sha256
           /\ signature_verifies (cert_publicKey root) certServer = true.
Proof.
  intros Hdirs Hp Hg Hlaw.
  destruct (generateCA_run env (started caFolder) keys (with_folders caFolder w) Hg)
    as (root & w1 & Hrun & _ & Hpk & _ & _ & _ & Hs & Hi & _).
  do 3 eexists.
  split; [rewrite create_run, Hp by exact Hdirs; exact Hrun |].
  intros host rest keysServer w2 Hg2 Ha.
  destruct (leaf_chain env (with_root (started caFolder) root keys) root keys
              keysServer host rest w2 (conj eq_refl eq_refl) Hg2 Ha)
    as (certServer & w3 & Hsign & Hiss & _ & Hmd & _ & Hver).
  exists certServer, w3.
  split; [exact Hsign |]. split; [congruence |]. split; [exact Hmd |].
  rewrite Hpk. now apply Hver.
Qed.

(** X11. When the key generation fails, [create] passes the error to the
    callback with an authority that holds no root; nothing is written, and
    the root is as absent afterwards as it was before. *)
Theorem failed_key_generation_leaves_no_root env caFolder err w :
  folders_made env caFolder ->
  root_present caFolder w = false ->
  keygen env (keygens w) = inl err ->
  exists w',
    create env caFolder w = (Done (Some err, started caFolder), w')
    /\ CAcert (started caFolder) = None
    /\ files w' = files w
    /\ root_present caFolder w' = false.
Proof.
  intros Hdirs Hp Hg. eexists.
  split.
  { rewrite create_run, Hp by exact Hdirs.
    apply generateCA_keygen_failure. exact Hg. }
  split; [reflexivity |]. split; [reflexivity |].
  rewrite <- Hp, <- (root_present_with_folders caFolder w). reflexivity.
Qed.

(** X12. When one of the three directories cannot be made, [create] throws
    the error of the first that fails; the callback is not called, no key
    is generated and no file is written. *)
Theorem create_throws_when_a_folder_cannot_be_made env caFolder w :
  ~ folders_made env caFolder ->
  exists e w',
    create env caFolder w = (Threw e, w')
    /\ (mkdir_error env caFolder = Some e
        \/ (mkdir_error env caFolder = None
            /\ mkdir_error env (path_join caFolder "certs") = Some e)
        \/ (mkdir_error env caFolder = None
            /\ mkdir_error env (path_join caFolder "certs") = None
            /\ mkdir_error env (path_join caFolder "keys") = Some e))
    /\ files w' = files w
    /\ keygens w' = keygens w
    /\ console w' = console w.
Proof.
  intros Hnot. unfold create. cbv zeta. cbn [baseCAFolder certsFolder keysFolder].
  destruct (mkdir_error env caFolder) as [e |] eqn:H1.
  { exists e, w. split; [| split; [auto | repeat split]].
    apply bind_threw. unfold mkdirp_sync. now rewrite H1. }
  rewrite (bind_done _ _ _ _ _ (mkdirp_sync_run env _ _ H1)).
  destruct (mkdir_error env (path_join caFolder "certs")) as [e |] eqn:H2.
  { exists e. eexists.
    split; [apply bind_threw; unfold mkdirp_sync; now rewrite H2 |].
    split; [auto | repeat split]. }
  rewrite (bind_done _ _ _ _ _ (mkdirp_sync_run env _ _ H2)).
  destruct (mkdir_error env (path_join caFolder "keys")) as [e |] eqn:H3.
  { exists e. eexists.
    split; [apply bind_threw; unfold mkdirp_sync; now rewrite H3 |].
    split; [auto | repeat split]. }
  contradiction Hnot. repeat split; assumption.
Qed.

(** *** The root: loading it *)

Lemma readFile_failure env path w :
  files w !! path = None \/ is_Some (read_error env path) ->
  exists e, readFile env path w = (Done (inl e), w).
Proof.
  intros H. unfold readFile.
  destruct (files w !! path) as [data |].
  - destruct H as [H | [e H]]; [discriminate |]. rewrite H. eauto.
  - destruct (bool_decide (path ∈ dirs w)); eauto.
Qed.

(** When one of the three files cannot be read, the callback of [loadCA]
    receives an error and the object is left as it was. *)
Lemma loadCA_read_failure env this w :
  (files w !! path_join (certsFolder this) "ca.pem" = None
   \/ is_Some (read_error env (path_join (certsFolder this) "ca.pem")))
  \/ (files w !! path_join (keysFolder this) "ca.private.key" = None
      \/ is_Some (read_error env (path_join (keysFolder this) "ca.private.key")))
  \/ (files w !! path_join (keysFolder this) "ca.public.key" = None
      \/ is_Some (read_error env (path_join (keysFolder this) "ca.public.key"))) ->
  exists e, loadCA env this w = (Done (Some e, this), w).
Proof.
  intros Hfail. unfold loadCA.
  destruct (readFile_run env (path_join (certsFolder this) "ca.pem") w)
    as (r1 & E1 & _).
  destruct (readFile_run env (path_join (keysFolder this) "ca.private.key") w)
    as (r2 & E2 & _).
  destruct (readFile_run env (path_join (keysFolder this) "ca.public.key") w)
    as (r3 & E3 & _).
  assert (Hbad : (exists e, r1 = inl e) \/ (exists e, r2 = inl e)
                 \/ (exists e, r3 = inl e)).
  { destruct Hfail as [H | [H | H]];
      destruct (readFile_failure env _ w H) as (e & He);
      [left | right; left | right; right]; exists e; congruence. }
  rewrite (bind_done _ _ _ _ _ E1), (bind_done _ _ _ _ _ E2), (bind_done _ _ _ _ _ E3).
  assert (Hsome : exists e,
            async_first_error (completion env) [error_of r1; error_of r2; error_of r3]
            = Some e).
  { assert (Hin : exists e, In (Some e) [error_of r1; error_of r2; error_of r3]).
    { destruct Hbad as [[e ->] | [[e ->] | [e ->]]]; exists e; simpl; auto. }
    destruct Hin as (e & Hin).
    destruct (async_first_error_Some (completion env) _ e Hin) as (e' & He' & _).
    eauto. }
  destruct Hsome as (e & He). exists e.
  destruct r1 as [e1 | t1]; [unfold mret, M_ret; now rewrite He |].
  destruct r2 as [e2 | t2]; [unfold mret, M_ret; now rewrite He |].
  destruct r3 as [e3 | t3]; [unfold mret, M_ret; now rewrite He |].
  destruct Hbad as [[? ?] | [[? ?] | [? ?]]]; discriminate.
Qed.

(** X13. When the root certificate file is there but one of the three files
    of the store is missing or cannot be read, [create] passes an error to
    the callback, with an authority that holds no root; no root is made in
    its place and no file is touched. *)
Theorem unreadable_root_store_is_reported env caFolder data w :
  folders_made env caFolder ->
  files w !! ca_pem caFolder = Some data ->
  (is_Some (read_error env (ca_pem caFolder))
   \/ (files w !! ca_private_key caFolder = None
       \/ is_Some (read_error env (ca_private_key caFolder)))
   \/ (files w !! ca_public_key caFolder = None
       \/ is_Some (read_error env (ca_public_key caFolder)))) ->
  exists e w',
    create env caFolder w = (Done (Some e, started caFolder), w')
    /\ CAcert (started caFolder) = None
    /\ files w' = files w
    /\ keygens w' = keygens w.
Proof.
  intros Hdirs Hfile Hfail.
  destruct (loadCA_read_failure env (started caFolder) (with_folders caFolder w))
    as (e & He).
  { destruct Hfail as [H | [H | H]]; [left; right; exact H | right; left; exact H
                                     | right; right; exact H]. }
  exists e, (with_folders caFolder w).
  split; [| repeat split].
  now rewrite create_run, (root_present_file caFolder data w Hfile) by exact Hdirs.
Qed.

(** X14. A creation that wrote the root certificate but failed to write
    the private key leaves a store that no later [create] repairs.  Each
    later one finds the certificate and loads instead of making a root: it
    generates no key and changes no file.  Where the failed write left no
    file, it passes a read error to the callback.  Where it left a file cut
    short whose text does not decode, it does not succeed, and with the
    other two files in order it ends in what the decoder throws, without a
    call of the callback. *)
Theorem half_written_store_is_not_regenerated env caFolder keys failure w :
  folders_made env caFolder ->
  root_present caFolder w = false ->
  keygen env (keygens w) = inr keys ->
  write_error env (ca_pem caFolder) = None ->
  write_error env (ca_private_key caFolder) = Some failure ->
  files w !! ca_private_key caFolder = None ->
  ca_pem caFolder <> ca_private_key caFolder ->
  ca_pem caFolder <> ca_public_key caFolder ->
  ca_private_key caFolder <> ca_public_key caFolder ->
  exists e1 root w1,
    create env caFolder w
    = (Done (Some e1, with_root (started caFolder) root keys), w1)
    /\ files w1 !! ca_pem caFolder = Some (certificateToPem root)
    /\ files w1 !! ca_private_key caFolder
       = match cut_at env (ca_private_key caFolder) with
         | Some n => Some (substring 0 n (privateKeyToPem (privateKey keys)))
         | None => None
         end
    /\ forall env',
         folders_made env' caFolder ->
         files (snd (create env' caFolder w1)) = files w1
         /\ keygens (snd (create env' caFolder w1)) = keygens w1
         /\ (cut_at env (ca_private_key caFolder) = None ->
             exists e2,
               create env' caFolder w1
               = (Done (Some e2, started caFolder), with_folders caFolder w1))
         /\ (forall n e,
               cut_at env (ca_private_key caFolder) = Some n ->
               privateKeyFromPem
                 (substring 0 n (privateKeyToPem (privateKey keys))) = inl e ->
               (forall ca, fst (create env' caFolder w1) <> Done (None, ca))
               /\ (forall root' publicText,
                     root_readable env' caFolder ->
                     files w1 !! ca_public_key caFolder = Some publicText ->
                     certificateFromPem (certificateToPem root) = inr root' ->
                     create env' caFolder w1
                     = (Threw e, with_folders caFolder w1))).
Proof.
  intros Hdirs Hp Hg W1 W2 Hnone N12 N13 N23.
  destruct (generateCA_run env (started caFolder) keys (with_folders caFolder w) Hg)
    as (cert & w1 & Hrun & Hfiles & _).
  cbn [certsFolder keysFolder started] in Hrun, Hfiles.
  fold (ca_pem caFolder) (ca_private_key caFolder) (ca_public_key caFolder)
    in Hrun, Hfiles.
  destruct (async_first_error_Some (completion env)
              [ write_error env (ca_pem caFolder);
                write_error env (ca_private_key caFolder);
                write_error env (ca_public_key caFolder) ] failure)
    as (e1 & He1 & _).
  { right. left. exact W2. }
  rewrite He1 in Hrun.
  assert (F1 : files w1 !! ca_pem caFolder = Some (certificateToPem cert)).
  { rewrite Hfiles, !stored_other by congruence. now apply stored_written. }
  assert (F2 : files w1 !! ca_private_key caFolder
               = match cut_at env (ca_private_key caFolder) with
                 | Some n => Some (substring 0 n (privateKeyToPem (privateKey keys)))
                 | None => None
                 end).
  { rewrite Hfiles, stored_other by congruence.
    rewrite (stored_failed env _ _ failure) by exact W2.
    destruct (cut_at env (ca_private_key caFolder)); [reflexivity |].
    rewrite stored_other by congruence. exact Hnone. }
  exists e1, cert, w1.
  split; [now rewrite create_run, Hp by exact Hdirs |].
  split; [exact F1 |]. split; [exact F2 |].
  intros env' Hdirs'.
  assert (Hload : create env' caFolder w1
                  = loadCA env' (started caFolder) (with_folders caFolder w1)).
  { now rewrite create_run, (root_present_file caFolder _ w1 F1) by exact Hdirs'. }
  rewrite Hload, loadCA_world.
  split; [reflexivity |]. split; [reflexivity |]. split.
  - intros Hcut. rewrite Hcut in F2.
    apply loadCA_read_failure. right. left. left. exact F2.
  - intros n e Hcut Hbad. rewrite Hcut in F2. split.
    + intros ca Hca.
      destruct (loadCA env' (started caFolder) (with_folders caFolder w1))
        as [r w2] eqn:Hl.
      cbn [fst] in Hca. subst r.
      destruct (loadCA_success _ _ _ _ _ Hl)
        as (certText & privateText & publicText & c & priv & pub
            & _ & G2 & _ & _ & D2 & _).
      change (files (with_folders caFolder w1)) with (files w1) in G2.
      cbn [keysFolder started] in G2. fold (ca_private_key caFolder) in G2.
      congruence.
    + intros root' publicText (R1 & R2 & R3) F3 Hroot.
      rewrite (loadCA_decodes env' (started caFolder) _ _ _
                 (with_folders caFolder w1) F1 F2 F3 R1 R2 R3).
      now rewrite Hroot, Hbad.
Qed.

(** X15. On a store whose three files are there, can be read and decode,
    [create] succeeds with the certificate and the keys the files decode
    to, whatever they are, and changes no file; [getPem] then returns that
    certificate encoded again. *)
Theorem sound_store_loads_what_it_holds
    env caFolder certText privateText publicText cert priv pub w :
  folders_made env caFolder ->
  root_readable env caFolder ->
  files w !! ca_pem caFolder = Some certText ->
  files w !! ca_private_key caFolder = Some privateText ->
  files w !! ca_public_key caFolder = Some publicText ->
  certificateFromPem certText = inr cert ->
  privateKeyFromPem privateText = inr priv ->
  publicKeyFromPem publicText = inr pub ->
  exists ca w',
    create env caFolder w = (Done (None, ca), w')
    /\ opened ca cert {| privateKey := priv; publicKey := pub |}
    /\ files w' = files w
    /\ keygens w' = keygens w
    /\ getPem ca w' = (Done (certificateToPem cert), w').
Proof.
  intros Hdirs (R1 & R2 & R3) F1 F2 F3 D1 D2 D3.
  exists (with_root (started caFolder) cert
            {| privateKey := priv; publicKey := pub |}),
         (with_folders caFolder w).
  split.
  { rewrite create_run, (root_present_file caFolder certText w F1) by exact Hdirs.
    rewrite (loadCA_decodes env (started caFolder) certText privateText publicText)
      by assumption.
    now rewrite D1, D2, D3. }
  repeat split.
Qed.

(** X16. After [create] has made a root and written its certificate, the
    file [getCACertPath] names holds the text [getPem] returns.  On an
    authority without a root, [getPem] throws. *)
Theorem getPem_is_the_file_at_getCACertPath env caFolder keys w :
  folders_made env caFolder ->
  root_present caFolder w = false ->
  keygen env (keygens w) = inr keys ->
  write_error env (ca_pem caFolder) = None ->
  ca_pem caFolder <> ca_private_key caFolder ->
  ca_pem caFolder <> ca_public_key caFolder ->
  (exists err ca w1 text,
     create env caFolder w = (Done (err, ca), w1)
     /\ getCACertPath ca = ca_pem caFolder
     /\ getPem ca w1 = (Done text, w1)
     /\ files w1 !! getCACertPath ca = Some text)
  /\ (forall this w0,
        CAcert this = None ->
        exists e, getPem this w0 = (Threw (TypeError e), w0)).
Proof.
  intros Hdirs Hp Hg W1 N12 N13. split.
  - destruct (generateCA_run env (started caFolder) keys (with_folders caFolder w) Hg)
      as (cert & w1 & Hrun & Hfiles & _).
    cbn [certsFolder keysFolder started] in Hfiles.
    fold (ca_pem caFolder) (ca_private_key caFolder) (ca_public_key caFolder)
      in Hfiles.
    do 2 eexists. exists w1, (certificateToPem cert).
    split; [rewrite create_run, Hp by exact Hdirs; exact Hrun |].
    split; [reflexivity |]. split; [reflexivity |].
    change (getCACertPath (with_root (started caFolder) cert keys))
      with (ca_pem caFolder).
    rewrite Hfiles, !stored_other by congruence. now apply stored_written.
  - intros this w0 Hnone. unfold getPem. rewrite Hnone. eexists. reflexivity.
Qed.

(** X17. Opening twice from nothing.  When no root is there and the key
    generation and the three writes succeed, a second [create] generates
    nothing and changes no file: it is the three decoders applied, in turn,
    to the three texts the first one encoded.  Its root is the root of the
    first as far as forge's encoding keeps it. *)
Theorem second_open_loads_what_the_first_made env caFolder keys w :
  folders_made env caFolder ->
  root_present caFolder w = false ->
  keygen env (keygens w) = inr keys ->
  write_error env (ca_pem caFolder) = None ->
  write_error env (ca_private_key caFolder) = None ->
  write_error env (ca_public_key caFolder) = None ->
  ca_pem caFolder <> ca_private_key caFolder ->
  ca_pem caFolder <> ca_public_key caFolder ->
  ca_private_key caFolder <> ca_public_key caFolder ->
  exists root w1,
    create env caFolder w
    = (Done (None, with_root (started caFolder) root keys), w1)
    /\ forall env',
         folders_made env' caFolder ->
         root_readable env' caFolder ->
         create env' caFolder w1
         = match certificateFromPem (certificateToPem root) with
           | inl e => (Threw e, with_folders caFolder w1)
           | inr cert =>
               match privateKeyFromPem (privateKeyToPem (privateKey keys)) with
               | inl e => (Threw e, with_folders caFolder w1)
               | inr priv =>
                   match publicKeyFromPem (publicKeyToPem (publicKey keys)) with
                   | inl e => (Threw e, with_folders caFolder w1)
                   | inr pub =>
                       (Done (None, with_root (started caFolder) cert
                                      {| privateKey := priv; publicKey := pub |}),
                        with_folders caFolder w1)
                   end
               end
           end
         /\ files (with_folders caFolder w1) = files w1
         /\ keygens (with_folders caFolder w1) = keygens w1
         /\ random_draws (with_folders caFolder w1) = random_draws w1.
Proof.
  intros Hdirs Hp Hg W1 W2 W3 N12 N13 N23.
  destruct (generateCA_run env (started caFolder) keys (with_folders caFolder w) Hg)
    as (cert & w1 & Hrun & Hfiles & _).
  cbn [certsFolder keysFolder started] in Hrun, Hfiles.
  fold (ca_pem caFolder) (ca_private_key caFolder) (ca_public_key caFolder)
    in Hrun, Hfiles.
  rewrite W1, W2, W3 in Hrun.
  assert (Hdone : async_first_error (completion env) [None; None; None] = None).
  { destruct (async_first_error (completion env) [None; None; None]) as [e |] eqn:E;
      [| reflexivity].
    apply async_first_error_In in E. simpl in E.
    destruct E as [E | [E | [E | []]]]; discriminate. }
  rewrite Hdone in Hrun.
  assert (F1 : files w1 !! ca_pem caFolder = Some (certificateToPem cert)).
  { rewrite Hfiles, !stored_other by congruence. now apply stored_written. }
  assert (F2 : files w1 !! ca_private_key caFolder
               = Some (privateKeyToPem (privateKey keys))).
  { rewrite Hfiles, stored_other by congruence. now apply stored_written. }
  assert (F3 : files w1 !! ca_public_key caFolder
               = Some (publicKeyToPem (publicKey keys))).
  { rewrite Hfiles. now apply stored_written. }
  exists cert, w1.
  split; [now rewrite create_run, Hp by exact Hdirs |].
  intros env' Hdirs' (R1 & R2 & R3).
  split; [| repeat split].
  rewrite create_run, (root_present_file caFolder _ w1 F1) by exact Hdirs'.
  exact (loadCA_decodes env' (started caFolder) _ _ _ (with_folders caFolder w1)
           F1 F2 F3 R1 R2 R3).
Qed.

(** *** Validity on any day of the year *)

(** The window in numbers, on any day. *)
Lemma window_on_any_day_bounds (delta now1 now2 : Z) (c : Certificate) :
  window_on_any_day delta now1 now2 c ->
  (delta <= JsDate.msPerHour)%Z ->
  (notBefore c <= now1 - 23 * JsDate.msPerHour)%Z
  /\ (now2 - delta <= notAfter c)%Z.
Proof.
  unfold window_on_any_day, near, JsDate.msPerHour, JsDate.msPerDay.
  intros [Hb [Ha | [Ha | Ha]]] Hd; lia.
Qed.

(** X18. Every certificate, the root and a leaf alike, is made with a
    window that starts a day before the first reading of the clock and ends
    at the second reading, or 365 or 366 days after it, each give or take
    [delta], in a zone whose offsets differ by [delta] at most around the
    two readings, provided [delta] is an hour at most and the second reading
    is no earlier than the first and at most a day later.  The certificate
    is thus never made before its time; it is made at its very end, or up
    to [delta] after it, when the day before the first reading lies in the
    local year before that of the second, that is, on the first day of a
    year. *)
Theorem validity_window_on_any_day env this keys delta w :
  keygen env (keygens w) = inr keys ->
  JsDate.steady_zone (LocalTZA env) delta (clock env (clock_reads w))
    (clock env (S (clock_reads w))) ->
  (delta <= JsDate.msPerHour)%Z ->
  (clock env (clock_reads w) <= clock env (S (clock_reads w))
   <= clock env (clock_reads w) + JsDate.msPerDay)%Z ->
  (exists err root w',
     generateCA env this w = (Done (err, with_root this root keys), w')
     /\ window_on_any_day delta (clock env (clock_reads w))
          (clock env (S (clock_reads w))) root)
  /\ (forall root rootKeys host rest,
        opened this root rootKeys ->
        altNames_error (map altName_of_host (host :: rest)) = None ->
        exists certServer w1,
          signServerCertificate env this (HostArray (host :: rest)) w
          = (Done (certServer, keys), w1)
          /\ window_on_any_day delta (clock env (clock_reads w))
               (clock env (S (clock_reads w))) certServer)
  /\ (forall c,
        window_on_any_day delta (clock env (clock_reads w))
          (clock env (S (clock_reads w))) c ->
        (notBefore c <= clock env (clock_reads w) - 23 * JsDate.msPerHour)%Z
        /\ (clock env (S (clock_reads w)) - delta <= notAfter c)%Z)
  /\ (forall c,
        notBefore c
        = JsDate.setDate (LocalTZA env) (clock env (clock_reads w))
            (JsDate.getDate (LocalTZA env) (clock env (clock_reads w)) - 1) ->
        notAfter c
        = JsDate.setFullYear (LocalTZA env) (clock env (S (clock_reads w)))
            (JsDate.getFullYear (LocalTZA env) (notBefore c) + 1) ->
        (JsDate.getFullYear (LocalTZA env) (notBefore c) + 1)%Z
        = JsDate.getFullYear (LocalTZA env) (clock env (S (clock_reads w))) ->
        near delta (notAfter c) (clock env (S (clock_reads w)))).
Proof.
  intros Hg Hz Hd Hnow.
  pose proof (JsDateFacts.notBefore_near (LocalTZA env) _ _ delta
                (clock env (clock_reads w)) Hz
                ltac:(unfold JsDate.msPerDay; lia) ltac:(unfold JsDate.msPerDay; lia))
    as Hb.
  assert (Hwin : forall c,
            notBefore c
            = JsDate.setDate (LocalTZA env) (clock env (clock_reads w))
                (JsDate.getDate (LocalTZA env) (clock env (clock_reads w)) - 1) ->
            notAfter c
            = JsDate.setFullYear (LocalTZA env) (clock env (S (clock_reads w)))
                (JsDate.getFullYear (LocalTZA env) (notBefore c) + 1) ->
            window_on_any_day delta (clock env (clock_reads w))
              (clock env (S (clock_reads w))) c).
  { intros c Hnb Hna. unfold window_on_any_day, near.
    rewrite Hna, Hnb. split; [exact Hb |].
    destruct (JsDateFacts.year_of_notBefore (LocalTZA env) _ _ delta
                (clock env (clock_reads w)) (clock env (S (clock_reads w)))
                Hz ltac:(unfold JsDate.msPerDay; lia)
                ltac:(unfold JsDate.msPerDay; lia) Hd Hnow) as [Hy | Hy].
    - right. apply (JsDateFacts.notAfter_a_year_on _ _ _ _ _ _ Hz); [| | exact Hy];
        unfold JsDate.msPerDay; lia.
    - left. apply (JsDateFacts.notAfter_at_once _ _ _ _ _ _ Hz); [| | exact Hy];
        unfold JsDate.msPerDay; lia. }
  split; [| split; [| split]].
  - destruct (generateCA_run env this keys w Hg)
      as (root & w' & Hrun & _ & _ & _ & Hnb & Hna & _).
    do 3 eexists. split; [exact Hrun | now apply Hwin].
  - intros root rootKeys host rest Hop Hn.
    destruct (signServerCertificate_run env this root rootKeys keys host rest w
                Hop Hg Hn)
      as (certServer & Hrun & _ & _ & Hnb & Hna & _).
    do 2 eexists. split; [exact Hrun | now apply Hwin].
  - intros c Hc. now apply (window_on_any_day_bounds delta _ _ c Hc).
  - intros c Hnb Hna Hy. unfold near. rewrite Hna.
    rewrite Hnb in Hy |- *.
    apply (JsDateFacts.notAfter_at_once _ _ _ _ _ _ Hz); [| | exact Hy];
      unfold JsDate.msPerDay; lia.
Qed.

End FurtherProperties.

(** ** The further properties on the small instance *)

Section FurtherInstances.

#[local] Existing Instance Toy.keys.
#[local] Existing Instance Toy.forge.

Lemma toy_signatures_verify (digest : MessageDigest) (c : @Certificate Toy.keys) :
  rsa_verify (Forge := Toy.forge) (publicKey Toy.leaf_keys) digest c
    (rsa_sign (Forge := Toy.forge) (privateKey Toy.leaf_keys) digest c) = true.
Proof. cbn. apply String.eqb_refl. Qed.

Lemma toy_folders_made : folders_made (FG := Toy.forge) Toy.env "/ca".
Proof. repeat split. Qed.

Lemma issuance_throws_before_the_writes_or_in_the_callback_witness :
  generateServerCertificateKeys_cb Toy.env Toy.authority
    (HostArray ["example.com"]) (call NotAFunction) Toy.sound_store
  = (Threw (TypeError "cb is not a function"),
     snd (generateServerCertificateKeys_cb Toy.env Toy.authority
            (HostArray ["example.com"]) (call NotAFunction) Toy.sound_store))
  /\ (exists certServer,
        signServerCertificate Toy.env Toy.authority (HostArray ["example.com"])
          Toy.sound_store
        = (Done (certServer, Toy.leaf_keys), advanced 1 4 2 Toy.sound_store)
        /\ snd (generateServerCertificateKeys_cb Toy.env Toy.authority
                  (HostArray ["example.com"]) (call NotAFunction) Toy.sound_store)
           = leaf_written Toy.env Toy.authority "example.com"
               (certificateToPem certServer) "PRIVATE:d1" "PUBLIC:n1"
               (advanced 1 4 2 Toy.sound_store))
  /\ generateServerCertificateKeys_cb Toy.env Toy.authority
       (HostString "example.com") (call NotAFunction) Toy.sound_store
     = (Threw (TypeError "hosts.map is not a function"),
        advanced 1 4 2 Toy.sound_store)
  /\ files (advanced 1 4 2 Toy.sound_store) = files Toy.sound_store.
Proof.
  assert (H1 : generateServerCertificateKeys_cb Toy.env Toy.authority
                 (HostArray ["example.com"]) (call NotAFunction) Toy.sound_store
               = (Threw (TypeError "cb is not a function"),
                  snd (generateServerCertificateKeys_cb Toy.env Toy.authority
                         (HostArray ["example.com"]) (call NotAFunction)
                         Toy.sound_store))) by (vm_compute; reflexivity).
  assert (H2 : generateServerCertificateKeys_cb Toy.env Toy.authority
                 (HostString "example.com") (call NotAFunction) Toy.sound_store
               = (Threw (TypeError "hosts.map is not a function"),
                  advanced 1 4 2 Toy.sound_store)) by (vm_compute; reflexivity).
  split; [exact H1 |]. split; [| split; [exact H2 |]].
  - destruct (issuance_throws_before_the_writes_or_in_the_callback
                (FG := Toy.forge) _ _ _ _ _ _ _ H1)
      as [(Hs & _) | (certServer & keysServer & host & rest & w2
                      & Hh & Hs & _ & Hnot & Hw)].
    + vm_compute in Hs. discriminate.
    + injection Hh as <- <-.
      destruct (Hnot eq_refl) as (_ & ->).
      assert (Hk : keysServer = Toy.leaf_keys).
      { vm_compute in Hs. now injection Hs as _ <-. }
      subst keysServer. exists certServer. split; [exact Hs | exact Hw].
  - destruct (issuance_throws_before_the_writes_or_in_the_callback
                (FG := Toy.forge) _ _ _ _ _ _ _ H2)
      as [(_ & Hf & _) | (certServer & keysServer & host & rest & w2 & Hh & _)].
    + exact Hf.
    + discriminate.
Defined.

Lemma unopened_authority_issues_nothing_witness :
  (CAcert (@new_CA Toy.keys) = None \/ CAkeys (@new_CA Toy.keys) = None)
  /\ exists e w',
       generateServerCertificateKeys (FG := Toy.forge) Toy.env new_CA
         (HostArray ["example.com"]) Toy.sound_store = (Threw e, w')
       /\ files w' = files Toy.sound_store /\ console w' = console Toy.sound_store.
Proof.
  split; [left; reflexivity |].
  apply (unopened_authority_issues_nothing (FG := Toy.forge)).
  left; reflexivity.
Defined.

Lemma issuance_keeps_the_other_cache_entries_witness :
  mainHost_of (HostArray ["*.example.com"]) = Some "*.example.com"
  /\ separator_free "*.example.com"
  /\ separator_free "example.org"
  /\ files (snd (generateServerCertificateKeys Toy.env Toy.authority
                   (HostArray ["*.example.com"]) Toy.sound_store))
       !! "/ca/certs/example.org.pem"
     = files Toy.sound_store !! "/ca/certs/example.org.pem"
  /\ files (snd (generateServerCertificateKeys Toy.env Toy.authority
                   (HostArray ["*.example.com"]) Toy.sound_store))
       !! "/ca/certs/ca.pem"
     = Some "CERT:01".
Proof.
  assert (S1 : separator_free "*.example.com").
  { intros i. do 14 (destruct i as [| i]; [discriminate |]). discriminate. }
  assert (S2 : separator_free "example.org").
  { intros i. do 12 (destruct i as [| i]; [discriminate |]). discriminate. }
  split; [reflexivity |]. split; [exact S1 |]. split; [exact S2 |].
  destruct (issuance_keeps_the_other_cache_entries (FG := Toy.forge) Toy.env
              Toy.authority (HostArray ["*.example.com"]) "*.example.com"
              "example.org" Toy.sound_store eq_refl S1 S2)
    as (Hpem & _ & _ & _ & Hroot); try discriminate.
  split; [exact Hpem |].
  cbv zeta in Hroot.
  change (getCACertPath Toy.authority) with "/ca/certs/ca.pem" in Hroot.
  rewrite Hroot; [vm_compute; reflexivity | reflexivity | discriminate].
Defined.

Lemma leaf_cache_entry_holds_what_was_returned_witness :
  opened Toy.authority (Toy.self_issued "01") Toy.root_keys
  /\ write_error Toy.env "/ca/certs/_.example.com.pem" = None
  /\ exists certServer w',
       generateServerCertificateKeys (FG := Toy.forge) Toy.env Toy.authority
         (HostArray ["*.example.com"]) Toy.sound_store
       = (Done (certificateToPem (Forge := Toy.forge) certServer, "PRIVATE:d1"), w')
       /\ files w' !! "/ca/certs/_.example.com.pem"
          = Some (certificateToPem (Forge := Toy.forge) certServer)
       /\ files w' !! "/ca/keys/_.example.com.key" = Some "PRIVATE:d1".
Proof.
  split; [split; reflexivity |]. split; [reflexivity |].
  destruct (leaf_cache_entry_holds_what_was_returned (FG := Toy.forge)
              Toy.env Toy.authority (Toy.self_issued "01") Toy.root_keys
              Toy.leaf_keys "*.example.com" [] Toy.sound_store
              (conj eq_refl eq_refl) eq_refl eq_refl eq_refl eq_refl eq_refl)
    as (certServer & w1 & w' & _ & Hrun & _ & F1 & F2 & _).
  exists certServer, w'. split; [exact Hrun |]. split; [exact F1 | exact F2].
Defined.

Lemma successive_leaves_are_fresh_witness :
  keygen Toy.env (S (keygens Toy.sound_store)) = inr Toy.leaf_keys
  /\ exists cert1 cert2 v1 w1 v2,
       signServerCertificate (FG := Toy.forge) Toy.env Toy.authority
         (HostArray ["a.example"]) Toy.sound_store
       = (Done (cert1, Toy.leaf_keys), v1)
       /\ signServerCertificate (FG := Toy.forge) Toy.env Toy.authority
            (HostArray ["b.example"]) w1
          = (Done (cert2, Toy.leaf_keys), v2)
       /\ serialNumber cert1 = "000000ff000100ff000200ff000300ff"
       /\ serialNumber cert2 = "000400ff000500ff000600ff000700ff".
Proof.
  split; [reflexivity |].
  destruct (successive_leaves_are_fresh (FG := Toy.forge)
              Toy.env Toy.authority (Toy.self_issued "01") Toy.root_keys
              Toy.leaf_keys Toy.leaf_keys "a.example" [] "b.example" []
              Toy.sound_store (conj eq_refl eq_refl) eq_refl eq_refl eq_refl eq_refl)
    as (cert1 & cert2 & w1 & w2 & v1 & v2 & _ & _ & Hs1 & Hs2 & _ & _ & Hn1 & Hn2).
  exists cert1, cert2, v1, w1, v2.
  split; [exact Hs1 |]. split; [exact Hs2 |].
  split; [rewrite Hn1 | rewrite Hn2]; vm_compute; reflexivity.
Defined.

Lemma successive_serial_numbers_witness :
  (forall i, i < 8 -> in_unit_interval (random Toy.env (i + 0)))
  /\ randomSerialNumber Toy.env (advanced 0 4 0 Toy.empty_world)
     = (Done (serial_at Toy.env 4), advanced 0 8 0 Toy.empty_world).
Proof.
  assert (H : forall i, i < 8 -> in_unit_interval (random Toy.env (i + 0))).
  { intros i _. unfold in_unit_interval. cbn [random Toy.env Toy.surroundings
      dyadic_of_block num expo]. apply N.mod_lt. discriminate. }
  split; [exact H |].
  apply (successive_serial_numbers Toy.env Toy.empty_world H).
Defined.

Lemma made_root_is_self_signed_witness :
  root_present (FG := Toy.forge) "/ca" Toy.empty_world = false
  /\ keygen Toy.env (keygens Toy.empty_world) = inr Toy.leaf_keys
  /\ exists err root w',
       create (FG := Toy.forge) Toy.env "/ca" Toy.empty_world
       = (Done (err, with_root (started "/ca") root Toy.leaf_keys), w')
       /\ signature_verifies (FG := Toy.forge) (cert_publicKey root) root = true.
Proof.
  split; [vm_compute; reflexivity |]. split; [reflexivity |].
  destruct (made_root_is_self_signed (FG := Toy.forge) Toy.env "/ca"
              Toy.leaf_keys Toy.empty_world toy_folders_made
              ltac:(vm_compute; reflexivity) eq_refl toy_signatures_verify)
    as (err & root & w' & Hrun & _ & _ & _ & _ & _ & _ & Hver).
  exists err, root, w'. split; [exact Hrun | exact Hver].
Defined.

Lemma leaf_of_a_made_root_chains_witness :
  root_present (FG := Toy.forge) "/ca" Toy.empty_world = false
  /\ exists root certServer w3,
       signServerCertificate (FG := Toy.forge) Toy.env
         (with_root (started "/ca") root Toy.leaf_keys)
         (HostArray ["example.com"]) Toy.empty_world
       = (Done (certServer, Toy.leaf_keys), w3)
       /\ issuer certServer = subject root
       /\ signature_verifies (FG := Toy.forge) (cert_publicKey root) certServer = true.
Proof.
  split; [vm_compute; reflexivity |].
  destruct (leaf_of_a_made_root_chains (FG := Toy.forge) Toy.env "/ca"
              Toy.leaf_keys Toy.empty_world toy_folders_made
              ltac:(vm_compute; reflexivity) eq_refl toy_signatures_verify)
    as (err & root & w1 & _ & Hleaf).
  destruct (Hleaf "example.com" [] Toy.leaf_keys Toy.empty_world eq_refl eq_refl)
    as (certServer & w3 & Hs & Hi & _ & Hv).
  exists root, certServer, w3. split; [exact Hs |]. split; [exact Hi | exact Hv].
Defined.

Lemma failed_key_generation_leaves_no_root_witness :
  keygen Scenes.without_entropy (keygens Toy.empty_world)
  = inl (ForgeError "PRNG not seeded")
  /\ exists w',
       create (FG := Toy.forge) Scenes.without_entropy "/ca" Toy.empty_world
       = (Done (Some (ForgeError "PRNG not seeded"), started "/ca"), w')
       /\ files w' = files Toy.empty_world.
Proof.
  split; [reflexivity |].
  destruct (failed_key_generation_leaves_no_root (FG := Toy.forge)
              Scenes.without_entropy "/ca" (ForgeError "PRNG not seeded")
              Toy.empty_world)
    as (w' & Hrun & _ & Hfiles & _).
  - repeat split.
  - vm_compute; reflexivity.
  - reflexivity.
  - exists w'. split; [exact Hrun | exact Hfiles].
Defined.

Lemma create_throws_when_a_folder_cannot_be_made_witness :
  ~ folders_made (FG := Toy.forge) Scenes.without_folders "/ca"
  /\ exists e w',
       create (FG := Toy.forge) Scenes.without_folders "/ca" Toy.empty_world
       = (Threw e, w')
       /\ files w' = files Toy.empty_world.
Proof.
  assert (H : ~ folders_made (FG := Toy.forge) Scenes.without_folders "/ca")
    by (intros [H _]; discriminate).
  split; [exact H |].
  destruct (create_throws_when_a_folder_cannot_be_made (FG := Toy.forge)
              Scenes.without_folders "/ca" Toy.empty_world H)
    as (e & w' & Hrun & _ & Hfiles & _).
  exists e, w'. split; [exact Hrun | exact Hfiles].
Defined.

Lemma unreadable_root_store_is_reported_witness :
  files Scenes.store_without_key !! ca_pem (FG := Toy.forge) "/ca" = Some "CERT:01"
  /\ files Scenes.store_without_key !! ca_private_key (FG := Toy.forge) "/ca" = None
  /\ exists e w',
       create (FG := Toy.forge) Toy.env "/ca" Scenes.store_without_key
       = (Done (Some e, started "/ca"), w')
       /\ keygens w' = 0.
Proof.
  split; [vm_compute; reflexivity |]. split; [vm_compute; reflexivity |].
  destruct (unreadable_root_store_is_reported (FG := Toy.forge) Toy.env "/ca"
              "CERT:01" Scenes.store_without_key toy_folders_made)
    as (e & w' & Hrun & _ & _ & Hk).
  - vm_compute; reflexivity.
  - right. left. left. vm_compute; reflexivity.
  - exists e, w'. split; [exact Hrun | exact Hk].
Defined.

Lemma half_written_store_is_not_regenerated_witness :
  write_error Scenes.certificate_only (ca_pem (FG := Toy.forge) "/ca") = None
  /\ write_error Scenes.certificate_only (ca_private_key (FG := Toy.forge) "/ca")
     = Some (SystemError "ENOSPC" "/ca/keys/ca.private.key")
  /\ cut_at Scenes.certificate_only (ca_private_key (FG := Toy.forge) "/ca") = Some 0
  /\ cut_at Scenes.certificate_only_opens (ca_private_key (FG := Toy.forge) "/ca")
     = None
  /\ (exists e1 ca w1,
        create (FG := Toy.forge) Scenes.certificate_only "/ca" Toy.empty_world
        = (Done (Some e1, ca), w1)
        /\ files w1 !! "/ca/keys/ca.private.key" = Some ""
        /\ create (FG := Toy.forge) Toy.env "/ca" w1
           = (Threw Toy.pem_error, with_folders "/ca" w1))
  /\ (exists e1 ca w1 e2,
        create (FG := Toy.forge) Scenes.certificate_only_opens "/ca" Toy.empty_world
        = (Done (Some e1, ca), w1)
        /\ files w1 !! "/ca/keys/ca.private.key" = None
        /\ create (FG := Toy.forge) Toy.env "/ca" w1
           = (Done (Some e2, started "/ca"), with_folders "/ca" w1)).
Proof.
  split; [reflexivity |]. split; [reflexivity |].
  split; [reflexivity |]. split; [reflexivity |].
  split.
  - destruct (half_written_store_is_not_regenerated (FG := Toy.forge)
                Scenes.certificate_only "/ca" Toy.leaf_keys
                (SystemError "ENOSPC" "/ca/keys/ca.private.key") Toy.empty_world)
      as (e1 & root & w1 & Hrun & F1 & F2 & Hlater); try discriminate;
      try reflexivity.
    + repeat split.
    + destruct (Hlater Toy.env toy_folders_made) as (_ & _ & _ & Hcut).
      destruct (Hcut 0 Toy.pem_error eq_refl eq_refl) as (_ & Hthrow).
      assert (F3 : files w1 !! ca_public_key (FG := Toy.forge) "/ca" = Some "").
      { apply (f_equal snd) in Hrun. cbn [snd] in Hrun. rewrite <- Hrun.
        vm_compute. reflexivity. }
      exists e1, (with_root (started "/ca") root Toy.leaf_keys), w1.
      split; [exact Hrun |]. split; [exact F2 |].
      apply (Hthrow (Toy.self_issued (serialNumber root)) ""); [| exact F3 |].
      * repeat split.
      * reflexivity.
  - destruct (half_written_store_is_not_regenerated (FG := Toy.forge)
                Scenes.certificate_only_opens "/ca" Toy.leaf_keys
                (SystemError "ENOSPC" "/ca/keys/ca.private.key") Toy.empty_world)
      as (e1 & root & w1 & Hrun & F1 & F2 & Hlater); try discriminate;
      try reflexivity.
    + repeat split.
    + destruct (Hlater Toy.env toy_folders_made) as (_ & _ & Hnone & _).
      destruct (Hnone eq_refl) as (e2 & Hrun2).
      exists e1, (with_root (started "/ca") root Toy.leaf_keys), w1, e2.
      split; [exact Hrun |]. split; [exact F2 | exact Hrun2].
Defined.

Lemma sound_store_loads_what_it_holds_witness :
  files Toy.sound_store !! ca_pem (FG := Toy.forge) "/ca" = Some "CERT:01"
  /\ certificateFromPem (Forge := Toy.forge) "CERT:01" = inr (Toy.self_issued "01")
  /\ exists ca w',
       create (FG := Toy.forge) Toy.env "/ca" Toy.sound_store
       = (Done (None, ca), w')
       /\ opened ca (Toy.self_issued "01") Toy.root_keys
       /\ getPem (FG := Toy.forge) ca w' = (Done "CERT:01", w').
Proof.
  split; [vm_compute; reflexivity |]. split; [reflexivity |].
  destruct (sound_store_loads_what_it_holds (FG := Toy.forge) Toy.env "/ca"
              "CERT:01" "PRIVATE:d0" "PUBLIC:n0" (Toy.self_issued "01") "d0" "n0"
              Toy.sound_store toy_folders_made)
    as (ca & w' & Hrun & Hopen & _ & _ & Hpem); try reflexivity.
  - repeat split.
  - exists ca, w'. split; [exact Hrun |]. split; [exact Hopen | exact Hpem].
Defined.

Lemma getPem_is_the_file_at_getCACertPath_witness :
  write_error Toy.env (ca_pem (FG := Toy.forge) "/ca") = None
  /\ exists err ca w1 text,
       create (FG := Toy.forge) Toy.env "/ca" Toy.empty_world = (Done (err, ca), w1)
       /\ getPem (FG := Toy.forge) ca w1 = (Done text, w1)
       /\ files w1 !! getCACertPath (FG := Toy.forge) ca = Some text.
Proof.
  split; [reflexivity |].
  destruct (getPem_is_the_file_at_getCACertPath (FG := Toy.forge) Toy.env "/ca"
              Toy.leaf_keys Toy.empty_world toy_folders_made)
    as [(err & ca & w1 & text & Hrun & _ & Hpem & Hfile) _]; try discriminate.
  - vm_compute; reflexivity.
  - reflexivity.
  - reflexivity.
  - exists err, ca, w1, text. split; [exact Hrun |]. split; [exact Hpem | exact Hfile].
Defined.

Lemma second_open_loads_what_the_first_made_witness :
  root_present (FG := Toy.forge) "/ca" Toy.empty_world = false
  /\ exists root w1,
       create (FG := Toy.forge) Toy.env "/ca" Toy.empty_world
       = (Done (None, with_root (started "/ca") root Toy.leaf_keys), w1)
       /\ create (FG := Toy.forge) Toy.env "/ca" w1
          = (Done (None, with_root (started "/ca")
                           (Toy.self_issued (serialNumber root)) Toy.leaf_keys),
             with_folders "/ca" w1)
       /\ keygens (with_folders (FG := Toy.forge) "/ca" w1) = keygens w1.
Proof.
  split; [vm_compute; reflexivity |].
  destruct (second_open_loads_what_the_first_made (FG := Toy.forge)
              Toy.env "/ca" Toy.leaf_keys Toy.empty_world)
    as (root & w1 & H1 & Hlater); try discriminate; try reflexivity.
  - repeat split.
  - destruct (Hlater Toy.env toy_folders_made) as (H2 & _ & Hk & _);
      [repeat split |].
    exists root, w1. split; [exact H1 |]. split; [exact H2 | exact Hk].
Defined.

Lemma validity_window_on_any_day_witness :
  JsDate.steady_zone (LocalTZA Toy.env_new_year) 0 1704110400000 1704110400000
  /\ (clock Toy.env_new_year 0 <= clock Toy.env_new_year 1
      <= clock Toy.env_new_year 0 + JsDate.msPerDay)%Z
  /\ exists err root w',
       generateCA (FG := Toy.forge) Toy.env_new_year (started "/ca") Toy.empty_world
       = (Done (err, with_root (started "/ca") root Toy.leaf_keys), w')
       /\ window_on_any_day 0 1704110400000 1704110400000 root.
Proof.
  assert (Hz : JsDate.steady_zone (LocalTZA Toy.env_new_year) 0
                  1704110400000 1704110400000).
  { intros t b _.
    cbv [LocalTZA Toy.env_new_year Toy.surroundings JsDate.fixed_zone
         JsDate.msPerDay].
    split; [lia | intros; lia]. }
  assert (H : (clock Toy.env_new_year 0 <= clock Toy.env_new_year 1
               <= clock Toy.env_new_year 0 + JsDate.msPerDay)%Z)
    by (vm_compute; split; discriminate).
  split; [exact Hz |]. split; [exact H |].
  apply (validity_window_on_any_day (FG := Toy.forge) Toy.env_new_year
           (started "/ca") Toy.leaf_keys 0 Toy.empty_world eq_refl Hz).
  - unfold JsDate.msPerHour. lia.
  - exact H.
Defined.

End FurtherInstances.
